(** * JEDT: the CMAPSS synthetic sensor and health data generator

    A shallow embedding of [cmapssData] (the engine registry, the sensor
    series generator, the health assessment, the performance metrics, the
    component breakdown and the history), of [mockData] (the conversion
    of the registry, the typed sensor readings and the maintenance
    alerts), of the helpers of the [EngineHealthScore] card and of the
    data loading of the [Engine3DVisualization] viewer, together with the
    part of the JavaScript runtime these functions rely on.

    - Numbers.  JavaScript numbers are IEEE 754 binary64 values; they are
      modelled by Rocq's primitive [float], whose operations are the same
      correctly rounded binary64 operations.  General facts about them are
      proved through [Prim2SF] and the specification of the format.
    - Randomness.  [Math.random] is modelled by an explicit source
      [random : nat -> number] giving the value of the i-th call; the
      number of calls made so far is threaded through the computation
      (the monad [M]).
    - Exceptions are modelled by the [completion] type.
    - Integers.  The cycle count and the loop counter are integers ([Z]);
      the counter never exceeds 10^8 (see [lastDatedCycle]), far below
      2^53, where number arithmetic on integers is exact.  The default
      value of the cycle count (50) is not modelled: the count is always
      given.
    - Timestamps.  A reading keeps the instant of its timestamp in
      milliseconds since the epoch rather than its ISO 8601 rendering.
    - The clock.  [Date.now] is modelled like [Math.random], by the
      sequence [clock : nat -> Z] of the values it returns (the monad [W]).
    - Ranges.  The values of finite numbers are read as rationals; the
      range of an expression is found by interval arithmetic whose end
      points are binary64 values and whose steps are checked by
      evaluation. *)

From Stdlib Require Import QArith Qpower Qabs Qround Lqa.
From Stdlib Require Import ZArith List String Ascii Bool Lia Floats Sorted.
From Stdlib Require Import DecimalString.
Import ListNotations.

Set Warnings "-inexact-float".

(* ================================================================== *)
(** ** The JavaScript runtime used by the generator *)
(* ================================================================== *)

Module JS.

(** *** Completions and the random-source monad *)

Inductive exn : Type :=
| Error (message : string)
| RangeError (message : string).

Inductive completion (A : Type) : Type :=
| Normal (a : A)
| Throw (e : exn).
Arguments Normal {A} a.
Arguments Throw {A} e.

(** A computation that may call [Math.random]: it receives the number
    of calls made so far and returns a completion with the new count. *)
Definition M (A : Type) : Type := nat -> completion A * nat.

Definition ret {A} (a : A) : M A := fun i => (Normal a, i).

Definition bind {A B} (c : M A) (k : A -> M B) : M B :=
  fun i => match c i with
           | (Normal a, j) => k a j
           | (Throw e, j) => (Throw e, j)
           end.

Definition lift {A} (c : completion A) : M A := fun i => (c, i).

Declare Scope js_scope.
Delimit Scope js_scope with js.
Notation "x <- c ;; k" := (bind c (fun x => k))
  (at level 100, c at next level, right associativity) : js_scope.

(** *** Numbers *)

Definition number : Type := float.

(** The Number value of an integer (exact below 2^53). *)
Definition of_Z (n : Z) : number := SF2Prim (binary_normalize prec emax n 0 false).

Definition Math_abs (x : number) : number := abs x.

Definition Math_sqrt (x : number) : number := sqrt x.

(** [Math.max(a, b)]: NaN if either argument is NaN; +0 is larger than -0. *)
Definition Math_max (a b : number) : number :=
  if is_nan a || is_nan b then nan
  else if (a <? b)%float then b
  else if (b <? a)%float then a
  else if get_sign a then b else a.

(** [Math.round(x)]: the integer nearest to [x], ties towards +infinity;
    a result of zero keeps the sign of [x]. *)
Definition Math_round (x : number) : number :=
  match Prim2SF x with
  | S754_finite s m e =>
      if (0 <=? e)%Z then x
      else
        let q := ((2 * cond_Zopp s (Zpos m) + 2 ^ (- e)) / 2 ^ (1 - e))%Z in
        if (q =? 0)%Z then (if s then (-0)%float else 0%float) else of_Z q
  | _ => x
  end.

(** The strings that [toFixed] produces, as far as [Number] reads them:
    either the fixed-point decimal [n / 10^f] with an optional minus
    sign, or [Number::toString] of the value itself (for NaN, the
    infinities and magnitudes of at least 10^21), which [Number] reads
    back to the same value. *)
Inductive numeral : Type :=
| Fixed (minus : bool) (n : Z) (f : Z)
| ToString (x : number).

(** The integer [n] for which [n / 10^f - m * 2^e] is as close to zero
    as possible, the larger one on a tie. *)
Definition nearest_scaled (m : positive) (e f : Z) : Z :=
  if (0 <=? e)%Z then Zpos m * 2 ^ e * 10 ^ f
  else (2 * Zpos m * 10 ^ f + 2 ^ (- e)) / 2 ^ (1 - e).

(** [Number.prototype.toFixed(fractionDigits)].  Every call site passes
    a literal between 0 and 4, so the RangeError for a digit count
    outside 0..100 cannot arise. *)
Definition toFixed (x : number) (fractionDigits : Z) : numeral :=
  match Prim2SF x with
  | S754_zero _ => Fixed false 0 fractionDigits
  | S754_finite s m e =>
      if (1e21 <=? abs x)%float then ToString x
      else Fixed s (nearest_scaled m e fractionDigits) fractionDigits
  | _ => ToString x
  end.

(** The binary64 value nearest to the quotient of two positive integers
    (round to nearest, ties to even). *)
Definition nearest_quotient (n d : positive) : number :=
  SF2Prim (SF64div (S754_finite false n 0) (S754_finite false d 0)).

(** [Number(s)] on the strings above. *)
Definition Number (s : numeral) : number :=
  match s with
  | ToString x => x
  | Fixed minus n f =>
      let v := match n with
               | Zpos p => nearest_quotient p (Z.to_pos (10 ^ f))
               | _ => 0%float
               end in
      if minus then (- v)%float else v
  end.

(** *** Dates *)

(** A [Date] is its time value in milliseconds since the epoch, or
    invalid.  [new Date(t)] clips: beyond 8.64e15 ms the date is invalid. *)
Definition Date : Type := option Z.

Definition Date_of_time (t : Z) : Date :=
  if (Z.abs t <=? 8640000000000000)%Z then Some t else None.

Definition getTime_2024_01_01 : Z := 1704067200000.

(** [toISOString()] throws a RangeError on an invalid date.  The ISO
    rendering of a valid date is one-to-one with its time value, which
    is what the model keeps. *)
Definition toISOString (d : Date) : completion Z :=
  match d with
  | Some t => Normal t
  | None => Throw (RangeError "Invalid time value")
  end.

End JS.

Import JS.
Local Open Scope js_scope.

(* ================================================================== *)
(** ** Data model *)
(* ================================================================== *)

Inductive Dataset : Type := FD001 | FD002 | FD003 | FD004.

Definition Dataset_eqb (a b : Dataset) : bool :=
  match a, b with
  | FD001, FD001 | FD002, FD002 | FD003, FD003 | FD004, FD004 => true
  | _, _ => false
  end.

Inductive EngineStatus : Type := operational | maintenance_required | degraded.

(** [Array.prototype.includes] on an array of strings. *)
Definition includes (xs : list string) (x : string) : bool :=
  existsb (String.eqb x) xs.

Module CMAPSSEngine.
Record t : Type := {
  engineId : string;
  model : string;
  serialNumber : string;
  flightHours : number;
  cycles : number;
  healthScore : number;
  status : EngineStatus;
  lastMaintenance : string;
  nextMaintenance : string;
  dataset : Dataset;
  operationalConditions : string;
  faultModes : list string
}.
End CMAPSSEngine.

Module CMAPSSSensorReading.
Record t : Type := {
  timestamp : Z;      (* the instant rendered by [toISOString] *)
  engineId : string;
  cycle : Z;
  EGT : number;
  N1 : number;
  N2 : number;
  fuelFlow : number;
  oilPressure : number;
  oilTemperature : number;
  vibration : number;
  altitude : number;
  machNumber : number;
  ambientTemp : number;
  T2 : number;
  T24 : number;
  T30 : number;
  P2 : number;
  P15 : number;
  P24 : number;
  Ps30 : number;
  Nf : number;
  Nc : number;
  epr : number;
  phi : number;
  NRf : number;
  NRc : number;
  BPR : number;
  farB : number;
  htBleed : number;
  Nf_dmd : number;
  PCNfR_dmd : number;
  W31 : number
}.
End CMAPSSSensorReading.

Module CMAPSSHealthData.
Record t : Type := {
  engineId : string;
  currentCycle : number;
  remainingUsefulLife : number;
  healthScore : number;
  degradationRate : number;
  faultProbability : number;
  maintenanceRecommendation : string;
  criticalComponents : list string
}.
End CMAPSSHealthData.

Module PerformanceMetrics.
Record t : Type := {
  engineId : string;
  fuelEfficiency : number;
  thermalEfficiency : number;
  thrustOutput : number;
  operatingTemperature : number;
  vibrationLevel : number;
  pressureRatio : number;
  fanSpeed : number;
  coreSpeed : number;
  dataset : Dataset;
  operationalConditions : string;
  faultModes : list string
}.
End PerformanceMetrics.

Inductive ComponentStatus : Type := normal | warning | critical.

Module ComponentHealth.
Record t : Type := {
  id : string;
  name : string;
  health : number;
  status : ComponentStatus;
  lastInspection : string;   (* the date literal given to [new Date] *)
  nextInspection : string
}.
End ComponentHealth.

(* ================================================================== *)
(** ** The engine registry *)
(* ================================================================== *)

Local Open Scope string_scope.
Local Open Scope float_scope.

Definition mkEngine := CMAPSSEngine.Build_t.

Definition cmapssEngines : list CMAPSSEngine.t := [
  mkEngine "CMAPSS-FD001-001" "CFM56-7B (CMAPSS)" "SN001" 15420 362 92.5
    operational "2024-01-15" "2024-07-15" FD001 "Sea Level"
    ["HPC Degradation"];
  mkEngine "CMAPSS-FD001-002" "CFM56-7B (CMAPSS)" "SN002" 12850 334 88.7
    operational "2024-02-01" "2024-08-01" FD001 "Sea Level"
    ["HPC Degradation"];
  mkEngine "CMAPSS-FD001-003" "CFM56-7B (CMAPSS)" "SN003" 8920 206 95.2
    operational "2024-03-10" "2024-09-10" FD001 "Sea Level"
    ["HPC Degradation"];
  mkEngine "CMAPSS-FD002-001" "CFM56-7B (CMAPSS)" "SN101" 18650 298 85.4
    operational "2024-01-20" "2024-07-20" FD002 "6 Operating Conditions"
    ["HPC Degradation"];
  mkEngine "CMAPSS-FD002-002" "CFM56-7B (CMAPSS)" "SN102" 21340 356 78.9
    maintenance_required "2024-02-15" "2024-05-15" FD002 "6 Operating Conditions"
    ["HPC Degradation"];
  mkEngine "CMAPSS-FD003-001" "CFM56-7B (CMAPSS)" "SN201" 16780 285 82.1
    operational "2024-01-25" "2024-06-25" FD003 "Sea Level"
    ["HPC Degradation"; "Fan Degradation"];
  mkEngine "CMAPSS-FD003-002" "CFM56-7B (CMAPSS)" "SN202" 19420 312 74.6
    maintenance_required "2024-03-01" "2024-05-01" FD003 "Sea Level"
    ["HPC Degradation"; "Fan Degradation"];
  mkEngine "CMAPSS-FD004-001" "CFM56-7B (CMAPSS)" "SN301" 22150 341 71.3
    degraded "2024-02-10" "2024-04-10" FD004 "6 Operating Conditions"
    ["HPC Degradation"; "Fan Degradation"];
  mkEngine "CMAPSS-FD004-002" "CFM56-7B (CMAPSS)" "SN302" 24680 378 68.9
    degraded "2024-01-05" "2024-03-05" FD004 "6 Operating Conditions"
    ["HPC Degradation"; "Fan Degradation"]
].

(** [cmapssEngines.find(e => e.engineId === engineId)] *)
Definition findEngine (engineId : string) : option CMAPSSEngine.t :=
  find (fun e => String.eqb (CMAPSSEngine.engineId e) engineId) cmapssEngines.

(* ================================================================== *)
(** ** generateCMAPSSSensorData *)
(* ================================================================== *)

Record DatasetParams : Type := {
  altitudeBase : number;
  machBase : number;
  tempVariation : number
}.

Definition datasetParams (d : Dataset) : DatasetParams :=
  match d with
  | FD001 => {| altitudeBase := 0; machBase := 0.0; tempVariation := 0.5 |}
  | FD002 => {| altitudeBase := 25000; machBase := 0.7; tempVariation := 2.0 |}
  | FD003 => {| altitudeBase := 0; machBase := 0.0; tempVariation := 0.8 |}
  | FD004 => {| altitudeBase := 30000; machBase := 0.75; tempVariation := 2.5 |}
  end.

Section Generator.

(** The values returned by successive calls of [Math.random]. *)
Variable random : nat -> number.

Definition Math_random : M number := fun i => (Normal (random i), S i).

Definition noise : M number :=
  r <- Math_random ;; ret ((r - 0.5) * 0.02).

Definition cycleNoise (params : DatasetParams) : M number :=
  r <- Math_random ;; ret ((r - 0.5) * tempVariation params).

(** The body of the [for] loop: the reading pushed for one [cycle]. *)
Definition sensorReading (engine : CMAPSSEngine.t) (params : DatasetParams)
    (engineId : string) (cycle : Z) : M CMAPSSSensorReading.t :=
  let degradationFactor := 1 - (of_Z cycle / (CMAPSSEngine.cycles engine * 1.2)) in
  let healthFactor := Math_max 0.6 degradationFactor in
  let cycleNoise := cycleNoise params in
  n <- cycleNoise ;; let T2 := 518.67 + n in
  n <- cycleNoise ;; let T24 := 1580 + n * 10 + (1 - healthFactor) * 20 in
  n <- cycleNoise ;; let T30 := 1350 + n * 15 + (1 - healthFactor) * 30 in
  n <- noise ;; let P2 := 14.62 + n in
  n <- noise ;; let P15 := 8.44 + n * 0.5 in
  n <- cycleNoise ;; let P24 := 593.0 + n * 20 + (1 - healthFactor) * 50 in
  n <- cycleNoise ;; let Ps30 := 1400 + n * 30 + (1 - healthFactor) * 60 in
  n <- cycleNoise ;; let Nf := 2388.0 * healthFactor + n * 10 in
  n <- cycleNoise ;; let Nc := 9046.0 * healthFactor + n * 50 in
  let epr := P24 / P2 in
  n <- noise ;; let phi := 0.03 + n * 0.002 + (1 - healthFactor) * 0.005 in
  let EGT := (T30 - 459.67) * 5 / 9 in
  let N1 := (Nf / 2400) * 100 in
  let N2 := (Nc / 9100) * 100 in
  let fuelFlow := phi * Ps30 * 0.1 in
  let timestamp :=
    Date_of_time (getTime_2024_01_01 + cycle * 24 * 60 * 60 * 1000)%Z in
  iso <- lift (toISOString timestamp) ;;
  n_altitude <- cycleNoise ;;
  n_machNumber <- noise ;;
  n_BPR <- noise ;;
  n_farB <- noise ;;
  n_htBleed <- noise ;;
  n_Nf_dmd <- cycleNoise ;;
  n_PCNfR_dmd <- noise ;;
  n_W31 <- noise ;;
  ret {|
    CMAPSSSensorReading.timestamp := iso;
    CMAPSSSensorReading.engineId := engineId;
    CMAPSSSensorReading.cycle := cycle;
    CMAPSSSensorReading.EGT := Number (toFixed EGT 1);
    CMAPSSSensorReading.N1 := Number (toFixed N1 1);
    CMAPSSSensorReading.N2 := Number (toFixed N2 1);
    CMAPSSSensorReading.fuelFlow := Number (toFixed fuelFlow 0);
    CMAPSSSensorReading.oilPressure := Number (toFixed (P24 * 0.025) 1);
    CMAPSSSensorReading.oilTemperature := Number (toFixed (EGT * 0.6) 1);
    CMAPSSSensorReading.vibration :=
      Number (toFixed (Math_abs (Nf - 2388) * 0.001) 2);
    CMAPSSSensorReading.altitude := altitudeBase params + n_altitude * 1000;
    CMAPSSSensorReading.machNumber :=
      Number (toFixed (machBase params + n_machNumber * 0.1) 2);
    CMAPSSSensorReading.ambientTemp :=
      Number (toFixed (15 - altitudeBase params * 0.0065) 1);
    CMAPSSSensorReading.T2 := Number (toFixed T2 2);
    CMAPSSSensorReading.T24 := Number (toFixed T24 2);
    CMAPSSSensorReading.T30 := Number (toFixed T30 2);
    CMAPSSSensorReading.P2 := Number (toFixed P2 2);
    CMAPSSSensorReading.P15 := Number (toFixed P15 2);
    CMAPSSSensorReading.P24 := Number (toFixed P24 2);
    CMAPSSSensorReading.Ps30 := Number (toFixed Ps30 2);
    CMAPSSSensorReading.Nf := Number (toFixed Nf 2);
    CMAPSSSensorReading.Nc := Number (toFixed Nc 2);
    CMAPSSSensorReading.epr := Number (toFixed epr 3);
    CMAPSSSensorReading.phi := Number (toFixed phi 4);
    CMAPSSSensorReading.NRf := Number (toFixed (Nf / Math_sqrt (T2 / 518.67)) 2);
    CMAPSSSensorReading.NRc := Number (toFixed (Nc / Math_sqrt (T24 / 518.67)) 2);
    CMAPSSSensorReading.BPR := Number (toFixed (5.1 + n_BPR * 0.1) 2);
    CMAPSSSensorReading.farB := Number (toFixed (0.024 + n_farB * 0.001) 4);
    CMAPSSSensorReading.htBleed := Number (toFixed (394 + n_htBleed * 5) 2);
    CMAPSSSensorReading.Nf_dmd := Number (toFixed (Nf + n_Nf_dmd) 2);
    CMAPSSSensorReading.PCNfR_dmd := Number (toFixed (47.47 + n_PCNfR_dmd) 2);
    CMAPSSSensorReading.W31 := Number (toFixed (39.06 + n_W31 * 2) 2)
  |}.

(** [for (let cycle = ...; cycle <= cycles; cycle++)] with [trips]
    iterations left; [readings] is the array built so far. *)
Fixpoint cycleLoop (engine : CMAPSSEngine.t) (params : DatasetParams)
    (engineId : string) (trips : nat) (cycle : Z)
    (readings : list CMAPSSSensorReading.t) : M (list CMAPSSSensorReading.t) :=
  match trips with
  | O => ret readings
  | S trips' =>
      r <- sensorReading engine params engineId cycle ;;
      cycleLoop engine params engineId trips' (cycle + 1)%Z (readings ++ [r])%list
  end.

(** [cycles] is an integer; the loop makes [cycles] passes (none if it is
    negative) for [cycle] = 1, 2, ..., unless a pass throws. *)
Definition generateCMAPSSSensorData (engineId : string) (cycles : Z)
  : M (list CMAPSSSensorReading.t) :=
  match findEngine engineId with
  | None => ret []
  | Some engine =>
      let params := datasetParams (CMAPSSEngine.dataset engine) in
      cycleLoop engine params engineId (Z.to_nat cycles) 1%Z []
  end.

End Generator.

(* ================================================================== *)
(** ** generateCMAPSSHealthData *)
(* ================================================================== *)

Definition generateCMAPSSHealthData (engineId : string)
  : completion CMAPSSHealthData.t :=
  match findEngine engineId with
  | None => Throw (Error ("Engine " ++ engineId ++ " not found")%string)
  | Some engine =>
      let estimatedTotalLife := CMAPSSEngine.cycles engine * 1.3 in
      let remainingCycles :=
        Math_max 0 (estimatedTotalLife - CMAPSSEngine.cycles engine) in
      let baseDegradationRate := 0.15 in
      let baseDegradationRate :=
        if includes (CMAPSSEngine.faultModes engine) "Fan Degradation"
        then baseDegradationRate + 0.05 else baseDegradationRate in
      let baseDegradationRate :=
        if Dataset_eqb (CMAPSSEngine.dataset engine) FD002
           || Dataset_eqb (CMAPSSEngine.dataset engine) FD004
        then baseDegradationRate + 0.03 else baseDegradationRate in
      let faultProbability :=
        Math_max 0 ((100 - CMAPSSEngine.healthScore engine) / 100 * 0.8) in
      let criticalComponents : list string := [] in
      let criticalComponents :=
        if includes (CMAPSSEngine.faultModes engine) "HPC Degradation"
        then (criticalComponents ++ ["High Pressure Compressor"; "Compressor Blades"])%list
        else criticalComponents in
      let criticalComponents :=
        if includes (CMAPSSEngine.faultModes engine) "Fan Degradation"
        then (criticalComponents ++ ["Fan Blades"; "Fan Disk"])%list
        else criticalComponents in
      let criticalComponents :=
        if CMAPSSEngine.healthScore engine <? 80
        then (criticalComponents ++ ["Combustor"; "Turbine Blades"])%list
        else criticalComponents in
      let recommendation := "Continue normal operations" in
      let recommendation :=
        if CMAPSSEngine.healthScore engine <? 85
        then "Schedule borescope inspection within 50 cycles"
        else recommendation in
      let recommendation :=
        if CMAPSSEngine.healthScore engine <? 75
        then "Plan maintenance within 25 cycles - component replacement may be required"
        else recommendation in
      let recommendation :=
        if CMAPSSEngine.healthScore engine <? 70
        then "URGENT: Schedule immediate maintenance - engine approaching critical degradation levels"
        else recommendation in
      Normal {|
        CMAPSSHealthData.engineId := engineId;
        CMAPSSHealthData.currentCycle := CMAPSSEngine.cycles engine;
        CMAPSSHealthData.remainingUsefulLife := Math_round remainingCycles;
        CMAPSSHealthData.healthScore := CMAPSSEngine.healthScore engine;
        CMAPSSHealthData.degradationRate := Number (toFixed baseDegradationRate 3);
        CMAPSSHealthData.faultProbability := Number (toFixed faultProbability 3);
        CMAPSSHealthData.maintenanceRecommendation := recommendation;
        CMAPSSHealthData.criticalComponents := criticalComponents
      |}
  end.

(* ================================================================== *)
(** ** getCMAPSSPerformanceMetrics and getComponentHealthData *)
(* ================================================================== *)

Section Consumers.

Variable random : nat -> number.

(** [sensorData[sensorData.length - 1]], [undefined] on an empty array. *)
Definition lastReading (sensorData : list CMAPSSSensorReading.t)
  : option CMAPSSSensorReading.t :=
  nth_error sensorData (List.length sensorData - 1).

(** The result is [null] ([None]) or the metrics object. *)
Definition getCMAPSSPerformanceMetrics (engineId : string)
  : M (option PerformanceMetrics.t) :=
  match findEngine engineId with
  | None => ret None
  | Some engine =>
      sensorData <- generateCMAPSSSensorData random engineId 10%Z ;;
      match lastReading sensorData with
      | None => ret None
      | Some latestReading =>
          let baselineEGT := 650 in
          let baselineFuelFlow := 2500 in
          let fuelEfficiency :=
            Math_max 0.7
              (1 - (CMAPSSSensorReading.fuelFlow latestReading - baselineFuelFlow)
                   / baselineFuelFlow) in
          let thermalEfficiency :=
            Math_max 0.75
              (1 - (CMAPSSSensorReading.EGT latestReading - baselineEGT)
                   / baselineEGT) in
          ret (Some {|
            PerformanceMetrics.engineId := engineId;
            PerformanceMetrics.fuelEfficiency := Number (toFixed fuelEfficiency 3);
            PerformanceMetrics.thermalEfficiency := Number (toFixed thermalEfficiency 3);
            PerformanceMetrics.thrustOutput :=
              Math_round (24000 * (CMAPSSEngine.healthScore engine / 100));
            PerformanceMetrics.operatingTemperature := CMAPSSSensorReading.EGT latestReading;
            PerformanceMetrics.vibrationLevel := CMAPSSSensorReading.vibration latestReading;
            PerformanceMetrics.pressureRatio := CMAPSSSensorReading.epr latestReading;
            PerformanceMetrics.fanSpeed := CMAPSSSensorReading.N1 latestReading;
            PerformanceMetrics.coreSpeed := CMAPSSSensorReading.N2 latestReading;
            PerformanceMetrics.dataset := CMAPSSEngine.dataset engine;
            PerformanceMetrics.operationalConditions :=
              CMAPSSEngine.operationalConditions engine;
            PerformanceMetrics.faultModes := CMAPSSEngine.faultModes engine
          |})
      end
  end.

(** The same body is exported by [cmapssData] and by [mockData]. *)
Definition getComponentHealthData (engineId : string)
  : M (list ComponentHealth.t) :=
  healthData <- lift (generateCMAPSSHealthData engineId) ;;
  fan <- (if 0.3 <? CMAPSSHealthData.faultProbability healthData
          then ret (Math_round (85 - CMAPSSHealthData.faultProbability healthData * 20))
          else r <- Math_random random ;; ret (Math_round (90 + r * 8))) ;;
  r_compressor <- Math_random random ;;
  r_combustor <- Math_random random ;;
  r_turbine <- Math_random random ;;
  r_nozzle <- Math_random random ;;
  ret [
    {| ComponentHealth.id := "fan";
       ComponentHealth.name := "Fan Assembly";
       ComponentHealth.health := fan;
       ComponentHealth.status := normal;
       ComponentHealth.lastInspection := "2024-01-15";
       ComponentHealth.nextInspection := "2024-07-15" |};
    {| ComponentHealth.id := "compressor";
       ComponentHealth.name := "High Pressure Compressor";
       ComponentHealth.health :=
         Math_round (CMAPSSHealthData.healthScore healthData - 5 + r_compressor * 10);
       ComponentHealth.status :=
         if includes (CMAPSSHealthData.criticalComponents healthData)
              "High Pressure Compressor"
         then warning else normal;
       ComponentHealth.lastInspection := "2024-02-01";
       ComponentHealth.nextInspection := "2024-08-01" |};
    {| ComponentHealth.id := "combustor";
       ComponentHealth.name := "Combustor";
       ComponentHealth.health :=
         Math_round (CMAPSSHealthData.healthScore healthData + r_combustor * 5);
       ComponentHealth.status := normal;
       ComponentHealth.lastInspection := "2024-01-20";
       ComponentHealth.nextInspection := "2024-07-20" |};
    {| ComponentHealth.id := "turbine";
       ComponentHealth.name := "Turbine Assembly";
       ComponentHealth.health :=
         Math_round (CMAPSSHealthData.healthScore healthData - 3 + r_turbine * 6);
       ComponentHealth.status :=
         if CMAPSSHealthData.healthScore healthData <? 75 then warning else normal;
       ComponentHealth.lastInspection := "2024-03-01";
       ComponentHealth.nextInspection := "2024-09-01" |};
    {| ComponentHealth.id := "nozzle";
       ComponentHealth.name := "Exhaust Nozzle";
       ComponentHealth.health := Math_round (92 + r_nozzle * 6);
       ComponentHealth.status := normal;
       ComponentHealth.lastInspection := "2024-02-15";
       ComponentHealth.nextInspection := "2024-08-15" |}
  ].

End Consumers.

(* ================================================================== *)
(** ** generateHistoricalData *)
(* ================================================================== *)

Module HistoricalPoint.
Record t : Type := {
  date : Z;           (* the instant rendered by [toLocaleDateString] *)
  healthScore : number;
  fuelEfficiency : number;
  temperature : number;
  vibration : number;
  cycles : Z
}.
End HistoricalPoint.

Section History.

Variable random : nat -> number.

(** [sensorData.map((reading, index) => ...)], from position [index] on.
    [new Date(reading.timestamp)] reads back the instant that
    [toISOString] rendered. *)
Fixpoint historyPoints (days : Z) (index : Z)
    (sensorData : list CMAPSSSensorReading.t) : M (list HistoricalPoint.t) :=
  match sensorData with
  | [] => ret []
  | reading :: rest =>
      r <- Math_random random ;;
      let point := {|
        HistoricalPoint.date := CMAPSSSensorReading.timestamp reading;
        HistoricalPoint.healthScore :=
          Math_round (95 - (of_Z index / of_Z days) * 10 + r * 5);
        HistoricalPoint.fuelEfficiency := CMAPSSSensorReading.fuelFlow reading / 3000;
        HistoricalPoint.temperature := CMAPSSSensorReading.EGT reading;
        HistoricalPoint.vibration := CMAPSSSensorReading.vibration reading;
        HistoricalPoint.cycles := CMAPSSSensorReading.cycle reading
      |} in
      points <- historyPoints days (index + 1)%Z rest ;;
      ret (point :: points)
  end.

(** Exported by [cmapssData]; [mockData] re-exports it unchanged. *)
Definition generateHistoricalData (engineId : string) (days : Z)
  : M (list HistoricalPoint.t) :=
  sensorData <- generateCMAPSSSensorData random engineId days ;;
  historyPoints days 0%Z sensorData.

End History.

(* ================================================================== *)
(** ** More of the runtime: the clock, dates from numbers and strings *)
(* ================================================================== *)

(** [Math.min(a, b)]: NaN if either argument is NaN; -0 is smaller than +0. *)
Definition Math_min (a b : number) : number :=
  if is_nan a || is_nan b then nan
  else if (a <? b)%float then a
  else if (b <? a)%float then b
  else if get_sign a then a else b.

(** [Math.ceil(x)]: the least integer that is not below [x]; between -1
    and 0 the result is -0. *)
Definition Math_ceil (x : number) : number :=
  match Prim2SF x with
  | S754_finite s m e =>
      if (0 <=? e)%Z then x
      else
        let q := (- (- cond_Zopp s (Zpos m) / 2 ^ (- e)))%Z in
        if (q =? 0)%Z then (-0)%float else of_Z q
  | _ => x
  end.

(** [ToBoolean] on a number: false for NaN, +0 and -0. *)
Definition truthy (x : number) : bool := negb (is_nan x || (x =? 0)).

(** [new Date(x)] for a number [x]: the time value is [x] truncated to an
    integer, and the date is invalid when [x] is not finite or is beyond
    8.64e15 ms in magnitude. *)
Definition Date_of_number (x : number) : Date :=
  match Prim2SF x with
  | S754_zero _ => Some 0%Z
  | S754_finite s m e =>
      Date_of_time (cond_Zopp s (if (0 <=? e)%Z then Zpos m * 2 ^ e
                                 else Zpos m / 2 ^ (- e)))%Z
  | _ => None
  end.

(** [d.getTime()]: the time value, NaN for an invalid date. *)
Definition getTime (d : Date) : number :=
  match d with
  | Some t => of_Z t
  | None => nan
  end.

(** The decimal digits of an integer, as a template string renders the
    integer-valued number that [Date.now()] returns. *)
Definition ToString_integer (z : Z) : string :=
  NilZero.string_of_int (Z.to_int z).

Definition digit_of (c : ascii) : option Z :=
  let n := nat_of_ascii c in
  if (48 <=? n)%nat && (n <=? 57)%nat then Some (Z.of_nat (n - 48)) else None.

Definition daysInMonth (y m : Z) : Z :=
  if (m =? 2)%Z then
    (if ((y mod 4 =? 0) && (negb (y mod 100 =? 0) || (y mod 400 =? 0)))%Z
     then 29 else 28)%Z
  else if ((m =? 4) || (m =? 6) || (m =? 9) || (m =? 11))%Z then 30%Z
  else 31%Z.

(** Days from 1970-01-01 to the given day of the proleptic Gregorian
    calendar. *)
Definition daysFromCivil (y m d : Z) : Z :=
  (let y' := if m <=? 2 then y - 1 else y in
   let era := y' / 400 in
   let yoe := y' - era * 400 in
   let mp := (m + 9) mod 12 in
   let doy := (153 * mp + 2) / 5 + d - 1 in
   let doe := yoe * 365 + yoe / 4 - yoe / 100 + doy in
   era * 146097 + doe - 719468)%Z.

(** [new Date(s)] on a date-only string "YYYY-MM-DD", read as midnight
    UTC; a month or day out of range gives an invalid date.  (For a day
    past the end of its month and for strings of another shape,
    implementations differ; the model reads them as invalid, and the
    registry holds none.) *)
Definition Date_parse (s : string) : Date :=
  match list_ascii_of_string s with
  | [y1; y2; y3; y4; "-"%char; m1; m2; "-"%char; d1; d2] =>
      match digit_of y1, digit_of y2, digit_of y3, digit_of y4,
            digit_of m1, digit_of m2, digit_of d1, digit_of d2 with
      | Some y1, Some y2, Some y3, Some y4, Some m1, Some m2, Some d1, Some d2 =>
          (let y := y1 * 1000 + y2 * 100 + y3 * 10 + y4 in
           let m := m1 * 10 + m2 in
           let d := d1 * 10 + d2 in
           if (1 <=? m) && (m <=? 12) && (1 <=? d) && (d <=? daysInMonth y m)
           then Date_of_time (daysFromCivil y m d * 86400000)
           else None)%Z
      | _, _, _, _, _, _, _, _ => None
      end
  | _ => None
  end.

(** Computations that also read the clock: the state is the number of
    calls of [Math.random] and of [Date.now] made so far. *)
Definition W (A : Type) : Type := nat * nat -> completion A * (nat * nat).

Definition retW {A} (a : A) : W A := fun st => (Normal a, st).

Definition bindW {A B} (c : W A) (k : A -> W B) : W B :=
  fun st => match c st with
            | (Normal a, st') => k a st'
            | (Throw e, st') => (Throw e, st')
            end.

Definition liftM {A} (c : M A) : W A :=
  fun st => let (r, i) := c (fst st) in (r, (i, snd st)).

Declare Scope clock_scope.
Delimit Scope clock_scope with clock.
Notation "x <- c ;; k" := (bindW c (fun x => k))
  (at level 100, c at next level, right associativity) : clock_scope.

(* ================================================================== *)
(** ** mockData *)
(* ================================================================== *)

(** The module [mockData] adapts the generator to the dashboard.  Its
    functions are kept in a module of the same name: [cmapssData] exports
    [mockEngines] and [generateSensorData] too, as other names of
    [cmapssEngines] and [generateCMAPSSSensorData]. *)

Module mockData.

(** The interface [EngineStatus], which extends [Engine]; the [status]
    field holds the registry's status unchanged. *)
Module EngineStatus.
Record t : Type := {
  engineId : string;
  model : string;
  serialNumber : string;
  flightHours : number;
  cycles : number;
  healthScore : number;
  operationalState : string;
  status : EngineStatus;
  lastMaintenance : Date;
  nextMaintenance : Date
}.
End EngineStatus.

Definition convertCMAPSSToEngine (cmapssEngine : CMAPSSEngine.t) : EngineStatus.t := {|
  EngineStatus.engineId := CMAPSSEngine.engineId cmapssEngine;
  EngineStatus.model := CMAPSSEngine.model cmapssEngine;
  EngineStatus.serialNumber := CMAPSSEngine.serialNumber cmapssEngine;
  EngineStatus.flightHours := CMAPSSEngine.flightHours cmapssEngine;
  EngineStatus.cycles := CMAPSSEngine.cycles cmapssEngine;
  EngineStatus.healthScore := CMAPSSEngine.healthScore cmapssEngine;
  EngineStatus.operationalState :=
    match CMAPSSEngine.status cmapssEngine with
    | operational => "operational"
    | maintenance_required => "maintenance"
    | degraded => "offline"
    end;
  EngineStatus.status := CMAPSSEngine.status cmapssEngine;
  EngineStatus.lastMaintenance := Date_parse (CMAPSSEngine.lastMaintenance cmapssEngine);
  EngineStatus.nextMaintenance := Date_parse (CMAPSSEngine.nextMaintenance cmapssEngine)
|}.

Definition mockEngines : list EngineStatus.t := map convertCMAPSSToEngine cmapssEngines.

Module SensorReading.
(** The interface [SensorReading] of [mockData]. *)
Record t : Type := {
  id : string;
  engineId : string;
  sensorType : string;
  value : number;
  unit : string;
  timestamp : Date;
  status : ComponentStatus
}.
End SensorReading.

Inductive Severity : Type := low | medium | high | severity_critical.

Module MaintenanceAlert.
Record t : Type := {
  id : string;
  engineId : string;
  component : string;
  severity : Severity;
  predictedFailureDate : Date;
  confidence : number;
  recommendation : string;
  estimatedCost : number
}.
End MaintenanceAlert.

(** The unit of the EGT reading as the source file spells it (the bytes
    C3 82 C2 B0 followed by "C"). *)
Definition unit_EGT : string :=
  String (ascii_of_nat 195) (String (ascii_of_nat 130)
    (String (ascii_of_nat 194) (String (ascii_of_nat 176) "C"))).

(** [x > hi ? 'critical' : x > lo ? 'warning' : 'normal'] *)
Definition threshold_status (x hi lo : number) : ComponentStatus :=
  if (hi <? x)%float then critical else if (lo <? x)%float then warning else normal.

Section MockData.

Variable random : nat -> number.

(** The values returned by successive calls of [Date.now()]. *)
Variable clock : nat -> Z.

Local Open Scope clock_scope.

Definition Date_now : W Z := fun st => (Normal (clock (snd st)), (fst st, S (snd st))).

(** [generateSensorData] of [mockData]: the first reading of a one-cycle
    series, split into five typed readings. *)
Definition generateSensorData (engineId : string) : W (list SensorReading.t) :=
  cmapssData <- liftM (generateCMAPSSSensorData random engineId 1) ;;
  match cmapssData with
  | [] => retW []
  | reading :: _ =>
      let timestamp := Some (CMAPSSSensorReading.timestamp reading) in
      now_egt <- Date_now ;;
      now_n1 <- Date_now ;;
      now_n2 <- Date_now ;;
      now_fuel <- Date_now ;;
      now_vibration <- Date_now ;;
      retW [
        {| SensorReading.id := engineId ++ "-egt-" ++ ToString_integer now_egt;
           SensorReading.engineId := engineId;
           SensorReading.sensorType := "EGT";
           SensorReading.value := CMAPSSSensorReading.EGT reading;
           SensorReading.unit := unit_EGT;
           SensorReading.timestamp := timestamp;
           SensorReading.status :=
             threshold_status (CMAPSSSensorReading.EGT reading) 700 650 |};
        {| SensorReading.id := engineId ++ "-n1-" ++ ToString_integer now_n1;
           SensorReading.engineId := engineId;
           SensorReading.sensorType := "N1_Speed";
           SensorReading.value := CMAPSSSensorReading.N1 reading;
           SensorReading.unit := "%";
           SensorReading.timestamp := timestamp;
           SensorReading.status :=
             threshold_status (CMAPSSSensorReading.N1 reading) 105 100 |};
        {| SensorReading.id := engineId ++ "-n2-" ++ ToString_integer now_n2;
           SensorReading.engineId := engineId;
           SensorReading.sensorType := "N2_Speed";
           SensorReading.value := CMAPSSSensorReading.N2 reading;
           SensorReading.unit := "%";
           SensorReading.timestamp := timestamp;
           SensorReading.status :=
             threshold_status (CMAPSSSensorReading.N2 reading) 110 105 |};
        {| SensorReading.id := engineId ++ "-fuel-" ++ ToString_integer now_fuel;
           SensorReading.engineId := engineId;
           SensorReading.sensorType := "Fuel_Flow";
           SensorReading.value := CMAPSSSensorReading.fuelFlow reading;
           SensorReading.unit := "kg/hr";
           SensorReading.timestamp := timestamp;
           SensorReading.status :=
             threshold_status (CMAPSSSensorReading.fuelFlow reading) 4000 3500 |};
        {| SensorReading.id := engineId ++ "-vibration-" ++ ToString_integer now_vibration;
           SensorReading.engineId := engineId;
           SensorReading.sensorType := "Vibration";
           SensorReading.value := CMAPSSSensorReading.vibration reading;
           SensorReading.unit := "mm/s";
           SensorReading.timestamp := timestamp;
           SensorReading.status :=
             threshold_status (CMAPSSSensorReading.vibration reading) 6 4 |}
      ]
  end.

(** The alert pushed for each critical component of an engine. *)
Fixpoint componentAlerts (engineId : string) (components : list string)
    (alerts : list MaintenanceAlert.t) : W (list MaintenanceAlert.t) :=
  match components with
  | [] => retW alerts
  | component :: rest =>
      now_id <- Date_now ;;
      now_date <- Date_now ;;
      r <- liftM (Math_random random) ;;
      componentAlerts engineId rest
        (alerts ++ [{|
           MaintenanceAlert.id :=
             "alert-" ++ engineId ++ "-" ++ component ++ "-" ++ ToString_integer now_id;
           MaintenanceAlert.engineId := engineId;
           MaintenanceAlert.component := component;
           MaintenanceAlert.severity := medium;
           MaintenanceAlert.predictedFailureDate :=
             Date_of_number (of_Z now_date + 30 * 24 * 60 * 60 * 1000);
           MaintenanceAlert.confidence := 0.75;
           MaintenanceAlert.recommendation :=
             "Inspect " ++ component ++ " during next maintenance window";
           MaintenanceAlert.estimatedCost := Math_round (5000 + r * 8000)
         |}])%list
  end.

(** The body of [mockEngines.forEach(engine => ...)]. *)
Definition engineAlerts (engine : EngineStatus.t) (alerts : list MaintenanceAlert.t)
  : W (list MaintenanceAlert.t) :=
  healthData <- liftM (lift (generateCMAPSSHealthData (EngineStatus.engineId engine))) ;;
  alerts <-
    (if (CMAPSSHealthData.healthScore healthData <? 75)%float then
       now_id <- Date_now ;;
       now_date <- Date_now ;;
       r <- liftM (Math_random random) ;;
       retW (alerts ++ [{|
         MaintenanceAlert.id :=
           "alert-" ++ EngineStatus.engineId engine ++ "-" ++ ToString_integer now_id;
         MaintenanceAlert.engineId := EngineStatus.engineId engine;
         MaintenanceAlert.component := "Overall Engine Health";
         MaintenanceAlert.severity :=
           if (CMAPSSHealthData.healthScore healthData <? 60)%float
           then severity_critical else high;
         MaintenanceAlert.predictedFailureDate :=
           Date_of_number
             (of_Z now_date
              + CMAPSSHealthData.remainingUsefulLife healthData * 24 * 60 * 60 * 1000);
         MaintenanceAlert.confidence := 0.85;
         MaintenanceAlert.recommendation :=
           CMAPSSHealthData.maintenanceRecommendation healthData;
         MaintenanceAlert.estimatedCost := Math_round (15000 + r * 10000)
       |}])%list
     else retW alerts) ;;
  componentAlerts (EngineStatus.engineId engine)
    (CMAPSSHealthData.criticalComponents healthData) alerts.

Fixpoint forEachEngine (engines : list EngineStatus.t) (alerts : list MaintenanceAlert.t)
  : W (list MaintenanceAlert.t) :=
  match engines with
  | [] => retW alerts
  | engine :: rest =>
      alerts <- engineAlerts engine alerts ;;
      forEachEngine rest alerts
  end.

Definition generateMaintenanceAlerts : W (list MaintenanceAlert.t) :=
  forEachEngine mockEngines [].

Definition generatePerformanceMetrics (engineId : string)
  : M (option PerformanceMetrics.t) :=
  getCMAPSSPerformanceMetrics random engineId.

Definition generateHistoricalData (engineId : string) (days : Z)
  : M (list HistoricalPoint.t) :=
  generateHistoricalData random engineId days.

End MockData.

End mockData.

(* ================================================================== *)
(** ** EngineHealthScore: the helpers of the card *)
(* ================================================================== *)

Definition getHealthColor (score : number) : string :=
  if (90 <=? score)%float then "text-green-600"
  else if (80 <=? score)%float then "text-yellow-600"
  else if (70 <=? score)%float then "text-orange-600"
  else "text-red-600".

Definition getHealthBadgeVariant (score : number) : string :=
  if (90 <=? score)%float then "default"
  else if (80 <=? score)%float then "secondary"
  else if (70 <=? score)%float then "outline"
  else "destructive".

(** The icon element of a state: the component and its [className]. *)
Definition getStatusIcon (state : string) : string * string :=
  if String.eqb state "operational" then ("CheckCircle", "h-4 w-4 text-green-600")
  else if String.eqb state "maintenance" then ("Clock", "h-4 w-4 text-yellow-600")
  else if String.eqb state "offline" then ("XCircle", "h-4 w-4 text-red-600")
  else ("AlertTriangle", "h-4 w-4 text-gray-600").

Definition getStatusColor (state : string) : string :=
  if String.eqb state "operational" then "text-green-600"
  else if String.eqb state "maintenance" then "text-yellow-600"
  else if String.eqb state "offline" then "text-red-600"
  else "text-gray-600".

(** [daysUntilMaintenance]; [now] is [new Date().getTime()]. *)
Definition daysUntilMaintenance (now : number) (engine : mockData.EngineStatus.t)
  : number :=
  Math_ceil ((getTime (mockData.EngineStatus.nextMaintenance engine) - now)
             / (1000 * 60 * 60 * 24)).

(** The percentage in the [width] style of the elapsed part of the
    maintenance timeline; [now] is [new Date().getTime()]. *)
Definition timelineWidth (now : number) (engine : mockData.EngineStatus.t) : number :=
  Math_min 100
    (Math_max 0
       ((now - getTime (mockData.EngineStatus.lastMaintenance engine))
        / (getTime (mockData.EngineStatus.nextMaintenance engine)
           - getTime (mockData.EngineStatus.lastMaintenance engine)) * 100)).

(* ================================================================== *)
(** ** Engine3DVisualization: loading the data of the viewer *)
(* ================================================================== *)

(** The four state variables of [RealisticTurbofanEngine]. *)
Module ViewerState.
Record t : Type := {
  sensorData : option CMAPSSSensorReading.t;
  healthData : option CMAPSSHealthData.t;
  isLoading : bool;
  error : option string
}.
End ViewerState.

(** The state before the first load. *)
Definition initialViewerState : ViewerState.t := {|
  ViewerState.sensorData := None;
  ViewerState.healthData := None;
  ViewerState.isLoading := true;
  ViewerState.error := None
|}.

Section Viewer.

Variable random : nat -> number.

(** [loadData]: both calls are made before any state is set, and the
    [catch] clause sets the error message and leaves the data as it was. *)
Definition loadData (engineId : string) (st : ViewerState.t)
  : nat -> ViewerState.t * nat :=
  fun i =>
    match (sensors <- generateCMAPSSSensorData random engineId 1%Z ;;
           health <- lift (generateCMAPSSHealthData engineId) ;;
           ret (sensors, health)) i with
    | (Normal (sensors, health), j) =>
        ({| ViewerState.sensorData := hd_error sensors;
            ViewerState.healthData := Some health;
            ViewerState.isLoading := false;
            ViewerState.error := None |}, j)
    | (Throw _, j) =>
        ({| ViewerState.sensorData := ViewerState.sensorData st;
            ViewerState.healthData := ViewerState.healthData st;
            ViewerState.isLoading := false;
            ViewerState.error := Some "Failed to load engine data" |}, j)
    end.

(** The effect run when the viewer is given an engine id: an empty id is
    reported without loading anything. *)
Definition loadEffect (engineId : string) (st : ViewerState.t)
  : nat -> ViewerState.t * nat :=
  fun i =>
    if String.eqb engineId "" then
      ({| ViewerState.sensorData := ViewerState.sensorData st;
          ViewerState.healthData := ViewerState.healthData st;
          ViewerState.isLoading := false;
          ViewerState.error := Some "No engine ID provided" |}, i)
    else loadData engineId st i.

End Viewer.

(** The conditions on the loaded reading under which the scene is drawn
    differently. *)

(** [sensorData && sensorData.EGT > 600]: the combustor liner glows. *)
Definition combustorGlows (sensorData : option CMAPSSSensorReading.t) : bool :=
  match sensorData with
  | Some reading => 600 <? CMAPSSSensorReading.EGT reading
  | None => false
  end.

(** [sensorData && sensorData.T30 > 1300 && stage < 2]: the blades of a
    turbine stage get the thermal coating effect. *)
Definition bladeGlows (sensorData : option CMAPSSSensorReading.t) (stage : Z) : bool :=
  match sensorData with
  | Some reading => (1300 <? CMAPSSSensorReading.T30 reading) && (stage <? 2)%Z
  | None => false
  end.

(** [sensorData && sensorData.EGT > 700 ? ' (fire)' : '']: the EGT label
    carries the fire mark. *)
Definition egtFireMark (sensorData : option CMAPSSSensorReading.t) : bool :=
  match sensorData with
  | Some reading => 700 <? CMAPSSSensorReading.EGT reading
  | None => false
  end.

(** [fanRef.current && sensorData && sensorData.N1]: the fan is turned in
    a frame; [mounted] tells whether the ref holds the group. *)
Definition fanTurns (mounted : bool) (sensorData : option CMAPSSSensorReading.t) : bool :=
  mounted &&
  match sensorData with
  | Some reading => truthy (CMAPSSSensorReading.N1 reading)
  | None => false
  end.

(** [compressorRef.current && sensorData && sensorData.N2], and the same
    for the turbine. *)
Definition coreTurns (mounted : bool) (sensorData : option CMAPSSSensorReading.t) : bool :=
  mounted &&
  match sensorData with
  | Some reading => truthy (CMAPSSSensorReading.N2 reading)
  | None => false
  end.

(* ================================================================== *)
(** ** Vocabulary of the statements *)
(* ================================================================== *)

(** The last cycle whose timestamp (one day per cycle after 2024-01-01)
    is still a valid [Date]: 1704067200000 + 99980277 * 86400000 is
    exactly 8.64e15. *)
Definition lastDatedCycle : Z := 99980277.

(** The cycle numbers 1, 2, ..., n. *)
Definition cyclesUpTo (n : nat) : list Z := map Z.of_nat (seq 1 n).

(** A random source used to run the generator on concrete inputs: every
    call of [Math.random] returns 0.5, so every noise term is zero. *)
Definition midpoint : nat -> number := fun _ => 0.5.

(** The random source honours the contract of [Math.random]. *)
Definition unit_interval (random : nat -> number) : Prop :=
  forall i, (0 <=? random i) = true /\ (random i <? 1) = true.

(** The EGT channel is the rounding of the conversion of the unrounded
    T30, of which the T30 channel is another rounding. *)
Definition EGT_from_raw_T30 (r : CMAPSSSensorReading.t) : Prop :=
  exists T30 : number,
    CMAPSSSensorReading.T30 r = Number (toFixed T30 2) /\
    CMAPSSSensorReading.EGT r = Number (toFixed ((T30 - 459.67) * 5 / 9) 1).

(** The epr channel is the rounding of the quotient of the unrounded
    pressures, of which the P24 and P2 channels are other roundings. *)
Definition epr_from_raw_pressures (r : CMAPSSSensorReading.t) : Prop :=
  exists P24 P2 : number,
    CMAPSSSensorReading.P24 r = Number (toFixed P24 2) /\
    CMAPSSSensorReading.P2 r = Number (toFixed P2 2) /\
    CMAPSSSensorReading.epr r = Number (toFixed (P24 / P2) 3).

Definition urgentRecommendation : string :=
  "URGENT: Schedule immediate maintenance - engine approaching critical degradation levels".

(** *** Binary64 values seen through their specification

    [Prim2SF] maps a number to its sign, mantissa and exponent; the
    predicates below are stated on that view. *)

Section Binary64Vocabulary.
Local Open Scope Z_scope.

(** The exponent the binary64 format gives a value of weight [e], that
    is, a value in [2^(e-1), 2^e). *)
Definition fexp64 (e : Z) : Z := Z.max (e - 53) (-1074).

(** The last step of the rounding function: the value with mantissa [m]
    and exponent [e], or an infinity when the exponent overflows. *)
Definition rounded (s : bool) (m e : Z) : spec_float :=
  match m with
  | Z0 => S754_zero s
  | Zpos q => if e <=? 971 then S754_finite s q e else S754_infinity s
  | Zneg _ => S754_nan
  end.

Definition SFis_nan (x : spec_float) : bool :=
  match x with S754_nan => true | _ => false end.

(** [SFbelow k x]: [x] is finite and [|x| < 2^k]. *)
Definition SFbelow (k : Z) (x : spec_float) : bool :=
  match x with
  | S754_zero _ => true
  | S754_finite _ m e => Zpos (digits2_pos m) + e <=? k
  | _ => false
  end.

(** [SFabove k s x]: [x] has sign [s] and [2^(k-1) <= |x|], possibly infinite. *)
Definition SFabove (k : Z) (s : bool) (x : spec_float) : bool :=
  match x with
  | S754_infinity s' => Bool.eqb s s'
  | S754_finite s' m e => Bool.eqb s s' && (k <=? Zpos (digits2_pos m) + e)
  | _ => false
  end.

(** [x] is a zero or a finite value. *)
Definition SFfinite (x : spec_float) : bool :=
  match x with S754_zero _ | S754_finite _ _ _ => true | _ => false end.

(** [x] is a finite value other than zero. *)
Definition SFnonzero (x : spec_float) : bool :=
  match x with S754_finite _ _ _ => true | _ => false end.

End Binary64Vocabulary.

(** [below k x]: [x] is a finite number with [|x| < 2^k]. *)
Definition below (k : Z) (x : number) : bool := SFbelow k (Prim2SF x).

(** [x] is finite and not zero. *)
Definition nonzero (x : number) : bool := SFnonzero (Prim2SF x).

(** What the noise analysis needs of the degradation terms of a cycle
    with health factor [hf] and of the temperature variation [tv]: the
    terms are finite and small, and [tv] is a non-zero finite number. *)
Definition steady (hf tv : number) : bool :=
  below 12 ((1 - hf) * 30) && below 12 ((1 - hf) * 60)
  && below 12 ((1 - hf) * 0.005) && below 12 tv && nonzero tv.

(** The health factor the generator computes for a cycle of an engine. *)
Definition healthFactorAt (engine : CMAPSSEngine.t) (cycle : Z) : number :=
  Math_max 0.6 (1 - of_Z cycle / (CMAPSSEngine.cycles engine * 1.2)).


(** *** Binary64 values as rational numbers *)

(** The rational [m * 2^e]. *)
Definition dyadic (m e : Z) : Q := (inject_Z m * 2 ^ e)%Q.

(** The value of a finite binary64 datum; zero for the others. *)
Definition SFval (x : spec_float) : Q :=
  match x with
  | S754_finite s m e => dyadic (cond_Zopp s (Zpos m)) e
  | _ => 0%Q
  end.

(** A mantissa and exponent in the form the format prescribes. *)
Definition canonical (m e : Z) : Prop :=
  (0 < m)%Z /\ fexp64 (Zdigits2 m + e) = e.

(** [brackets v r]: the binary64 datum [r] is a rounding of the rational
    [v] that no binary64 value separates from [v]: every binary64 value
    at most [v] is at most [r], and every one at least [v] is at least
    [r].  Rounding to nearest is one such rounding. *)
Definition brackets (v : Q) (r : spec_float) : Prop :=
  SFis_nan r = false /\ valid_binary r = true /\
  forall g : spec_float,
    valid_binary g = true -> SFfinite g = true ->
    ((SFval g <= v)%Q -> SFleb g r = true) /\
    ((v <= SFval g)%Q -> SFleb r g = true).

(** *** Intervals of numbers *)

(** The rational value of a finite number. *)
Definition value (x : float) : Q := SFval (Prim2SF x).

(** [x] is a zero or a finite value. *)
Definition finite (x : float) : bool := SFfinite (Prim2SF x).

(** [within lo hi x]: the number [x] lies between [lo] and [hi]. *)
Definition within (lo hi x : float) : bool := ((lo <=? x) && (x <=? hi))%float.

(** The four numbers are finite. *)
Definition finite4 (a b c d : float) : bool :=
  finite a && finite b && finite c && finite d.

(** The checks on the end points of two intervals [a, b] and [c, d]
    that make [l, h] an interval for the sum, the difference, the
    product and the quotient. *)
Definition add_ok (a b c d l h : float) : bool :=
  finite4 a b c d && finite l && finite h
  && Qle_bool (value l) (value a + value c)
  && Qle_bool (value b + value d) (value h).

Definition sub_ok (a b c d l h : float) : bool :=
  finite4 a b c d && finite l && finite h
  && Qle_bool (value l) (value a - value d)
  && Qle_bool (value b - value c) (value h).

Definition mul_ok (a b c d l h : float) : bool :=
  finite4 a b c d && finite l && finite h
  && Qle_bool (value l) (value a * value c) && Qle_bool (value a * value c) (value h)
  && Qle_bool (value l) (value a * value d) && Qle_bool (value a * value d) (value h)
  && Qle_bool (value l) (value b * value c) && Qle_bool (value b * value c) (value h)
  && Qle_bool (value l) (value b * value d) && Qle_bool (value b * value d) (value h).

Definition div_ok (a b c d l h : float) : bool :=
  finite4 a b c d && finite l && finite h
  && negb (Qle_bool (value c) 0)
  && Qle_bool (value l * value c) (value a) && Qle_bool (value l * value d) (value a)
  && Qle_bool (value b) (value h * value c) && Qle_bool (value b) (value h * value d).

(** The checks that make [l, h] an interval for [Math.max(c, x)] and
    for [Math.abs(x)] when [x] is in [a, b]. *)
Definition max_ok (c a b l h : float) : bool :=
  finite c && finite a && finite b && finite l && finite h
  && (Qle_bool (value l) (value c) || Qle_bool (value l) (value a))
  && Qle_bool (value c) (value h) && Qle_bool (value b) (value h).

Definition abs_ok (a b l h : float) : bool :=
  finite a && finite b && finite l && finite h
  && Qle_bool (value l) 0
  && Qle_bool (- value h) (value a) && Qle_bool (value b) (value h).

(** The integers [L .. H] hold every rounding to the nearest integer of
    a number of [a, b]. *)
Definition round_ok (a b : float) (L H : Z) : bool :=
  finite a && finite b
  && (- 2 ^ 53 <? L)%Z && (L <=? H)%Z && (H <? 2 ^ 53)%Z
  && Qle_bool (inject_Z L - (1 # 2)) (value a)
  && negb (Qle_bool (inject_Z H + (1 # 2)) (value b)).

(** [l, h] holds every rounding to [f] decimals of a number of [a, b]. *)
Definition fixed_ok (f : Z) (a b l h : float) : bool :=
  finite a && finite b && finite l && finite h
  && (0 <=? f)%Z
  && Qle_bool (value l) (value a - 1 / (2 * inject_Z (10 ^ f)))
  && Qle_bool (value b + 1 / (2 * inject_Z (10 ^ f))) (value h).

(** The decimals [L / 10^f .. H / 10^f] hold every rounding to [f]
    decimals of a positive number of [a, b]. *)
Definition decimal_ok (f : Z) (a b : float) (L H : Z) : bool :=
  finite a && finite b && (0 <=? f)%Z && (0 <? L)%Z
  && negb (Qle_bool (value a) 0)
  && negb (Qle_bool (value 1e21) (value b))
  && Qle_bool (inject_Z L - (1 # 2)) (value a * inject_Z (10 ^ f))
  && negb (Qle_bool (inject_Z H + (1 # 2)) (value b * inject_Z (10 ^ f))).

(** The smaller and the larger of two numbers, neither of them NaN. *)
Definition fmin (x y : float) : float := if (x <? y)%float then x else y.
Definition fmax (x y : float) : float := if (x <? y)%float then y else x.

(** Candidate end points for an interval: the number [m] itself when it
    is on the right side of all the values [vs], the next number
    otherwise. *)
Definition lo_of (m : float) (vs : list Q) : float :=
  if forallb (Qle_bool (value m)) vs then m else next_down m.
Definition hi_of (m : float) (vs : list Q) : float :=
  if forallb (fun v => Qle_bool v (value m)) vs then m else next_up m.

(** Candidate end points for a sum and a difference. *)
Definition add_lo (a c : float) : float := lo_of (a + c) [(value a + value c)%Q].
Definition add_hi (b d : float) : float := hi_of (b + d) [(value b + value d)%Q].
Definition sub_lo (a d : float) : float := lo_of (a - d) [(value a - value d)%Q].
Definition sub_hi (b c : float) : float := hi_of (b - c) [(value b - value c)%Q].

(** The values of [op] at the corners of the box of [a, b] and [c, d],
    and candidate end points for a product and a quotient. *)
Definition corners (op : Q -> Q -> Q) (a b c d : float) : list Q :=
  [op (value a) (value c); op (value a) (value d);
   op (value b) (value c); op (value b) (value d)].

Definition mul_lo (a b c d : float) : float :=
  lo_of (fmin (fmin (a * c) (a * d)) (fmin (b * c) (b * d))) (corners Qmult a b c d).
Definition mul_hi (a b c d : float) : float :=
  hi_of (fmax (fmax (a * c) (a * d)) (fmax (b * c) (b * d))) (corners Qmult a b c d).
Definition div_lo (a b c d : float) : float :=
  lo_of (fmin (fmin (a / c) (a / d)) (fmin (b / c) (b / d))) (corners Qdiv a b c d).
Definition div_hi (a b c d : float) : float :=
  hi_of (fmax (fmax (a / c) (a / d)) (fmax (b / c) (b / d))) (corners Qdiv a b c d).

(** Half a unit of the [f]-th decimal, and candidate end points for a
    rounding to [f] decimals. *)
Definition half_unit (f : Z) : Q := 1 / (2 * inject_Z (10 ^ f)).
Definition fixed_lo (f : Z) (a : float) : float :=
  lo_of (a - 0.5 / of_Z (10 ^ f)) [(value a - half_unit f)%Q].
Definition fixed_hi (f : Z) (b : float) : float :=
  hi_of (b + 0.5 / of_Z (10 ^ f)) [(value b + half_unit f)%Q].

(** The integers nearest to the end points, ties upwards. *)
Definition round_lo (a : float) : Z := Qfloor (value a + (1 # 2)).
Definition round_hi (b : float) : Z := Qfloor (value b + (1 # 2)).

(** *** Ranges of the generated data *)

(** The gauges of a reading are in the range the registry's engines can
    produce. *)
Definition nominal (r : CMAPSSSensorReading.t) : Prop :=
  within 1331 1381 (CMAPSSSensorReading.T30 r) = true /\
  within 484 512 (CMAPSSSensorReading.EGT r) = true /\
  within 59 100 (CMAPSSSensorReading.N1 r) = true /\
  within 58 100 (CMAPSSSensorReading.N2 r) = true /\
  (CMAPSSSensorReading.fuelFlow r = 4 \/ CMAPSSSensorReading.fuelFlow r = 5) /\
  within 0 0.98 (CMAPSSSensorReading.vibration r) = true.

(** A point of the history is in the range that nominal readings and
    draws in [0, 1) give. *)
Definition plausible (p : HistoricalPoint.t) : Prop :=
  within 85 100 (HistoricalPoint.healthScore p) = true /\
  (HistoricalPoint.fuelEfficiency p = 4 / 3000 \/
   HistoricalPoint.fuelEfficiency p = 5 / 3000) /\
  within 484 512 (HistoricalPoint.temperature p) = true /\
  within 0 0.98 (HistoricalPoint.vibration p) = true.

(** *** The alerts *)

(** The severities one engine contributes, read off its assessment. *)
Definition severitiesOf (h : CMAPSSHealthData.t) : list mockData.Severity :=
  ((if CMAPSSHealthData.healthScore h <? 75
    then [if CMAPSSHealthData.healthScore h <? 60
          then mockData.severity_critical else mockData.high]
    else [])
   ++ repeat mockData.medium (List.length (CMAPSSHealthData.criticalComponents h)))%list.

(** Every reading of the clock is a time value. *)
Definition time_values (clock : nat -> Z) : Prop :=
  forall k, (Z.abs (clock k) <= 8640000000000000)%Z.

(** What an alert holds, by its severity: a component alert (medium)
    has confidence 0.75, a cost between 5000 and 13000 and a failure date
    30 days after a reading of the clock; an alert on the overall health
    has confidence 0.85, a cost between 15000 and 25000 and a failure
    date as many days after a reading of the clock as the assessment of
    its engine gives cycles of remaining useful life.  The date is
    invalid when that instant is not a time value. *)
Definition alert_sound (clock : nat -> Z) (a : mockData.MaintenanceAlert.t) : Prop :=
  match mockData.MaintenanceAlert.severity a with
  | mockData.medium =>
      mockData.MaintenanceAlert.confidence a = 0.75 /\
      within 5000 13000 (mockData.MaintenanceAlert.estimatedCost a) = true /\
      exists k,
        mockData.MaintenanceAlert.predictedFailureDate a
        = Date_of_time (clock k + 30 * 86400000)
  | _ =>
      mockData.MaintenanceAlert.confidence a = 0.85 /\
      within 15000 25000 (mockData.MaintenanceAlert.estimatedCost a) = true /\
      exists k h d,
        generateCMAPSSHealthData (mockData.MaintenanceAlert.engineId a) = Normal h /\
        CMAPSSHealthData.remainingUsefulLife h = of_Z d /\
        mockData.MaintenanceAlert.predictedFailureDate a
        = Date_of_time (clock k + d * 86400000)
  end.

(* ================================================================== *)
(** ** Binary64 rounding facts *)
(* ================================================================== *)

(** Facts about [binary_round_aux], the rounding function behind every
    binary64 operation of the specification: what the digit count and the
    exponent of its result are, when the result is a valid binary64
    value, and that it is never NaN.  From these: magnitude bounds for
    sums, differences and products, a lower bound and validity for the
    rounded quotient of two integers, and the absence of NaN. *)

Section Binary64Facts.
Local Open Scope Z_scope.


Lemma fexp64_eq (e : Z) : SpecFloat.fexp prec emax e = fexp64 e.
Proof. reflexivity. Qed.

(** *** Digit counts *)

Lemma digits2_pos_size (p : positive) : digits2_pos p = Pos.size p.
Proof. induction p as [p IH | p IH |]; simpl; rewrite ?IH; reflexivity. Qed.

Lemma Zdigits2_log2 (m : Z) : 0 < m -> Zdigits2 m = Z.log2 m + 1.
Proof.
  destruct m as [| p | p]; intros H; try lia.
  simpl Zdigits2. rewrite digits2_pos_size.
  destruct p as [p | p |]; simpl; lia.
Qed.

Lemma Zdigits2_pos (m : Z) : 0 < m -> 1 <= Zdigits2 m.
Proof.
  intros H. rewrite Zdigits2_log2 by assumption.
  pose proof (Z.log2_nonneg m). lia.
Qed.

Lemma Zdigits2_le (a b : Z) : 0 < a -> a <= b -> Zdigits2 a <= Zdigits2 b.
Proof.
  intros Ha Hab. rewrite !Zdigits2_log2 by lia.
  pose proof (Z.log2_le_mono a b Hab). lia.
Qed.

Lemma Zdigits2_succ (a : Z) : 0 < a -> Zdigits2 (a + 1) <= Zdigits2 a + 1.
Proof.
  intros Ha. rewrite !Zdigits2_log2 by lia.
  pose proof (Z.log2_succ_le a). unfold Z.succ in *. lia.
Qed.

Lemma Zdigits2_lt_pow2 (m k : Z) : 0 < m -> m < 2 ^ k -> Zdigits2 m <= k.
Proof.
  intros Hm Hk. rewrite Zdigits2_log2 by assumption.
  apply Z.log2_lt_pow2 in Hk; lia.
Qed.

Lemma Zdigits2_ge_pow2 (m k : Z) : 0 <= k -> 2 ^ k <= m -> k + 1 <= Zdigits2 m.
Proof.
  intros Hk Hm.
  assert (0 < m) by (pose proof (Z.pow_pos_nonneg 2 k); lia).
  rewrite Zdigits2_log2 by assumption.
  apply Z.log2_le_pow2 in Hm; lia.
Qed.

Lemma Zdigits2_bound (m : Z) : 0 < m -> 2 ^ (Zdigits2 m - 1) <= m < 2 ^ Zdigits2 m.
Proof.
  intros Hm. rewrite Zdigits2_log2 by assumption.
  replace (Z.log2 m + 1 - 1) with (Z.log2 m) by lia.
  pose proof (Z.log2_spec m Hm). unfold Z.succ in *. lia.
Qed.

Lemma Zdigits2_shift (m n : Z) :
  0 < m -> 0 <= n -> 0 < m / 2 ^ n -> Zdigits2 (m / 2 ^ n) = Zdigits2 m - n.
Proof.
  intros Hm Hn Hq.
  rewrite !Zdigits2_log2 by assumption.
  rewrite <- Z.shiftr_div_pow2 by assumption.
  rewrite Z.log2_shiftr by assumption.
  assert (n <= Z.log2 m).
  { destruct (Z.le_gt_cases n (Z.log2 m)) as [Hle | Hgt]; [assumption |].
    assert (m < 2 ^ n) by (apply Z.log2_lt_pow2; lia).
    rewrite Z.div_small in Hq by lia. lia. }
  lia.
Qed.

Lemma Zdigits2_shift_zero (m n : Z) :
  0 < m -> 0 <= n -> m / 2 ^ n = 0 -> Zdigits2 m <= n.
Proof.
  intros Hm Hn Hq.
  apply Zdigits2_lt_pow2; [assumption |].
  pose proof (Z.pow_pos_nonneg 2 n).
  apply Z.div_small_iff in Hq; lia.
Qed.

(** *** Shifting and rounding a mantissa *)

Lemma shr_1_m (mrs : shr_record) :
  0 <= shr_m mrs -> shr_m (shr_1 mrs) = shr_m mrs / 2.
Proof.
  destruct mrs as [m r s]. cbn [shr_m]. intros Hm.
  rewrite <- Z.div2_div.
  destruct m as [| p | p]; [reflexivity | | lia].
  destruct p; reflexivity.
Qed.

Lemma iter_shr_1_m (p : positive) :
  forall mrs, 0 <= shr_m mrs ->
    shr_m (iter_pos shr_1 p mrs) = shr_m mrs / 2 ^ Zpos p.
Proof.
  induction p as [p IH | p IH |]; intros mrs Hm; cbn [iter_pos].
  - assert (H1 : 0 <= shr_m (shr_1 mrs)).
    { rewrite shr_1_m by assumption. apply Z.div_pos; lia. }
    assert (H2 : 0 <= shr_m (iter_pos shr_1 p (shr_1 mrs))).
    { rewrite IH by assumption. apply Z.div_pos; [assumption |].
      apply Z.pow_pos_nonneg; lia. }
    rewrite IH by assumption. rewrite IH by assumption.
    rewrite shr_1_m by assumption.
    pose proof (Z.pow_pos_nonneg 2 (Zpos p)).
    rewrite !Z.div_div by lia.
    f_equal. change (Zpos p~1) with (2 * Zpos p + 1).
    replace (2 * Zpos p + 1) with (1 + Zpos p + Zpos p) by lia.
    rewrite !Z.pow_add_r by lia. change (2 ^ 1) with 2. ring.
  - assert (H2 : 0 <= shr_m (iter_pos shr_1 p mrs)).
    { rewrite IH by assumption. apply Z.div_pos; [assumption |].
      apply Z.pow_pos_nonneg; lia. }
    rewrite IH by assumption. rewrite IH by assumption.
    pose proof (Z.pow_pos_nonneg 2 (Zpos p)).
    rewrite !Z.div_div by lia.
    f_equal. change (Zpos p~0) with (2 * Zpos p).
    replace (2 * Zpos p) with (Zpos p + Zpos p) by lia.
    rewrite Z.pow_add_r by lia. ring.
  - rewrite shr_1_m by assumption. reflexivity.
Qed.

Lemma shr_record_of_loc_m (m : Z) (l : location) : shr_m (shr_record_of_loc m l) = m.
Proof. destruct l as [| []]; reflexivity. Qed.

Lemma shr_fexp_spec (m e : Z) (l : location) :
  0 <= m ->
  let n := Z.max 0 (fexp64 (Zdigits2 m + e) - e) in
  shr_m (fst (shr_fexp prec emax m e l)) = m / 2 ^ n /\
  snd (shr_fexp prec emax m e l) = e + n.
Proof.
  intros Hm n. unfold shr_fexp, shr. rewrite fexp64_eq.
  subst n. destruct (fexp64 (Zdigits2 m + e) - e) as [| k | k] eqn:Hk; cbn [fst snd].
  - rewrite shr_record_of_loc_m. rewrite Z.max_id. rewrite Z.pow_0_r, Z.div_1_r. lia.
  - rewrite iter_shr_1_m by (rewrite shr_record_of_loc_m; assumption).
    rewrite shr_record_of_loc_m. rewrite Z.max_r by lia. split; reflexivity.
  - rewrite shr_record_of_loc_m. rewrite Z.max_l by lia.
    rewrite Z.pow_0_r, Z.div_1_r. lia.
Qed.

Lemma round_nearest_even_bounds (m : Z) (l : location) :
  m <= round_nearest_even m l <= m + 1.
Proof.
  destruct l as [| []]; cbn [round_nearest_even]; try lia.
  destruct (Z.even m); lia.
Qed.

Lemma div_pow2_pos (m n : Z) :
  0 < m -> 0 <= n -> n <= Zdigits2 m - 1 -> 0 < m / 2 ^ n.
Proof.
  intros Hm Hn Hd.
  pose proof (Zdigits2_bound m Hm) as [Hlo _].
  assert (2 ^ n <= m).
  { apply Z.le_trans with (2 ^ (Zdigits2 m - 1)); [| assumption].
    apply Z.pow_le_mono_r; lia. }
  pose proof (Z.pow_pos_nonneg 2 n).
  apply Z.div_str_pos. lia.
Qed.

(** The two shifts and the rounding step of [binary_round_aux], on a
    mantissa [mx > 0] of weight [D = digits mx + ex]. *)
Lemma round_shift_facts (mx ex m1 : Z) :
  0 < mx ->
  let D := Zdigits2 mx + ex in
  let n1 := Z.max 0 (fexp64 D - ex) in
  let m' := mx / 2 ^ n1 in
  let e' := ex + n1 in
  m' <= m1 <= m' + 1 ->
  let n2 := Z.max 0 (fexp64 (Zdigits2 m1 + e') - e') in
  let m := m1 / 2 ^ n2 in
  let e := e' + n2 in
  0 <= m /\
  (0 < m ->
   Zdigits2 m + e <= Z.max (D + 1) (-1073) /\
   e <= Z.max ex (fexp64 (Z.max (D + 1) (-1073)))) /\
  (ex <= fexp64 D ->
   (0 < m -> fexp64 (Zdigits2 m + e) = e /\ D <= Zdigits2 m + e) /\
   (-1073 <= D -> 0 < m)).
Proof.
  intros Hmx D n1 m' e' Hm1 n2 m e.
  assert (Hn1 : 0 <= n1) by (subst n1; lia).
  assert (Hn2 : 0 <= n2) by (subst n2; lia).
  assert (Hp1 : 0 < 2 ^ n1) by (apply Z.pow_pos_nonneg; lia).
  assert (Hp2 : 0 < 2 ^ n2) by (apply Z.pow_pos_nonneg; lia).
  assert (Hm' : 0 <= m') by (subst m'; apply Z.div_pos; lia).
  assert (Hm : 0 <= m) by (subst m; apply Z.div_pos; lia).
  pose proof (Zdigits2_pos mx Hmx) as Hdx.
  (* what a non-zero result says about the intermediate values *)
  assert (Hpos : 0 < m ->
                 0 < m1 /\ Zdigits2 m + e = Zdigits2 m1 + e' /\
                 ((0 < m' /\ Zdigits2 m' + e' = D /\
                   Zdigits2 m' <= Zdigits2 m1 <= Zdigits2 m' + 1) \/
                  (m' = 0 /\ Zdigits2 m1 = 1 /\ e' = -1074 /\ D <= -1074))).
  { intros Hmpos.
    assert (H1 : 0 < m1).
    { destruct (Z.lt_trichotomy 0 m1) as [H | [H | H]]; [assumption | | lia].
      subst m. rewrite <- H in Hmpos. rewrite Z.div_0_l in Hmpos; lia. }
    split; [assumption |]. split.
    { subst m e. rewrite Zdigits2_shift by assumption. lia. }
    destruct (Z.eq_dec m' 0) as [H0 | H0].
    - right. assert (m1 = 1) by lia. subst m1.
      pose proof (Zdigits2_shift_zero mx n1 Hmx Hn1 H0) as Hz.
      split; [assumption |]. split; [reflexivity |].
      subst e' n1 D. unfold fexp64 in *. lia.
    - left. assert (Hm'pos : 0 < m') by lia.
      split; [assumption |]. split.
      + subst m' e'. rewrite Zdigits2_shift by assumption. subst D. lia.
      + split.
        * apply Zdigits2_le; lia.
        * apply Z.le_trans with (Zdigits2 (m' + 1)).
          -- apply Zdigits2_le; lia.
          -- apply Zdigits2_succ. assumption. }
  split; [assumption |]. split.
  - intros Hmpos. destruct (Hpos Hmpos) as (H1 & HM & Hcase).
    rewrite HM. subst e n2. unfold fexp64 in *.
    destruct Hcase as [(_ & HD & Hd) | (_ & Hd & He' & HD)]; subst e' n1; lia.
  - intros Hex. split.
    + intros Hmpos. destruct (Hpos Hmpos) as (H1 & HM & Hcase).
      rewrite HM. subst e n2. unfold fexp64 in *.
      destruct Hcase as [(_ & HD & Hd) | (_ & Hd & He' & HD)]; subst e' n1; lia.
    + intros HD.
      assert (Hm'pos : 0 < m').
      { subst m'. apply div_pow2_pos; [assumption | assumption |].
        subst n1 D. unfold fexp64 in *. lia. }
      assert (H1 : 0 < m1) by lia.
      assert (Hd1 : Zdigits2 m' <= Zdigits2 m1) by (apply Zdigits2_le; lia).
      assert (HD' : Zdigits2 m' + e' = D).
      { subst m' e'. rewrite Zdigits2_shift by assumption. subst D. lia. }
      pose proof (Zdigits2_pos m1 H1).
      subst m. apply div_pow2_pos; [assumption | assumption |].
      subst n2. unfold fexp64 in *. lia.
Qed.


(** [binary_round_aux] shifts to the format's exponent, rounds the
    mantissa to [m1], and shifts once more if the rounding carried. *)
Lemma binary_round_aux_rounded (s : bool) (mx ex : Z) (l : location) :
  0 <= mx ->
  exists m1,
    let D := Zdigits2 mx + ex in
    let n1 := Z.max 0 (fexp64 D - ex) in
    let m' := mx / 2 ^ n1 in
    let e' := ex + n1 in
    let n2 := Z.max 0 (fexp64 (Zdigits2 m1 + e') - e') in
    m' <= m1 <= m' + 1 /\
    binary_round_aux prec emax s mx ex l = rounded s (m1 / 2 ^ n2) (e' + n2).
Proof.
  intros Hmx. unfold binary_round_aux.
  pose proof (shr_fexp_spec mx ex l Hmx) as S1. cbv zeta in S1.
  destruct (shr_fexp prec emax mx ex l) as [mrs' e'] eqn:H1.
  cbn [fst snd] in S1. destruct S1 as [S1m S1e].
  set (m1 := round_nearest_even (shr_m mrs') (loc_of_shr_record mrs')).
  assert (Hm1 : shr_m mrs' <= m1 <= shr_m mrs' + 1)
    by apply round_nearest_even_bounds.
  assert (Hm' : 0 <= shr_m mrs').
  { rewrite S1m. apply Z.div_pos; [assumption |]. apply Z.pow_pos_nonneg; lia. }
  pose proof (shr_fexp_spec m1 e' loc_Exact) as S2. cbv zeta in S2.
  destruct (shr_fexp prec emax m1 e' loc_Exact) as [mrs'' e''] eqn:H2.
  cbn [fst snd] in S2. destruct S2 as [S2m S2e]; [lia |].
  exists m1. cbv zeta. rewrite <- S1m, <- S1e. split; [assumption |].
  rewrite <- S2m, <- S2e. reflexivity.
Qed.

(** Rounding a non-negative mantissa never yields NaN. *)
Lemma binary_round_aux_not_nan (s : bool) (mx ex : Z) (l : location) :
  0 <= mx -> binary_round_aux prec emax s mx ex l <> S754_nan.
Proof.
  intros Hmx.
  destruct (binary_round_aux_rounded s mx ex l Hmx) as (m1 & Hm1 & ->).
  cbv zeta in Hm1.
  set (q := m1 / 2 ^ _).
  assert (0 <= q).
  { subst q. apply Z.div_pos; [| apply Z.pow_pos_nonneg; lia].
    assert (0 <= mx / 2 ^ Z.max 0 (fexp64 (Zdigits2 mx + ex) - ex))
      by (apply Z.div_pos; [assumption | apply Z.pow_pos_nonneg; lia]).
    lia. }
  unfold rounded. destruct q as [| q | q]; [discriminate | | lia].
  destruct (_ <=? 971); discriminate.
Qed.




Lemma SFbelow_weaken (k k' : Z) (x : spec_float) :
  k <= k' -> SFbelow k x = true -> SFbelow k' x = true.
Proof.
  intros Hk. destruct x as [s | s | | s m e]; cbn [SFbelow]; try (intros; assumption).
  intros H. apply Z.leb_le in H. apply Z.leb_le. lia.
Qed.

(** A value below [2^k] rounds to a finite value below [2^(k+1)]. *)
Lemma binary_round_aux_below (s : bool) (mx ex : Z) (l : location) (k : Z) :
  0 < mx -> Zdigits2 mx + ex <= k -> ex <= 971 -> -1074 <= k <= 1023 ->
  SFbelow (k + 1) (binary_round_aux prec emax s mx ex l) = true.
Proof.
  intros Hmx HD Hex Hk.
  destruct (binary_round_aux_rounded s mx ex l) as (m1 & Hm1 & ->); [lia |].
  destruct (round_shift_facts mx ex m1 Hmx Hm1) as (Hm & Hup & _).
  cbv zeta in Hup. unfold rounded.
  set (m := m1 / 2 ^ _) in *. set (e := (ex + _ + _)) in *.
  destruct m as [| q | q]; [reflexivity | | lia].
  destruct Hup as [HM He]; [lia |]. unfold fexp64 in He.
  destruct (Z.leb_spec e 971) as [_ | Hbad]; [| lia].
  cbn [SFbelow Zdigits2] in *. apply Z.leb_le. lia.
Qed.

(** A mantissa with at least the precision of the format rounds to a
    valid binary64 value. *)
Lemma binary_round_aux_valid (s : bool) (mx ex : Z) (l : location) :
  0 < mx -> ex <= fexp64 (Zdigits2 mx + ex) ->
  valid_binary (binary_round_aux prec emax s mx ex l) = true.
Proof.
  intros Hmx Hex.
  destruct (binary_round_aux_rounded s mx ex l) as (m1 & Hm1 & ->); [lia |].
  destruct (round_shift_facts mx ex m1 Hmx Hm1) as (Hm & _ & Hcan).
  cbv zeta in Hcan. destruct (Hcan Hex) as [Hcan' _]. unfold rounded.
  set (m := m1 / 2 ^ _) in *. set (e := (ex + _ + _)) in *.
  destruct m as [| q | q]; [reflexivity | | lia].
  destruct Hcan' as [Hc _]; [lia |].
  destruct (Z.leb_spec e 971) as [Hle | _]; [| reflexivity].
  unfold valid_binary, SpecFloat.valid_binary, bounded, canonical_mantissa.
  rewrite fexp64_eq. cbn [Zdigits2] in Hc. rewrite Hc, Z.eqb_refl.
  apply Z.leb_le. exact Hle.
Qed.

(** Rounding does not lower the weight of a value. *)
Lemma binary_round_aux_above (s : bool) (mx ex : Z) (l : location) (k : Z) :
  0 < mx -> ex <= fexp64 (Zdigits2 mx + ex) ->
  -1073 <= Zdigits2 mx + ex -> k <= Zdigits2 mx + ex ->
  SFabove k s (binary_round_aux prec emax s mx ex l) = true.
Proof.
  intros Hmx Hex HD Hk.
  destruct (binary_round_aux_rounded s mx ex l) as (m1 & Hm1 & ->); [lia |].
  destruct (round_shift_facts mx ex m1 Hmx Hm1) as (Hm & _ & Hcan).
  cbv zeta in Hcan. destruct (Hcan Hex) as [Hcan' Hpos]. unfold rounded.
  set (m := m1 / 2 ^ _) in *. set (e := (ex + _ + _)) in *.
  specialize (Hpos HD).
  destruct m as [| q | q]; [lia | | lia].
  destruct Hcan' as [_ Hge]; [lia |]. cbn [Zdigits2] in Hge.
  destruct (e <=? 971); cbn [SFabove]; rewrite Bool.eqb_reflx; [| reflexivity].
  apply Z.leb_le. lia.
Qed.

(** *** Multiplication *)

Lemma Zdigits2_mul (a b : Z) :
  0 < a -> 0 < b -> Zdigits2 (a * b) <= Zdigits2 a + Zdigits2 b.
Proof.
  intros Ha Hb.
  pose proof (Zdigits2_bound a Ha) as [_ Hua].
  pose proof (Zdigits2_bound b Hb) as [_ Hub].
  pose proof (Zdigits2_pos a Ha). pose proof (Zdigits2_pos b Hb).
  apply Zdigits2_lt_pow2; [lia |].
  rewrite Z.pow_add_r by lia.
  apply Z.mul_lt_mono_nonneg; lia.
Qed.

Lemma SF64mul_below (a b : Z) (x y : spec_float) :
  SFbelow a x = true -> SFbelow b y = true -> -1074 <= a + b <= 900 ->
  SFbelow (a + b + 1) (SF64mul x y) = true.
Proof.
  intros Hx Hy Hab.
  destruct x as [sx | sx | | sx mx ex]; try discriminate Hx;
    destruct y as [sy | sy | | sy my ey]; try discriminate Hy;
    try reflexivity.
  cbn [SFbelow] in Hx, Hy. apply Z.leb_le in Hx, Hy.
  unfold SF64mul, SFmul.
  pose proof (Zdigits2_mul (Zpos mx) (Zpos my) eq_refl eq_refl) as Hd.
  pose proof (Zdigits2_pos (Zpos mx) eq_refl).
  pose proof (Zdigits2_pos (Zpos my) eq_refl).
  cbn [Zdigits2] in *.
  apply binary_round_aux_below.
  - reflexivity.
  - change (Zpos (mx * my)) with (Zpos mx * Zpos my). cbn [Zdigits2]. lia.
  - lia.
  - lia.
Qed.

(** *** Addition and subtraction *)

Lemma iter_xO_pow2 (m d : positive) : Zpos (Pos.iter xO m d) = Zpos m * 2 ^ Zpos d.
Proof.
  induction d as [| d IH] using Pos.peano_ind.
  - cbn [Pos.iter]. change (2 ^ 1) with 2. lia.
  - rewrite Pos.iter_succ. rewrite Pos2Z.inj_succ, Z.pow_succ_r by lia.
    change (Zpos (Pos.iter xO m d)~0) with (2 * Zpos (Pos.iter xO m d)).
    rewrite IH. ring.
Qed.

Lemma shl_align_spec (mx : positive) (ex ex' : Z) :
  Zpos (fst (shl_align mx ex ex')) = Zpos mx * 2 ^ (ex - Z.min ex ex') /\
  snd (shl_align mx ex ex') = Z.min ex ex'.
Proof.
  unfold shl_align. destruct (ex' - ex) as [| d | d] eqn:Hd; cbn [fst snd].
  - rewrite Z.min_l by lia. rewrite Z.sub_diag. split; [ring | reflexivity].
  - rewrite Z.min_l by lia. rewrite Z.sub_diag. split; [ring | reflexivity].
  - rewrite Z.min_r by lia. rewrite iter_xO_pow2.
    replace (ex - ex') with (Zpos d) by lia. split; reflexivity.
Qed.

Lemma Zdigits2_mul_pow2 (m k : Z) :
  0 < m -> 0 <= k -> Zdigits2 (m * 2 ^ k) = Zdigits2 m + k.
Proof.
  intros Hm Hk.
  assert (0 < 2 ^ k) by (apply Z.pow_pos_nonneg; lia).
  rewrite !Zdigits2_log2 by lia.
  rewrite Z.log2_mul_pow2 by lia. lia.
Qed.

Lemma binary_round_below (s : bool) (mx : positive) (ex k : Z) :
  Zpos (digits2_pos mx) + ex <= k -> ex <= 971 -> -1074 <= k <= 1023 ->
  SFbelow (k + 1) (binary_round prec emax s mx ex) = true.
Proof.
  intros HD Hex Hk. unfold binary_round.
  pose proof (shl_align_spec mx ex (fexp prec emax (Zpos (digits2_pos mx) + ex)))
    as [Hm He].
  destruct (shl_align mx ex _) as [mz ez]. cbn [fst snd] in Hm, He.
  apply binary_round_aux_below; try lia.
  rewrite Hm. rewrite Zdigits2_mul_pow2 by lia. cbn [Zdigits2]. lia.
Qed.

Lemma binary_normalize_below (m e k : Z) :
  Z.abs m < 2 ^ (k - e) -> e <= 971 -> -1074 <= k <= 1023 ->
  SFbelow (k + 1) (binary_normalize prec emax m e false) = true.
Proof.
  intros Hm He Hk. unfold binary_normalize.
  destruct m as [| p | p]; [reflexivity | |];
    apply binary_round_below; try lia;
    (assert (Hd : Zdigits2 (Zpos p) <= k - e)
       by (apply Zdigits2_lt_pow2; [reflexivity | exact Hm]);
     cbn [Zdigits2] in Hd; lia).
Qed.

Lemma aligned_below (mx : positive) (ex ez a : Z) :
  Zpos (digits2_pos mx) + ex <= a -> ez <= ex ->
  Zpos (fst (shl_align mx ex ez)) < 2 ^ (a - ez).
Proof.
  intros Ha Hez.
  destruct (shl_align_spec mx ex ez) as [-> _]. rewrite Z.min_r by lia.
  pose proof (Zdigits2_bound (Zpos mx) eq_refl) as [_ Hu]. cbn [Zdigits2] in Hu.
  apply Z.lt_le_trans with (2 ^ Zpos (digits2_pos mx) * 2 ^ (ex - ez)).
  - apply Z.mul_lt_mono_pos_r; [apply Z.pow_pos_nonneg; lia | assumption].
  - rewrite <- Z.pow_add_r by lia. apply Z.pow_le_mono_r; lia.
Qed.

Lemma sum_below (sx sy : bool) (X Y a b ez : Z) :
  0 < X < 2 ^ (a - ez) -> 0 < Y < 2 ^ (b - ez) ->
  Z.abs (cond_Zopp sx X + cond_Zopp sy Y) < 2 ^ (Z.max a b + 1 - ez) /\
  Z.abs (cond_Zopp sx X - cond_Zopp sy Y) < 2 ^ (Z.max a b + 1 - ez).
Proof.
  intros HX HY.
  assert (Ha : 0 <= a - ez).
  { destruct (Z.le_gt_cases 0 (a - ez)); [assumption |].
    rewrite Z.pow_neg_r in HX; lia. }
  assert (Hb : 0 <= b - ez).
  { destruct (Z.le_gt_cases 0 (b - ez)); [assumption |].
    rewrite Z.pow_neg_r in HY; lia. }
  assert (H2 : 2 ^ (Z.max a b + 1 - ez) = 2 * 2 ^ (Z.max a b - ez)).
  { replace (Z.max a b + 1 - ez) with (Z.succ (Z.max a b - ez)) by lia.
    apply Z.pow_succ_r. lia. }
  assert (2 ^ (a - ez) <= 2 ^ (Z.max a b - ez)) by (apply Z.pow_le_mono_r; lia).
  assert (2 ^ (b - ez) <= 2 ^ (Z.max a b - ez)) by (apply Z.pow_le_mono_r; lia).
  rewrite H2. unfold cond_Zopp. destruct sx, sy; lia.
Qed.

Lemma SF64add_below (a b : Z) (x y : spec_float) :
  SFbelow a x = true -> SFbelow b y = true ->
  -1074 <= Z.max a b + 1 <= 900 ->
  SFbelow (Z.max a b + 2) (SF64add x y) = true.
Proof.
  intros Hx Hy Hab.
  destruct x as [sx | sx | | sx mx ex]; try discriminate Hx;
    destruct y as [sy | sy | | sy my ey]; try discriminate Hy.
  - destruct sx, sy; reflexivity.
  - cbn [SF64add SFadd]. revert Hy. apply SFbelow_weaken. lia.
  - cbn [SF64add SFadd]. revert Hx. apply SFbelow_weaken. lia.
  - cbn [SFbelow] in Hx, Hy. apply Z.leb_le in Hx, Hy.
    unfold SF64add, SFadd.
    pose proof (Zdigits2_pos (Zpos mx) eq_refl) as Hdx.
    pose proof (Zdigits2_pos (Zpos my) eq_refl) as Hdy.
    cbn [Zdigits2] in Hdx, Hdy.
    set (ez := Z.min ex ey).
    pose proof (aligned_below mx ex ez a Hx ltac:(lia)) as HX.
    pose proof (aligned_below my ey ez b Hy ltac:(lia)) as HY.
    replace (Z.max a b + 2) with (Z.max a b + 1 + 1) by lia.
    apply binary_normalize_below; [| lia | lia].
    apply sum_below; lia.
Qed.

Lemma SF64sub_below (a b : Z) (x y : spec_float) :
  SFbelow a x = true -> SFbelow b y = true ->
  -1074 <= Z.max a b + 1 <= 900 ->
  SFbelow (Z.max a b + 2) (SF64sub x y) = true.
Proof.
  intros Hx Hy Hab.
  destruct x as [sx | sx | | sx mx ex]; try discriminate Hx;
    destruct y as [sy | sy | | sy my ey]; try discriminate Hy.
  - destruct sx, sy; reflexivity.
  - cbn [SF64sub SFsub SFbelow] in *. apply Z.leb_le in Hy. apply Z.leb_le. lia.
  - cbn [SF64sub SFsub]. revert Hx. apply SFbelow_weaken. lia.
  - cbn [SFbelow] in Hx, Hy. apply Z.leb_le in Hx, Hy.
    unfold SF64sub, SFsub.
    pose proof (Zdigits2_pos (Zpos mx) eq_refl) as Hdx.
    pose proof (Zdigits2_pos (Zpos my) eq_refl) as Hdy.
    cbn [Zdigits2] in Hdx, Hdy.
    set (ez := Z.min ex ey).
    pose proof (aligned_below mx ex ez a Hx ltac:(lia)) as HX.
    pose proof (aligned_below my ey ez b Hy ltac:(lia)) as HY.
    replace (Z.max a b + 2) with (Z.max a b + 1 + 1) by lia.
    apply binary_normalize_below; [| lia | lia].
    apply sum_below; lia.
Qed.

(** *** Division of two positive integers *)

(** The rounded quotient [n / d] is a valid binary64 value of weight at
    least [digits n - digits d], and at least 1 when [d <= n]. *)
Lemma SF64div_integers (n d : positive) (k : Z) :
  Zpos (digits2_pos d) <= 64 ->
  k <= Zpos (digits2_pos n) - Zpos (digits2_pos d) \/ (Zpos d <= Zpos n /\ k <= 1) ->
  let r := SF64div (S754_finite false n 0) (S754_finite false d 0) in
  valid_binary r = true /\ SFabove k false r = true.
Proof.
  intros Hd Hk r. subst r. unfold SF64div, SFdiv, SFdiv_core_binary.
  cbn [xorb Zdigits2]. rewrite fexp64_eq.
  set (d1 := Zpos (digits2_pos n)) in *. set (d2 := Zpos (digits2_pos d)) in *.
  pose proof (Zdigits2_bound (Zpos n) eq_refl) as [Hnlo Hnhi].
  pose proof (Zdigits2_bound (Zpos d) eq_refl) as [Hdlo Hdhi].
  cbn [Zdigits2] in Hnlo, Hnhi, Hdlo, Hdhi. fold d1 in Hnlo, Hnhi. fold d2 in Hdlo, Hdhi.
  assert (Hd1 : 1 <= d1) by (subst d1; lia).
  assert (Hd2 : 1 <= d2) by (subst d2; lia).
  set (e' := Z.min (fexp64 (d1 + 0 - (d2 + 0))) (0 - 0)).
  set (s := 0 - 0 - e').
  assert (He' : e' = Z.min (d1 - d2 - 53) 0) by (subst e'; unfold fexp64; lia).
  assert (Hs : 0 <= s /\ 53 <= d1 - d2 + s /\ s = - e') by (subst s; lia).
  set (m' := match s with Z.pos _ => Z.shiftl (Zpos n) s | 0 => Zpos n | Zneg _ => 0 end).
  assert (Hm' : m' = Zpos n * 2 ^ s).
  { subst m'. destruct s as [| p | p] eqn:Hsp.
    - rewrite Z.pow_0_r. lia.
    - rewrite Z.shiftl_mul_pow2 by lia. reflexivity.
    - lia. }
  destruct (Z.div_eucl m' (Zpos d)) as [q rem] eqn:Hqr.
  assert (Hq : q = m' / Zpos d) by (unfold Z.div; rewrite Hqr; reflexivity).
  clearbody m' e' s. subst m'.
  assert (Hps : 0 < 2 ^ s) by (apply Z.pow_pos_nonneg; lia).
  assert (Hqlo : 2 ^ (d1 - d2 + s - 1) <= q).
  { rewrite Hq. apply Z.div_le_lower_bound; [lia |].
    apply Z.le_trans with (2 ^ d2 * 2 ^ (d1 - d2 + s - 1)).
    - apply Z.mul_le_mono_nonneg_r; [apply Z.pow_nonneg; lia | lia].
    - rewrite <- Z.pow_add_r by lia.
      replace (d2 + (d1 - d2 + s - 1)) with (d1 - 1 + s) by lia.
      rewrite Z.pow_add_r by lia.
      apply Z.mul_le_mono_nonneg_r; lia. }
  assert (Hqpos : 0 < q).
  { assert (0 < 2 ^ (d1 - d2 + s - 1)) by (apply Z.pow_pos_nonneg; lia). lia. }
  assert (Hdq : d1 - d2 + s <= Zdigits2 q).
  { pose proof (Zdigits2_ge_pow2 q (d1 - d2 + s - 1)). lia. }
  assert (Hdq' : Zpos d <= Zpos n -> s + 1 <= Zdigits2 q).
  { intros Hle. apply Zdigits2_ge_pow2; [lia |].
    rewrite Hq. apply Z.div_le_lower_bound; [lia |].
    apply Z.mul_le_mono_nonneg_r; lia. }
  assert (Hpre : e' <= fexp64 (Zdigits2 q + e')) by (unfold fexp64; lia).
  split.
  - apply binary_round_aux_valid; assumption.
  - apply binary_round_aux_above; try assumption; lia.
Qed.

(** *** No operation on non-NaN operands invents a NaN, unless it is one
    of the invalid operations on infinities and zeros *)



Lemma SFbelow_finite (k : Z) (x : spec_float) : SFbelow k x = true -> SFfinite x = true.
Proof. destruct x; cbn; intros H; congruence. Qed.

Lemma SFfinite_not_nan (x : spec_float) : SFfinite x = true -> SFis_nan x = false.
Proof. destruct x; cbn; intros H; congruence. Qed.

Lemma not_nan_iff (x : spec_float) : SFis_nan x = false <-> x <> S754_nan.
Proof. destruct x; cbn; split; intros H; congruence. Qed.

Lemma binary_normalize_not_nan (m e : Z) :
  SFis_nan (binary_normalize prec emax m e false) = false.
Proof.
  unfold binary_normalize, binary_round.
  destruct m as [| p | p]; [reflexivity | |];
    destruct (shl_align p e _) as [mz ez];
    apply not_nan_iff; apply binary_round_aux_not_nan; lia.
Qed.

Lemma SF64add_not_nan (x y : spec_float) :
  SFis_nan x = false -> SFis_nan y = false ->
  SFfinite x || SFfinite y = true ->
  SFis_nan (SF64add x y) = false.
Proof.
  intros Hx Hy Hf. unfold SF64add, SFadd.
  destruct x as [sx | sx | | sx mx ex]; try discriminate Hx;
    destruct y as [sy | sy | | sy my ey]; try discriminate Hy;
    try discriminate Hf; try reflexivity.
  - destruct sx, sy; reflexivity.
  - apply binary_normalize_not_nan.
Qed.

Lemma SF64sub_not_nan (x y : spec_float) :
  SFis_nan x = false -> SFis_nan y = false ->
  SFfinite x || SFfinite y = true ->
  SFis_nan (SF64sub x y) = false.
Proof.
  intros Hx Hy Hf. unfold SF64sub, SFsub.
  destruct x as [sx | sx | | sx mx ex]; try discriminate Hx;
    destruct y as [sy | sy | | sy my ey]; try discriminate Hy;
    try discriminate Hf; try reflexivity.
  - destruct sx, sy; reflexivity.
  - apply binary_normalize_not_nan.
Qed.

Lemma SF64mul_not_nan (x y : spec_float) :
  SFis_nan x = false -> SFnonzero y = true ->
  SFis_nan (SF64mul x y) = false.
Proof.
  intros Hx Hy. unfold SF64mul, SFmul.
  destruct x as [sx | sx | | sx mx ex]; try discriminate Hx;
    destruct y as [sy | sy | | sy my ey]; try discriminate Hy;
    try reflexivity.
  apply not_nan_iff. apply binary_round_aux_not_nan. lia.
Qed.

Lemma SF64div_not_nan (x y : spec_float) :
  SFis_nan x = false -> SFnonzero y = true ->
  SFis_nan (SF64div x y) = false.
Proof.
  intros Hx Hy. unfold SF64div, SFdiv.
  destruct x as [sx | sx | | sx mx ex]; try discriminate Hx;
    destruct y as [sy | sy | | sy my ey]; try discriminate Hy;
    try reflexivity.
  unfold SFdiv_core_binary.
  set (s := ex - ey - _).
  set (m' := match s with Z.pos _ => Z.shiftl (Zpos mx) s | 0 => Zpos mx | Zneg _ => 0 end).
  assert (Hm' : 0 <= m').
  { subst m'. destruct s; [lia | | lia]. apply Z.shiftl_nonneg. lia. }
  destruct (Z.div_eucl m' (Zpos my)) as [q rem] eqn:Hqr.
  assert (Hq : q = m' / Zpos my) by (unfold Z.div; rewrite Hqr; reflexivity).
  apply not_nan_iff. apply binary_round_aux_not_nan.
  rewrite Hq. apply Z.div_pos; lia.
Qed.

End Binary64Facts.

(* ================================================================== *)
(** ** Numbers: finiteness, NaN and order through the operations *)
(* ================================================================== *)

Lemma SFcompare_refl (x : spec_float) :
  SFis_nan x = false -> SFcompare x x = Some Eq.
Proof.
  destruct x as [s | s | | s m e]; intros H; try discriminate H; cbn [SFcompare].
  - reflexivity.
  - destruct s; reflexivity.
  - rewrite Z.compare_refl.
    change (Pos.compare_cont Eq m m) with (Pos.compare m m).
    rewrite Pos.compare_refl. destruct s; reflexivity.
Qed.

Lemma is_nan_spec (x : number) : is_nan x = SFis_nan (Prim2SF x).
Proof.
  unfold is_nan. rewrite FloatAxioms.eqb_spec. unfold SFeqb.
  destruct (SFis_nan (Prim2SF x)) eqn:Hx.
  - destruct (Prim2SF x); try discriminate Hx. reflexivity.
  - rewrite SFcompare_refl by assumption. reflexivity.
Qed.

Lemma below_not_nan (k : Z) (x : number) : below k x = true -> is_nan x = false.
Proof.
  unfold below. intros H. rewrite is_nan_spec.
  apply SFfinite_not_nan. exact (SFbelow_finite _ _ H).
Qed.

Lemma add_below (a b : Z) (x y : number) :
  below a x = true -> below b y = true ->
  (-1074 <= Z.max a b + 1 <= 900)%Z ->
  below (Z.max a b + 2) (x + y) = true.
Proof. unfold below. rewrite add_spec. apply SF64add_below. Qed.

Lemma sub_below (a b : Z) (x y : number) :
  below a x = true -> below b y = true ->
  (-1074 <= Z.max a b + 1 <= 900)%Z ->
  below (Z.max a b + 2) (x - y) = true.
Proof. unfold below. rewrite sub_spec. apply SF64sub_below. Qed.

Lemma mul_below (a b : Z) (x y : number) :
  below a x = true -> below b y = true ->
  (-1074 <= a + b <= 900)%Z ->
  below (a + b + 1) (x * y) = true.
Proof. unfold below. rewrite mul_spec. apply SF64mul_below. Qed.

Lemma add_not_nan (x y : number) (k : Z) :
  is_nan x = false -> below k y = true -> is_nan (x + y) = false.
Proof.
  intros Hx Hy. pose proof (below_not_nan _ _ Hy) as Hy'.
  rewrite is_nan_spec in *. rewrite add_spec.
  apply SF64add_not_nan; try assumption.
  unfold below in Hy. rewrite (SFbelow_finite _ _ Hy). apply orb_true_r.
Qed.

Lemma sub_not_nan (x y : number) (k : Z) :
  is_nan x = false -> below k y = true -> is_nan (x - y) = false.
Proof.
  intros Hx Hy. pose proof (below_not_nan _ _ Hy) as Hy'.
  rewrite is_nan_spec in *. rewrite sub_spec.
  apply SF64sub_not_nan; try assumption.
  unfold below in Hy. rewrite (SFbelow_finite _ _ Hy). apply orb_true_r.
Qed.

Lemma rsub_not_nan (x y : number) (k : Z) :
  below k x = true -> is_nan y = false -> is_nan (x - y) = false.
Proof.
  intros Hx Hy. pose proof (below_not_nan _ _ Hx) as Hx'.
  rewrite is_nan_spec in *. rewrite sub_spec.
  apply SF64sub_not_nan; try assumption.
  unfold below in Hx. rewrite (SFbelow_finite _ _ Hx). reflexivity.
Qed.

Lemma mul_not_nan (x y : number) :
  is_nan x = false -> nonzero y = true -> is_nan (x * y) = false.
Proof.
  intros Hx Hy. rewrite is_nan_spec in *. rewrite mul_spec.
  apply SF64mul_not_nan; assumption.
Qed.

Lemma div_not_nan (x y : number) :
  is_nan x = false -> nonzero y = true -> is_nan (x / y) = false.
Proof.
  intros Hx Hy. rewrite is_nan_spec in *. rewrite div_spec.
  apply SF64div_not_nan; assumption.
Qed.

Lemma Prim2SF_zero : Prim2SF 0 = S754_zero false.
Proof. vm_compute. reflexivity. Qed.

Lemma Prim2SF_one : Prim2SF 1 = S754_finite false 4503599627370496 (-52).
Proof. vm_compute. reflexivity. Qed.

(** The mantissa comparison of [SFcompare], read on integers. *)
Lemma compare_cont_Eq_spec (p q : positive) :
  match Pos.compare_cont Eq p q with
  | Lt => (Zpos p < Zpos q)%Z
  | Eq => p = q
  | Gt => (Zpos q < Zpos p)%Z
  end.
Proof.
  change (Pos.compare_cont Eq p q) with (Pos.compare p q).
  destruct (Pos.compare_spec p q); lia.
Qed.

(** A draw of [Math.random] is finite and below 1 in magnitude. *)
Lemma unit_interval_below (u : number) :
  (0 <=? u) = true -> (u <? 1) = true -> below 0 u = true.
Proof.
  rewrite (FloatAxioms.leb_spec 0 u), (FloatAxioms.ltb_spec u 1).
  unfold below, SFleb, SFltb.
  pose proof (Prim2SF_valid u) as Hv.
  rewrite Prim2SF_zero, Prim2SF_one.
  destruct (Prim2SF u) as [s | s | | s m e]; cbn [SFcompare SFbelow];
    try reflexivity; try (destruct s; discriminate); try discriminate.
  destruct s; [discriminate |]. intros _.
  unfold SpecFloat.valid_binary, bounded, canonical_mantissa in Hv.
  apply andb_prop in Hv. destruct Hv as [Hc _]. apply Z.eqb_eq in Hc.
  rewrite fexp64_eq in Hc. unfold fexp64 in Hc.
  destruct (Z.compare_spec e (-52)) as [He | He | He]; try discriminate.
  - pose proof (compare_cont_Eq_spec m 4503599627370496) as Hm.
    destruct (Pos.compare_cont Eq m 4503599627370496); try discriminate.
    intros _. apply Z.leb_le.
    assert (Hd : (Zdigits2 (Zpos m) <= 52)%Z).
    { apply Zdigits2_lt_pow2; [reflexivity |].
      change (2 ^ 52)%Z with 4503599627370496%Z. lia. }
    cbn [Zdigits2] in Hd. lia.
  - intros _. apply Z.leb_le. lia.
Qed.

Lemma opp_not_nan (x : number) : is_nan x = false -> is_nan (- x) = false.
Proof.
  rewrite !is_nan_spec, opp_spec. destruct (Prim2SF x); cbn; congruence.
Qed.

(** [Math.max] with a non-negative floor [c] never returns less than [c]
    when neither argument is NaN. *)
Lemma Math_max_floor (c x : number) :
  is_nan c = false -> is_nan x = false -> get_sign c = false ->
  (c <=? Math_max c x) = true /\ is_nan (Math_max c x) = false.
Proof.
  intros Hc Hx Hs. unfold Math_max. rewrite Hc, Hx, Hs. cbn [orb].
  destruct (c <? x) eqn:H1.
  - split; [| assumption].
    rewrite FloatAxioms.ltb_spec in H1. rewrite FloatAxioms.leb_spec.
    unfold SFltb, SFleb in *.
    destruct (SFcompare (Prim2SF c) (Prim2SF x)) as [[| |] |]; congruence.
  - assert (Hcc : (c <=? c) = true).
    { rewrite FloatAxioms.leb_spec. unfold SFleb.
      rewrite SFcompare_refl; [reflexivity |].
      rewrite <- is_nan_spec. assumption. }
    destruct (x <? c); split; assumption.
Qed.

(** *** What [Number] reads back from [toFixed] *)

Lemma nearest_quotient_spec (n d : positive) (k : Z) :
  (Zpos (digits2_pos d) <= 64)%Z ->
  (k <= Zpos (digits2_pos n) - Zpos (digits2_pos d) \/ (Zpos d <= Zpos n /\ k <= 1))%Z ->
  SFabove k false (Prim2SF (nearest_quotient n d)) = true.
Proof.
  intros Hd Hk. unfold nearest_quotient.
  destruct (SF64div_integers n d k Hd Hk) as [Hvalid Habove].
  rewrite Prim2SF_SF2Prim by exact Hvalid. exact Habove.
Qed.

Lemma SFabove_not_nan (k : Z) (s : bool) (x : spec_float) :
  SFabove k s x = true -> SFis_nan x = false.
Proof. destruct x; cbn; congruence. Qed.

Lemma Number_Fixed_not_nan (minus : bool) (n f : Z) :
  (Zpos (digits2_pos (Z.to_pos (10 ^ f))) <= 64)%Z ->
  is_nan (Number (Fixed minus n f)) = false.
Proof.
  intros Hf. cbn [Number].
  assert (Hv : is_nan match n with
                      | Zpos p => nearest_quotient p (Z.to_pos (10 ^ f))
                      | _ => 0
                      end = false).
  { destruct n as [| p | p]; try (vm_compute; reflexivity).
    rewrite is_nan_spec.
    apply (SFabove_not_nan
             (Zpos (digits2_pos p) - Zpos (digits2_pos (Z.to_pos (10 ^ f)))) false).
    apply nearest_quotient_spec; [assumption | left; lia]. }
  destruct minus; [apply opp_not_nan |]; exact Hv.
Qed.

Lemma Number_toFixed_not_nan (x : number) (f : Z) :
  (Zpos (digits2_pos (Z.to_pos (10 ^ f))) <= 64)%Z ->
  is_nan x = false -> is_nan (Number (toFixed x f)) = false.
Proof.
  intros Hf Hx. unfold toFixed.
  destruct (Prim2SF x) as [s | s | | s m e].
  - apply Number_Fixed_not_nan. assumption.
  - exact Hx.
  - exact Hx.
  - destruct (1e21 <=? abs x); [exact Hx |].
    apply Number_Fixed_not_nan. assumption.
Qed.

(** Rounding to three decimals keeps a value at or above a floor [c] of
    [0.5, 1) whose own three-decimal rounding [n0 / 1000] reads back as at
    least [c]: the decimals [n0 .. 999] are checked one by one, and from
    1.000 on the value read back is at least 1. *)
Lemma toFixed3_keeps_floor (c : number) (mc : positive) (n0 : Z) :
  Prim2SF c = S754_finite false mc (-53) ->
  ((2 * Zpos mc * 10 ^ 3 + 2 ^ 53) / 2 ^ 54 = n0)%Z ->
  (0 < n0 <= 1000)%Z ->
  (forall n : positive,
      (n0 <= Zpos n < 1000)%Z -> (c <=? nearest_quotient n 1000) = true) ->
  forall y : number, (c <=? y) = true -> (c <=? Number (toFixed y 3)) = true.
Proof.
  intros Hc Hn0 Hn0' Hsmall y Hy.
  pose proof Hy as Hy'. rewrite FloatAxioms.leb_spec, Hc in Hy'. unfold SFleb in Hy'.
  pose proof (Prim2SF_valid y) as Hvalid.
  unfold toFixed.
  destruct (Prim2SF y) as [s | s | | s m e]; try exact Hy; try discriminate Hy'.
  destruct (1e21 <=? abs y); [exact Hy |].
  cbn [SFcompare] in Hy'. destruct s; [discriminate Hy' |].
  unfold SpecFloat.valid_binary, bounded, canonical_mantissa in Hvalid.
  apply andb_prop in Hvalid. destruct Hvalid as [Hcan _]. apply Z.eqb_eq in Hcan.
  rewrite fexp64_eq in Hcan. unfold fexp64 in Hcan.
  pose proof (Zdigits2_bound (Zpos m) eq_refl) as [Hmlo _]. cbn [Zdigits2] in Hmlo.
  (* the decimal is at least n0 / 1000 *)
  assert (Hn : (n0 <= nearest_scaled m e 3)%Z).
  { unfold nearest_scaled.
    destruct (Z.compare_spec (-53) e) as [He | He | He]; try discriminate Hy'.
    - subst e. cbn [Z.leb Z.compare Z.opp Z.sub Z.add Z.pos_sub Pos.pred_double].
      pose proof (compare_cont_Eq_spec mc m) as Hm.
      rewrite <- Hn0. apply Z.div_le_mono; [reflexivity |].
      destruct (Pos.compare_cont Eq mc m); try discriminate Hy'; [subst m |]; lia.
    - assert (Hd : Zpos (digits2_pos m) = 53%Z) by lia.
      rewrite Hd in Hmlo. change (2 ^ (53 - 1))%Z with (2 ^ 52)%Z in Hmlo.
      apply Z.le_trans with 1000%Z; [lia |].
      destruct (Z.leb_spec 0 e) as [Hpos | Hneg].
      + assert (1 <= 2 ^ e)%Z by (pose proof (Z.pow_pos_nonneg 2 e); lia).
        change (10 ^ 3)%Z with 1000%Z. nia.
      + apply Z.div_le_lower_bound; [apply Z.pow_pos_nonneg; lia |].
        assert (Hpow : (2 ^ (- e) <= 2 ^ 52)%Z) by (apply Z.pow_le_mono_r; lia).
        replace (1 - e)%Z with (Z.succ (- e)) by lia.
        rewrite Z.pow_succ_r by lia. change (10 ^ 3)%Z with 1000%Z.
        pose proof (Z.pow_pos_nonneg 2 (- e)). lia. }
  cbn [Number].
  destruct (nearest_scaled m e 3) as [| n | n]; try lia.
  change (Z.to_pos (10 ^ 3)) with 1000%positive.
  destruct (Z.lt_ge_cases (Zpos n) 1000) as [Hlt | Hge]; [apply Hsmall; lia |].
  (* a decimal of at least 1.000 reads back as at least 1 *)
  pose proof (nearest_quotient_spec n 1000 1 ltac:(cbn; lia) ltac:(right; lia))
    as Habove.
  pose proof (Prim2SF_valid (nearest_quotient n 1000)) as Hv.
  rewrite FloatAxioms.leb_spec, Hc. unfold SFleb.
  destruct (Prim2SF (nearest_quotient n 1000)) as [s' | s' | | s' m' e'];
    cbn [SFabove] in Habove; try discriminate Habove.
  - destruct s'; [discriminate Habove | reflexivity].
  - apply andb_prop in Habove. destruct Habove as [Hs Hmag].
    destruct s'; [discriminate Hs |]. apply Z.leb_le in Hmag.
    unfold SpecFloat.valid_binary, bounded, canonical_mantissa in Hv.
    apply andb_prop in Hv. destruct Hv as [Hcan' _]. apply Z.eqb_eq in Hcan'.
    rewrite fexp64_eq in Hcan'. unfold fexp64 in Hcan'.
    cbn [SFcompare].
    destruct (Z.compare_spec (-53) e') as [He | He | He]; try lia; reflexivity.
Qed.

Lemma small_decimals_keep (c : number) (lo len : nat) :
  forallb (fun k => c <=? nearest_quotient (Pos.of_nat k) 1000) (seq lo len) = true ->
  forall n : positive,
    (Z.of_nat lo <= Zpos n < Z.of_nat (lo + len))%Z ->
    (c <=? nearest_quotient n 1000) = true.
Proof.
  intros Hall n Hn. rewrite forallb_forall in Hall.
  specialize (Hall (Pos.to_nat n)). rewrite Pos2Nat.id in Hall.
  apply Hall. apply in_seq. lia.
Qed.

Lemma toFixed3_keeps_070 (y : number) :
  (0.7 <=? y) = true -> (0.7 <=? Number (toFixed y 3)) = true.
Proof.
  apply (toFixed3_keeps_floor 0.7 6305039478318694 700).
  - vm_compute. reflexivity.
  - vm_compute. reflexivity.
  - lia.
  - intros n Hn. apply (small_decimals_keep 0.7 700 300); [vm_compute; reflexivity | lia].
Qed.

Lemma toFixed3_keeps_075 (y : number) :
  (0.75 <=? y) = true -> (0.75 <=? Number (toFixed y 3)) = true.
Proof.
  apply (toFixed3_keeps_floor 0.75 6755399441055744 750).
  - vm_compute. reflexivity.
  - vm_compute. reflexivity.
  - lia.
  - intros n Hn. apply (small_decimals_keep 0.75 750 250); [vm_compute; reflexivity | lia].
Qed.

(** *** The channels behind the two efficiencies are never NaN *)

Ltac below_tac :=
  first
    [ eassumption
    | lazymatch goal with
      | |- below _ (_ + _) = true => eapply add_below; [below_tac | below_tac | lia]
      | |- below _ (_ - _) = true => eapply sub_below; [below_tac | below_tac | lia]
      | |- below _ (_ * _) = true => eapply mul_below; [below_tac | below_tac | lia]
      | |- below ?a _ = true => unify a 12%Z; vm_compute; reflexivity
      end ].

Ltac not_nan_tac :=
  first
    [ eassumption
    | lazymatch goal with
      | |- is_nan (Number (toFixed _ _)) = false =>
          apply Number_toFixed_not_nan;
          [apply Z.leb_le; vm_compute; reflexivity | not_nan_tac]
      | |- is_nan (?x - ?y) = false =>
          first [ apply (sub_not_nan x y 12); [not_nan_tac | vm_compute; reflexivity]
                | apply (rsub_not_nan x y 12); [vm_compute; reflexivity | not_nan_tac] ]
      | |- is_nan (_ * _) = false =>
          apply mul_not_nan; [not_nan_tac | vm_compute; reflexivity]
      | |- is_nan (_ / _) = false =>
          apply div_not_nan; [not_nan_tac | vm_compute; reflexivity]
      end
    | eapply below_not_nan; below_tac ].

Lemma steady_channels (hf tv u_T30 u_Ps30 u_phi : number) :
  steady hf tv = true ->
  below 0 u_T30 = true -> below 0 u_Ps30 = true -> below 0 u_phi = true ->
  is_nan (Number (toFixed
            ((1350 + (u_T30 - 0.5) * tv * 15 + (1 - hf) * 30 - 459.67) * 5 / 9) 1))
  = false /\
  is_nan (Number (toFixed
            ((0.03 + (u_phi - 0.5) * 0.02 * 0.002 + (1 - hf) * 0.005)
             * (1400 + (u_Ps30 - 0.5) * tv * 30 + (1 - hf) * 60) * 0.1) 0))
  = false.
Proof.
  unfold steady. intros Hs H1 H2 H3.
  repeat (apply andb_prop in Hs; destruct Hs as [Hs ?]).
  split; not_nan_tac.
Qed.

(* ================================================================== *)
(** ** The registry and the two policies for unknown ids *)
(* ================================================================== *)

Lemma findEngine_sound (engineId : string) (e : CMAPSSEngine.t) :
  findEngine engineId = Some e ->
  In e cmapssEngines /\ CMAPSSEngine.engineId e = engineId.
Proof.
  unfold findEngine. intros H.
  apply find_some in H. destruct H as [Hin Heq].
  apply String.eqb_eq in Heq. split; assumption.
Qed.

(** C4. For an id with no record in the registry, the health assessment
    throws an [Error] whose message is "Engine <id> not found": it names
    the requested id and returns no assessment. *)
Theorem assess_unknown_id_throws (engineId : string) :
  findEngine engineId = None ->
  generateCMAPSSHealthData engineId
  = Throw (Error ("Engine " ++ engineId ++ " not found")%string).
Proof.
  intros H. unfold generateCMAPSSHealthData. rewrite H. reflexivity.
Qed.

Lemma assess_unknown_id_throws_witness :
  findEngine "unknown-id" = None /\
  generateCMAPSSHealthData "unknown-id"
  = Throw (Error "Engine unknown-id not found").
Proof.
  split; [reflexivity | apply (assess_unknown_id_throws "unknown-id"); reflexivity].
Defined.

(** C5. For an id with no record in the registry, the sensor series
    generator returns the empty array and the performance metrics are
    [null]; both complete normally and neither calls [Math.random]. *)
Theorem unknown_id_silent_empty (random : nat -> number)
    (engineId : string) (cycles : Z) (i : nat) :
  findEngine engineId = None ->
  generateCMAPSSSensorData random engineId cycles i = (Normal [], i) /\
  getCMAPSSPerformanceMetrics random engineId i = (Normal None, i).
Proof.
  intros H. unfold generateCMAPSSSensorData, getCMAPSSPerformanceMetrics.
  rewrite H. split; reflexivity.
Qed.

Lemma unknown_id_silent_empty_witness :
  findEngine "unknown-id" = None /\
  generateCMAPSSSensorData midpoint "unknown-id" 10%Z 0%nat = (Normal [], 0%nat) /\
  getCMAPSSPerformanceMetrics midpoint "unknown-id" 0%nat = (Normal None, 0%nat).
Proof.
  split; [reflexivity | apply (unknown_id_silent_empty midpoint "unknown-id" 10%Z 0%nat); reflexivity].
Defined.

(** C10. For an id with no record in the registry, the component
    breakdown throws the "Engine <id> not found" error of the health
    assessment it calls first; it returns neither its five records nor an
    empty array, and draws no random number. *)
Theorem componentHealth_unknown_id_throws (random : nat -> number)
    (engineId : string) (i : nat) :
  findEngine engineId = None ->
  getComponentHealthData random engineId i
  = (Throw (Error ("Engine " ++ engineId ++ " not found")%string), i).
Proof.
  intros H. unfold getComponentHealthData, bind, lift, generateCMAPSSHealthData.
  rewrite H. reflexivity.
Qed.

Lemma componentHealth_unknown_id_throws_witness :
  findEngine "unknown-id" = None /\
  getComponentHealthData midpoint "unknown-id" 0%nat
  = (Throw (Error "Engine unknown-id not found"), 0%nat).
Proof.
  split; [reflexivity
         | apply (componentHealth_unknown_id_throws midpoint "unknown-id" 0%nat); reflexivity].
Defined.

(* ================================================================== *)
(** ** The health assessment on the registry *)
(* ================================================================== *)

(** C8. Engine CMAPSS-FD001-001 is registered with 362 cycles, health
    score 92.5, dataset FD001 and the single fault mode "HPC Degradation";
    its assessment has remainingUsefulLife 109, degradationRate 0.15, the
    routine recommendation and exactly the two compressor components. *)
Theorem assess_FD001_001 :
  exists e h,
    findEngine "CMAPSS-FD001-001" = Some e /\
    CMAPSSEngine.cycles e = 362 /\
    CMAPSSEngine.healthScore e = 92.5 /\
    CMAPSSEngine.dataset e = FD001 /\
    CMAPSSEngine.faultModes e = ["HPC Degradation"] /\
    generateCMAPSSHealthData "CMAPSS-FD001-001" = Normal h /\
    Math_round (362 * 1.3 - 362) = 109 /\
    CMAPSSHealthData.remainingUsefulLife h = 109 /\
    CMAPSSHealthData.degradationRate h = 0.15 /\
    CMAPSSHealthData.maintenanceRecommendation h = "Continue normal operations" /\
    CMAPSSHealthData.criticalComponents h
    = ["High Pressure Compressor"; "Compressor Blades"].
Proof.
  do 2 eexists. repeat split; vm_compute; reflexivity.
Qed.

(** C7. Engine CMAPSS-FD004-002 is registered with health score 68.9,
    dataset FD004 and a fault-mode list containing "Fan Degradation"; its
    assessment has degradationRate 0.23, the urgent recommendation, and a
    critical-component list holding the four fault-driven names together
    with "Combustor" and "Turbine Blades". *)
Theorem assess_FD004_002 :
  exists e h,
    findEngine "CMAPSS-FD004-002" = Some e /\
    CMAPSSEngine.healthScore e = 68.9 /\
    CMAPSSEngine.dataset e = FD004 /\
    includes (CMAPSSEngine.faultModes e) "Fan Degradation" = true /\
    generateCMAPSSHealthData "CMAPSS-FD004-002" = Normal h /\
    CMAPSSHealthData.degradationRate h = 0.23 /\
    CMAPSSHealthData.maintenanceRecommendation h = urgentRecommendation /\
    forallb (includes (CMAPSSHealthData.criticalComponents h))
      ["High Pressure Compressor"; "Compressor Blades"; "Fan Blades";
       "Fan Disk"; "Combustor"; "Turbine Blades"] = true.
Proof.
  do 2 eexists. repeat split; vm_compute; reflexivity.
Qed.

(** C6. For every id with a record in the registry, the record's health
    score lies in [0, 100] and the assessment completes normally with
    faultProbability in [0, 0.8] and remainingUsefulLife at least 0. *)
Theorem assess_registered_ranges (engineId : string) (e : CMAPSSEngine.t) :
  findEngine engineId = Some e ->
  (0 <=? CMAPSSEngine.healthScore e) = true /\
  (CMAPSSEngine.healthScore e <=? 100) = true /\
  exists h,
    generateCMAPSSHealthData engineId = Normal h /\
    (0 <=? CMAPSSHealthData.faultProbability h) = true /\
    (CMAPSSHealthData.faultProbability h <=? 0.8) = true /\
    (0 <=? CMAPSSHealthData.remainingUsefulLife h) = true.
Proof.
  intros H. apply findEngine_sound in H. destruct H as [Hin Hid].
  subst engineId. unfold cmapssEngines in Hin. simpl in Hin.
  repeat (destruct Hin as [Hin | Hin];
          [subst e; do 2 (split; [vm_compute; reflexivity |]);
           eexists; repeat split; vm_compute; reflexivity |]).
  contradiction.
Qed.

Lemma assess_registered_ranges_witness :
  exists e h,
    findEngine "CMAPSS-FD003-002" = Some e /\
    generateCMAPSSHealthData "CMAPSS-FD003-002" = Normal h /\
    (0 <=? CMAPSSHealthData.faultProbability h) = true /\
    (CMAPSSHealthData.faultProbability h <=? 0.8) = true /\
    (0 <=? CMAPSSHealthData.remainingUsefulLife h) = true.
Proof.
  destruct (findEngine "CMAPSS-FD003-002") as [e |] eqn:He; [| discriminate He].
  destruct (assess_registered_ranges "CMAPSS-FD003-002" e He) as (_ & _ & h & Hh).
  exists e, h. split; [reflexivity | exact Hh].
Defined.

(* ================================================================== *)
(** ** The sensor series generator *)
(* ================================================================== *)

Section GeneratorFacts.

Variable random : nat -> number.
Variable engine : CMAPSSEngine.t.
Variable params : DatasetParams.
Variable engineId : string.

Ltac run_reading :=
  unfold sensorReading, cycleNoise, noise, Math_random, bind, ret, lift,
    toISOString.

(** One pass of the loop body on a cycle whose timestamp is a valid
    date: 18 random draws, and a reading that carries the cycle. *)
Lemma sensorReading_dated (cycle : Z) (i : nat) :
  (1 <= cycle <= lastDatedCycle)%Z ->
  exists r,
    sensorReading random engine params engineId cycle i = (Normal r, (i + 18)%nat) /\
    CMAPSSSensorReading.cycle r = cycle.
Proof.
  intros Hc. unfold lastDatedCycle in Hc.
  run_reading. unfold Date_of_time, getTime_2024_01_01.
  destruct (Z.leb_spec (Z.abs (1704067200000 + cycle * 24 * 60 * 60 * 1000))
              8640000000000000) as [_ | Hbad]; [| lia].
  replace (i + 18)%nat with (Nat.iter 18 S i) by (cbn [Nat.iter nat_rect]; lia).
  eexists. split; reflexivity.
Qed.

(** One pass of the loop body on the first cycle past the last valid
    date: [toISOString] throws after the ten draws of the channels. *)
Lemma sensorReading_undated (cycle : Z) (i : nat) :
  (lastDatedCycle < cycle)%Z ->
  sensorReading random engine params engineId cycle i
  = (Throw (RangeError "Invalid time value"), (i + 10)%nat).
Proof.
  intros Hc. unfold lastDatedCycle in Hc.
  run_reading. unfold Date_of_time, getTime_2024_01_01.
  destruct (Z.leb_spec (Z.abs (1704067200000 + cycle * 24 * 60 * 60 * 1000))
              8640000000000000) as [Hok | _]; [lia |].
  replace (i + 10)%nat with (10 + i)%nat by lia. reflexivity.
Qed.

(** The rounding is applied to each channel separately, on the
    unrounded values. *)
Lemma sensorReading_channels (cycle : Z) (i j : nat) (r : CMAPSSSensorReading.t) :
  sensorReading random engine params engineId cycle i = (Normal r, j) ->
  EGT_from_raw_T30 r /\ epr_from_raw_pressures r.
Proof.
  run_reading.
  destruct (Date_of_time _) as [t |]; intros H; [| discriminate H].
  injection H as Hr _. subst r.
  unfold EGT_from_raw_T30, epr_from_raw_pressures.
  split; [eexists | do 2 eexists]; repeat split; reflexivity.
Qed.

End GeneratorFacts.

Section LoopFacts.

Variable random : nat -> number.
Variable engine : CMAPSSEngine.t.
Variable params : DatasetParams.
Variable engineId : string.

Local Abbreviation loop := (cycleLoop random engine params engineId).

Lemma cycleLoop_step (trips : nat) (cycle : Z)
    (readings : list CMAPSSSensorReading.t) (i : nat) :
  loop (S trips) cycle readings i
  = match sensorReading random engine params engineId cycle i with
    | (Normal r, j) => loop trips (cycle + 1)%Z (readings ++ [r])%list j
    | (Throw e, j) => (Throw e, j)
    end.
Proof. reflexivity. Qed.

(** While every cycle of the loop has a valid date, the loop appends
    one reading per cycle, numbered consecutively. *)
Lemma cycleLoop_dated (trips : nat) :
  forall (cycle : Z) (readings : list CMAPSSSensorReading.t) (i : nat),
    (1 <= cycle)%Z ->
    (cycle + Z.of_nat trips - 1 <= lastDatedCycle)%Z ->
    exists rs,
      loop trips cycle readings i
      = (Normal (readings ++ rs)%list, (i + 18 * trips)%nat) /\
      map CMAPSSSensorReading.cycle rs
      = map Z.of_nat (seq (Z.to_nat cycle) trips).
Proof.
  induction trips as [| trips IH]; intros cycle readings i Hlo Hhi.
  - exists []. split; [| reflexivity].
    cbn [cycleLoop]. unfold ret.
    rewrite app_nil_r. f_equal. lia.
  - destruct (sensorReading_dated random engine params engineId cycle i)
      as (r & Hr & Hcycle); [lia |].
    destruct (IH (cycle + 1)%Z (readings ++ [r])%list (i + 18)%nat)
      as (rs & Hrs & Hmap); [lia | lia |].
    exists (r :: rs). split.
    + rewrite cycleLoop_step, Hr, Hrs. rewrite <- app_assoc.
      f_equal. lia.
    + cbn [map seq]. rewrite Hcycle, Hmap.
      f_equal; [rewrite Z2Nat.id; lia |].
      replace (Z.to_nat (cycle + 1)) with (S (Z.to_nat cycle)) by lia.
      reflexivity.
Qed.

(** If the loop is asked to go past the last valid date, it throws. *)
Lemma cycleLoop_undated (trips : nat) :
  forall (cycle : Z) (readings : list CMAPSSSensorReading.t) (i : nat),
    (1 <= cycle <= lastDatedCycle + 1)%Z ->
    (lastDatedCycle < cycle + Z.of_nat trips - 1)%Z ->
    fst (loop trips cycle readings i) = Throw (RangeError "Invalid time value").
Proof.
  induction trips as [| trips IH]; intros cycle readings i Hc Hpast.
  - lia.
  - rewrite cycleLoop_step.
    destruct (Z.eq_dec cycle (lastDatedCycle + 1)) as [Heq | Hne].
    + rewrite sensorReading_undated by lia. reflexivity.
    + destruct (sensorReading_dated random engine params engineId cycle i)
        as (r & Hr & _); [lia |].
      rewrite Hr. apply IH; lia.
Qed.

(** A property of every reading the body can push holds of every
    reading of the array the loop returns. *)
Lemma cycleLoop_Forall (P : CMAPSSSensorReading.t -> Prop) :
  (forall cycle i j r,
      sensorReading random engine params engineId cycle i = (Normal r, j) -> P r) ->
  forall (trips : nat) (cycle : Z) (readings rs : list CMAPSSSensorReading.t)
         (i j : nat),
    loop trips cycle readings i = (Normal rs, j) ->
    Forall P readings -> Forall P rs.
Proof.
  intros Hbody. induction trips as [| trips IH]; intros cycle readings rs i j Hrun Hacc.
  - cbn [cycleLoop] in Hrun. unfold ret in Hrun.
    injection Hrun as <- _. exact Hacc.
  - rewrite cycleLoop_step in Hrun.
    destruct (sensorReading random engine params engineId cycle i)
      as [[r | e] k] eqn:Hr; [| discriminate Hrun].
    apply (IH _ _ _ _ _ Hrun).
    apply Forall_app. split; [exact Hacc |].
    constructor; [| constructor]. exact (Hbody _ _ _ _ Hr).
Qed.

End LoopFacts.

Lemma generate_Forall (P : CMAPSSSensorReading.t -> Prop) (random : nat -> number) :
  (forall engine params engineId cycle i j r,
      sensorReading random engine params engineId cycle i = (Normal r, j) -> P r) ->
  forall (engineId : string) (cycles : Z) (i j : nat) rs,
    generateCMAPSSSensorData random engineId cycles i = (Normal rs, j) ->
    Forall P rs.
Proof.
  intros Hbody engineId cycles i j rs. unfold generateCMAPSSSensorData.
  destruct (findEngine engineId) as [engine |].
  - intros Hrun.
    eapply cycleLoop_Forall; [| exact Hrun | constructor].
    intros cycle i' j' r. apply Hbody.
  - unfold ret. intros H. injection H as <- _. constructor.
Qed.

Lemma cyclesUpTo_ascending (n : nat) : StronglySorted Z.lt (cyclesUpTo n).
Proof.
  unfold cyclesUpTo. generalize 1%nat.
  induction n as [| n IH]; intros a; cbn [seq map]; constructor.
  - apply IH.
  - apply Forall_forall. intros x Hx.
    apply in_map_iff in Hx. destruct Hx as (k & <- & Hk).
    apply in_seq in Hk. lia.
Qed.

(** C1, as amended. For every registered id and every cycle count n
    between 0 and 99,980,277 (the last cycle with a valid timestamp), the
    generator completes normally with exactly n readings whose cycle
    fields are 1, 2, ..., n, strictly ascending; it draws 18 random
    numbers per reading. *)
Theorem generate_cycles_up_to_last_date (random : nat -> number)
    (engineId : string) (e : CMAPSSEngine.t) (n : Z) (i : nat) :
  findEngine engineId = Some e ->
  (0 <= n <= lastDatedCycle)%Z ->
  exists rs,
    generateCMAPSSSensorData random engineId n i
    = (Normal rs, (i + 18 * Z.to_nat n)%nat) /\
    List.length rs = Z.to_nat n /\
    map CMAPSSSensorReading.cycle rs = cyclesUpTo (Z.to_nat n) /\
    StronglySorted Z.lt (map CMAPSSSensorReading.cycle rs).
Proof.
  intros He Hn. unfold generateCMAPSSSensorData. rewrite He.
  destruct (cycleLoop_dated random e (datasetParams (CMAPSSEngine.dataset e))
              engineId (Z.to_nat n) 1%Z [] i) as (rs & Hrun & Hmap);
    [lia | lia |].
  exists rs. rewrite Hrun. change (Z.to_nat 1) with 1%nat in Hmap.
  fold (cyclesUpTo (Z.to_nat n)) in Hmap.
  split; [reflexivity |]. split; [| split].
  - rewrite <- (length_map CMAPSSSensorReading.cycle), Hmap.
    unfold cyclesUpTo. rewrite length_map, length_seq. reflexivity.
  - exact Hmap.
  - rewrite Hmap. apply cyclesUpTo_ascending.
Qed.

Lemma generate_cycles_up_to_last_date_witness :
  (0 <= 3 <= lastDatedCycle)%Z /\
  exists e rs,
    findEngine "CMAPSS-FD002-001" = Some e /\
    generateCMAPSSSensorData midpoint "CMAPSS-FD002-001" 3 0%nat
    = (Normal rs, 54%nat) /\
    List.length rs = 3%nat /\
    map CMAPSSSensorReading.cycle rs = [1; 2; 3]%Z.
Proof.
  assert (Hn : (0 <= 3 <= lastDatedCycle)%Z) by (unfold lastDatedCycle; lia).
  split; [exact Hn |].
  destruct (findEngine "CMAPSS-FD002-001") as [e |] eqn:He; [| discriminate He].
  destruct (generate_cycles_up_to_last_date midpoint "CMAPSS-FD002-001" e 3 0%nat He Hn)
    as (rs & Hrun & Hlen & Hmap & _).
  exists e, rs. repeat split; assumption.
Defined.

(** C1, as stated, fails: asked for 99,980,278 cycles of a registered
    engine, the generator throws a RangeError (the timestamp of the last
    cycle is past the largest valid date) and returns no readings. *)
Lemma generate_past_last_date_throws :
  fst (generateCMAPSSSensorData midpoint "CMAPSS-FD001-001" 99980278 0%nat)
  = Throw (RangeError "Invalid time value") /\
  ~ (exists rs,
        fst (generateCMAPSSSensorData midpoint "CMAPSS-FD001-001" 99980278 0%nat)
        = Normal rs /\
        map CMAPSSSensorReading.cycle rs = cyclesUpTo (Z.to_nat 99980278)).
Proof.
  assert (H : fst (generateCMAPSSSensorData midpoint "CMAPSS-FD001-001" 99980278 0%nat)
              = Throw (RangeError "Invalid time value")).
  { unfold generateCMAPSSSensorData.
    destruct (findEngine "CMAPSS-FD001-001") as [e |] eqn:He; [| discriminate He].
    apply cycleLoop_undated; unfold lastDatedCycle; lia. }
  split; [exact H |].
  intros (rs & Hrs & _). rewrite H in Hrs. discriminate Hrs.
Qed.

(** C2, as amended. In every reading the generator produces, the EGT
    channel is the one-decimal rounding of (T30 - 459.67) * 5 / 9 taken on
    the unrounded LPT outlet temperature T30, and the T30 channel of the
    same reading is the two-decimal rounding of that same unrounded
    value, whatever the noise draws. *)
Theorem EGT_rounds_conversion_of_raw_T30 (random : nat -> number)
    (engineId : string) (cycles : Z) (i j : nat)
    (rs : list CMAPSSSensorReading.t) (r : CMAPSSSensorReading.t) :
  generateCMAPSSSensorData random engineId cycles i = (Normal rs, j) ->
  In r rs ->
  EGT_from_raw_T30 r.
Proof.
  intros Hrun Hin.
  assert (Hall : Forall EGT_from_raw_T30 rs).
  { apply (generate_Forall EGT_from_raw_T30 random) with (2 := Hrun).
    intros engine params id cycle i' j' r' Hr'.
    exact (proj1 (sensorReading_channels _ _ _ _ _ _ _ _ Hr')). }
  rewrite Forall_forall in Hall. exact (Hall r Hin).
Qed.

Lemma EGT_rounds_conversion_of_raw_T30_witness :
  exists rs r,
    generateCMAPSSSensorData midpoint "CMAPSS-FD001-001" 1 0%nat
    = (Normal rs, 18%nat) /\
    In r rs /\ EGT_from_raw_T30 r.
Proof.
  eexists. eexists.
  split; [vm_compute; reflexivity |].
  split; [left; reflexivity |].
  eapply (EGT_rounds_conversion_of_raw_T30 midpoint "CMAPSS-FD001-001" 1 0%nat).
  - vm_compute. reflexivity.
  - left. reflexivity.
Defined.

(** C2, as stated, fails: with every noise term zero, the first reading
    of engine CMAPSS-FD001-001 has T30 = 1350.07 and EGT = 494.7, while
    (1350.07 - 459.67) * 5 / 9 is 494.666...; the two differ by more than
    0.03. *)
Lemma EGT_differs_from_conversion_of_T30_channel :
  exists r,
    generateCMAPSSSensorData midpoint "CMAPSS-FD001-001" 1 0%nat
    = (Normal [r], 18%nat) /\
    CMAPSSSensorReading.T30 r = 1350.07 /\
    CMAPSSSensorReading.EGT r = 494.7 /\
    (CMAPSSSensorReading.EGT r =? (CMAPSSSensorReading.T30 r - 459.67) * 5 / 9) = false /\
    (0.03 <? CMAPSSSensorReading.EGT r - (CMAPSSSensorReading.T30 r - 459.67) * 5 / 9)
    = true.
Proof.
  eexists. split; [vm_compute; reflexivity |].
  repeat split; vm_compute; reflexivity.
Qed.

(** C3, as amended. In every reading the generator produces, the epr
    channel is the three-decimal rounding of P24 / P2 taken on the
    unrounded pressures, and the P24 and P2 channels of the same reading
    are the two-decimal roundings of those same unrounded values. *)
Theorem epr_rounds_quotient_of_raw_pressures (random : nat -> number)
    (engineId : string) (cycles : Z) (i j : nat)
    (rs : list CMAPSSSensorReading.t) (r : CMAPSSSensorReading.t) :
  generateCMAPSSSensorData random engineId cycles i = (Normal rs, j) ->
  In r rs ->
  epr_from_raw_pressures r.
Proof.
  intros Hrun Hin.
  assert (Hall : Forall epr_from_raw_pressures rs).
  { apply (generate_Forall epr_from_raw_pressures random) with (2 := Hrun).
    intros engine params id cycle i' j' r' Hr'.
    exact (proj2 (sensorReading_channels _ _ _ _ _ _ _ _ Hr')). }
  rewrite Forall_forall in Hall. exact (Hall r Hin).
Qed.

Lemma epr_rounds_quotient_of_raw_pressures_witness :
  exists rs r,
    generateCMAPSSSensorData midpoint "CMAPSS-FD004-001" 2 0%nat
    = (Normal rs, 36%nat) /\
    In r rs /\ epr_from_raw_pressures r.
Proof.
  eexists. eexists.
  split; [vm_compute; reflexivity |].
  split; [right; left; reflexivity |].
  eapply (epr_rounds_quotient_of_raw_pressures midpoint "CMAPSS-FD004-001" 2 0%nat).
  - vm_compute. reflexivity.
  - right. left. reflexivity.
Defined.

(** C3, as stated, fails: with every noise term zero, the first reading
    of engine CMAPSS-FD001-001 has P24 = 593.12, P2 = 14.62 and
    epr = 40.569, while 593.12 / 14.62 is 40.56908...; the quotient of the
    two channels is not the epr channel. *)
Lemma epr_differs_from_quotient_of_channels :
  exists r,
    generateCMAPSSSensorData midpoint "CMAPSS-FD001-001" 1 0%nat
    = (Normal [r], 18%nat) /\
    CMAPSSSensorReading.P24 r = 593.12 /\
    CMAPSSSensorReading.P2 r = 14.62 /\
    CMAPSSSensorReading.epr r = 40.569 /\
    (CMAPSSSensorReading.epr r =? CMAPSSSensorReading.P24 r / CMAPSSSensorReading.P2 r)
    = false /\
    (CMAPSSSensorReading.epr r <? CMAPSSSensorReading.P24 r / CMAPSSSensorReading.P2 r)
    = true.
Proof.
  eexists. split; [vm_compute; reflexivity |].
  repeat split; vm_compute; reflexivity.
Qed.

(* ================================================================== *)
(** ** The performance metrics *)
(* ================================================================== *)

Section MetricsFacts.

Variable random : nat -> number.
Variable engine : CMAPSSEngine.t.
Variable params : DatasetParams.
Variable engineId : string.

(** The EGT and fuelFlow channels of a reading, in terms of the third,
    seventh and tenth draw of its cycle. *)
Lemma sensorReading_EGT_fuelFlow (cycle : Z) (i j : nat) (r : CMAPSSSensorReading.t) :
  sensorReading random engine params engineId cycle i = (Normal r, j) ->
  let hf := healthFactorAt engine cycle in
  let tv := tempVariation params in
  CMAPSSSensorReading.EGT r
  = Number (toFixed
      ((1350 + (random (2 + i)%nat - 0.5) * tv * 15 + (1 - hf) * 30 - 459.67) * 5 / 9) 1)
  /\
  CMAPSSSensorReading.fuelFlow r
  = Number (toFixed
      ((0.03 + (random (9 + i)%nat - 0.5) * 0.02 * 0.002 + (1 - hf) * 0.005)
       * (1400 + (random (6 + i)%nat - 0.5) * tv * 30 + (1 - hf) * 60) * 0.1) 0).
Proof.
  unfold sensorReading, cycleNoise, noise, Math_random, bind, ret, lift,
    toISOString, healthFactorAt.
  destruct (Date_of_time _) as [t |]; intros H; [| discriminate H].
  injection H as Hr _. subst r. split; reflexivity.
Qed.

(** The loop, unrolled at its last iteration. *)
Lemma cycleLoop_snoc (trips : nat) :
  forall (cycle : Z) (readings : list CMAPSSSensorReading.t) (i : nat),
    cycleLoop random engine params engineId (S trips) cycle readings i
    = match cycleLoop random engine params engineId trips cycle readings i with
      | (Normal rs, j) =>
          match sensorReading random engine params engineId
                  (cycle + Z.of_nat trips)%Z j with
          | (Normal r, k) => (Normal (rs ++ [r])%list, k)
          | (Throw e, k) => (Throw e, k)
          end
      | (Throw e, j) => (Throw e, j)
      end.
Proof.
  induction trips as [| trips IH]; intros cycle readings i.
  - rewrite cycleLoop_step. cbn [cycleLoop Z.of_nat]. unfold ret.
    rewrite Z.add_0_r.
    destruct (sensorReading random engine params engineId cycle i) as [[r | e] j];
      reflexivity.
  - rewrite cycleLoop_step.
    rewrite (cycleLoop_step random engine params engineId trips cycle readings i).
    destruct (sensorReading random engine params engineId cycle i) as [[r | e] j];
      [| reflexivity].
    rewrite IH.
    replace (cycle + 1 + Z.of_nat trips)%Z with (cycle + Z.of_nat (S trips))%Z by lia.
    reflexivity.
Qed.

End MetricsFacts.

Lemma lastReading_snoc (rs : list CMAPSSSensorReading.t) (r : CMAPSSSensorReading.t) :
  lastReading (rs ++ [r]) = Some r.
Proof.
  unfold lastReading. rewrite length_app. cbn [List.length].
  replace (List.length rs + 1 - 1)%nat with (List.length rs) by lia.
  rewrite nth_error_app2 by lia. rewrite Nat.sub_diag. reflexivity.
Qed.

(** Every registered engine is steady at cycle 10, the cycle of the
    reading the metrics are derived from. *)
Lemma registry_steady (e : CMAPSSEngine.t) :
  In e cmapssEngines ->
  steady (healthFactorAt e 10)
         (tempVariation (datasetParams (CMAPSSEngine.dataset e))) = true.
Proof.
  assert (Hall : forallb
                   (fun e => steady (healthFactorAt e 10)
                               (tempVariation (datasetParams (CMAPSSEngine.dataset e))))
                   cmapssEngines = true) by (vm_compute; reflexivity).
  rewrite forallb_forall in Hall. exact (Hall e).
Qed.

(** C9. For every registered id and every sequence of draws that
    [Math.random] can return (each in [0, 1)), the metrics derivation
    completes normally with a metrics object whose fuelEfficiency is at
    least 0.7 and whose thermalEfficiency is at least 0.75. *)
Theorem metrics_efficiency_floors (random : nat -> number)
    (engineId : string) (e : CMAPSSEngine.t) (i : nat) :
  unit_interval random ->
  findEngine engineId = Some e ->
  exists m j,
    getCMAPSSPerformanceMetrics random engineId i = (Normal (Some m), j) /\
    (0.7 <=? PerformanceMetrics.fuelEfficiency m) = true /\
    (0.75 <=? PerformanceMetrics.thermalEfficiency m) = true.
Proof.
  intros Hrandom He.
  pose proof (findEngine_sound _ _ He) as [Hin _].
  set (params := datasetParams (CMAPSSEngine.dataset e)).
  (* the ten cycles run, and the last reading is the one of cycle 10 *)
  destruct (cycleLoop_dated random e params engineId 9 1%Z [] i)
    as (rs & Hrs & _); [lia | unfold lastDatedCycle; lia |].
  destruct (sensorReading_dated random e params engineId 10%Z (i + 18 * 9)%nat)
    as (r & Hr & _); [unfold lastDatedCycle; lia |].
  assert (Hrun : generateCMAPSSSensorData random engineId 10 i
                 = (Normal (rs ++ [r])%list, (i + 18 * 9 + 18)%nat)).
  { unfold generateCMAPSSSensorData. rewrite He. fold params.
    change (Z.to_nat 10) with 10%nat.
    rewrite cycleLoop_snoc, Hrs. change (1 + Z.of_nat 9)%Z with 10%Z.
    rewrite Hr. reflexivity. }
  (* its EGT and fuelFlow channels are numbers *)
  destruct (sensorReading_EGT_fuelFlow random e params engineId _ _ _ _ Hr)
    as [HEGT Hfuel].
  destruct (steady_channels (healthFactorAt e 10) (tempVariation params)
              (random (2 + (i + 18 * 9))%nat) (random (6 + (i + 18 * 9))%nat)
              (random (9 + (i + 18 * 9))%nat)) as [HnE Hnf];
    try (apply unit_interval_below; apply Hrandom).
  { apply registry_steady. exact Hin. }
  rewrite <- HEGT in HnE. rewrite <- Hfuel in Hnf.
  (* the floors survive the clamp and the rounding *)
  unfold getCMAPSSPerformanceMetrics, bind. rewrite He, Hrun, lastReading_snoc.
  unfold ret. do 2 eexists. split; [reflexivity |].
  cbn [PerformanceMetrics.fuelEfficiency PerformanceMetrics.thermalEfficiency].
  split.
  - apply toFixed3_keeps_070. apply Math_max_floor.
    + vm_compute. reflexivity.
    + not_nan_tac.
    + vm_compute. reflexivity.
  - apply toFixed3_keeps_075. apply Math_max_floor.
    + vm_compute. reflexivity.
    + not_nan_tac.
    + vm_compute. reflexivity.
Qed.

Lemma metrics_efficiency_floors_witness :
  unit_interval midpoint /\
  exists e m j,
    findEngine "CMAPSS-FD004-002" = Some e /\
    getCMAPSSPerformanceMetrics midpoint "CMAPSS-FD004-002" 0%nat
    = (Normal (Some m), j) /\
    (0.7 <=? PerformanceMetrics.fuelEfficiency m) = true /\
    (0.75 <=? PerformanceMetrics.thermalEfficiency m) = true.
Proof.
  assert (Hmid : unit_interval midpoint).
  { intros i. unfold midpoint. split; vm_compute; reflexivity. }
  split; [exact Hmid |].
  destruct (findEngine "CMAPSS-FD004-002") as [e |] eqn:He; [| discriminate He].
  destruct (metrics_efficiency_floors midpoint "CMAPSS-FD004-002" e 0%nat Hmid He)
    as (m & j & Hm).
  exists e, m, j. split; [reflexivity | exact Hm].
Defined.

(* ================================================================== *)
(** ** More of the sensor series generator *)
(* ================================================================== *)

Section StampFacts.

Variable random : nat -> number.
Variable engine : CMAPSSEngine.t.
Variable params : DatasetParams.
Variable engineId : string.

(** One pass of the loop body, on any cycle: either its date is valid
    and the pass pushes a reading after 18 draws, or it throws after 10. *)
Lemma sensorReading_cases (cycle : Z) (i : nat) :
  let t := (getTime_2024_01_01 + cycle * 86400000)%Z in
  ((Z.abs t <= 8640000000000000)%Z /\
   exists r,
     sensorReading random engine params engineId cycle i = (Normal r, (i + 18)%nat) /\
     CMAPSSSensorReading.timestamp r = t /\
     CMAPSSSensorReading.engineId r = engineId /\
     CMAPSSSensorReading.cycle r = cycle /\
     CMAPSSSensorReading.ambientTemp r
     = Number (toFixed (15 - altitudeBase params * 0.0065) 1)) \/
  ((8640000000000000 < Z.abs t)%Z /\
   sensorReading random engine params engineId cycle i
   = (Throw (RangeError "Invalid time value"), (i + 10)%nat)).
Proof.
  intros t. subst t.
  unfold sensorReading, cycleNoise, noise, Math_random, bind, ret, lift,
    toISOString, Date_of_time, getTime_2024_01_01.
  replace (cycle * 86400000)%Z with (cycle * 24 * 60 * 60 * 1000)%Z by lia.
  destruct (Z.leb_spec (Z.abs (1704067200000 + cycle * 24 * 60 * 60 * 1000))
              8640000000000000) as [Hok | Hbad].
  - left. split; [exact Hok |].
    replace (i + 18)%nat with (Nat.iter 18 S i) by (cbn [Nat.iter nat_rect]; lia).
    eexists. split; [reflexivity |].
    cbn [CMAPSSSensorReading.timestamp CMAPSSSensorReading.engineId
         CMAPSSSensorReading.cycle CMAPSSSensorReading.ambientTemp].
    repeat split; reflexivity.
  - right. split; [exact Hbad |].
    replace (i + 10)%nat with (10 + i)%nat by lia. reflexivity.
Qed.

Lemma sensorReading_stamp (cycle : Z) (i j : nat) (r : CMAPSSSensorReading.t) :
  sensorReading random engine params engineId cycle i = (Normal r, j) ->
  CMAPSSSensorReading.timestamp r = (getTime_2024_01_01 + cycle * 86400000)%Z /\
  (Z.abs (CMAPSSSensorReading.timestamp r) <= 8640000000000000)%Z /\
  CMAPSSSensorReading.engineId r = engineId /\
  CMAPSSSensorReading.cycle r = cycle /\
  CMAPSSSensorReading.ambientTemp r
  = Number (toFixed (15 - altitudeBase params * 0.0065) 1).
Proof.
  intros H.
  destruct (sensorReading_cases cycle i) as [(Hok & r0 & Hr0 & Ht & Hrest) | (_ & Hthrow)].
  - rewrite Hr0 in H. injection H as <- _.
    split; [exact Ht |]. split; [rewrite Ht; exact Hok | exact Hrest].
  - rewrite Hthrow in H. discriminate H.
Qed.

End StampFacts.

Section StampLoop.

Variable random : nat -> number.
Variable engine : CMAPSSEngine.t.
Variable params : DatasetParams.
Variable engineId : string.

(** Asked to go past the last valid date, the loop throws in the pass of
    the first undated cycle, after the ten draws of its channels. *)
Lemma cycleLoop_undated_state (trips : nat) :
  forall (cycle : Z) (readings : list CMAPSSSensorReading.t) (i : nat),
    (1 <= cycle <= lastDatedCycle + 1)%Z ->
    (lastDatedCycle < cycle + Z.of_nat trips - 1)%Z ->
    cycleLoop random engine params engineId trips cycle readings i
    = (Throw (RangeError "Invalid time value"),
       (i + 18 * Z.to_nat (lastDatedCycle + 1 - cycle) + 10)%nat).
Proof.
  induction trips as [| trips IH]; intros cycle readings i Hc Hpast.
  - lia.
  - rewrite cycleLoop_step.
    destruct (Z.eq_dec cycle (lastDatedCycle + 1)) as [Heq | Hne].
    + rewrite sensorReading_undated by lia.
      f_equal. subst cycle. rewrite Z.sub_diag. cbn [Z.to_nat]. lia.
    + destruct (sensorReading_dated random engine params engineId cycle i)
        as (r & Hr & _); [lia |].
      rewrite Hr. rewrite IH by lia. f_equal.
      replace (lastDatedCycle + 1 - cycle)%Z
        with (Z.succ (lastDatedCycle + 1 - (cycle + 1)))%Z by lia.
      rewrite Z2Nat.inj_succ by lia. lia.
Qed.

End StampLoop.

Lemma generate_undated (random : nat -> number) (engineId : string)
    (e : CMAPSSEngine.t) (n : Z) (i : nat) :
  findEngine engineId = Some e ->
  (lastDatedCycle < n)%Z ->
  generateCMAPSSSensorData random engineId n i
  = (Throw (RangeError "Invalid time value"),
     (i + 18 * Z.to_nat lastDatedCycle + 10)%nat).
Proof.
  intros He Hn. unfold generateCMAPSSSensorData. rewrite He.
  rewrite cycleLoop_undated_state; [| unfold lastDatedCycle; lia | lia].
  replace (lastDatedCycle + 1 - 1)%Z with lastDatedCycle by lia. reflexivity.
Qed.

(** A property of every reading the body can push for the engine and the
    id at hand holds of every reading of the series. *)
Lemma generate_Forall_of (P : CMAPSSSensorReading.t -> Prop) (random : nat -> number)
    (engineId : string) (e : CMAPSSEngine.t) :
  findEngine engineId = Some e ->
  (forall cycle i j r,
      sensorReading random e (datasetParams (CMAPSSEngine.dataset e)) engineId cycle i
      = (Normal r, j) -> P r) ->
  forall (cycles : Z) (i j : nat) rs,
    generateCMAPSSSensorData random engineId cycles i = (Normal rs, j) ->
    Forall P rs.
Proof.
  intros He Hbody cycles i j rs. unfold generateCMAPSSSensorData. rewrite He.
  intros Hrun.
  eapply cycleLoop_Forall; [| exact Hrun | constructor].
  exact Hbody.
Qed.

(** X1. For a registered id and a cycle count past the last dated cycle, the
    generator does not return: it throws the RangeError of [toISOString] in
    the pass of cycle 99,980,278, after the 18 draws of each dated cycle
    and the 10 draws of the channels of that pass. *)
Theorem series_throws_past_last_date (random : nat -> number)
    (engineId : string) (e : CMAPSSEngine.t) (n : Z) (i : nat) :
  findEngine engineId = Some e ->
  (lastDatedCycle < n)%Z ->
  generateCMAPSSSensorData random engineId n i
  = (Throw (RangeError "Invalid time value"),
     (i + 18 * Z.to_nat lastDatedCycle + 10)%nat).
Proof.
  intros He Hn. unfold generateCMAPSSSensorData. rewrite He.
  rewrite cycleLoop_undated_state; [| unfold lastDatedCycle; lia | lia].
  replace (lastDatedCycle + 1 - 1)%Z with lastDatedCycle by lia. reflexivity.
Qed.

Lemma series_throws_past_last_date_witness :
  (lastDatedCycle < 100000000)%Z /\
  exists e,
    findEngine "CMAPSS-FD003-001" = Some e /\
    generateCMAPSSSensorData midpoint "CMAPSS-FD003-001" 100000000 0%nat
    = (Throw (RangeError "Invalid time value"),
       (0 + 18 * Z.to_nat lastDatedCycle + 10)%nat).
Proof.
  assert (Hn : (lastDatedCycle < 100000000)%Z) by (unfold lastDatedCycle; lia).
  split; [exact Hn |].
  destruct (findEngine "CMAPSS-FD003-001") as [e |] eqn:He; [| discriminate He].
  exists e. split; [reflexivity |].
  exact (series_throws_past_last_date midpoint "CMAPSS-FD003-001" e 100000000 0%nat He Hn).
Defined.

(** X2. Every reading of a series that the generator returns carries the
    id that was asked for, and its timestamp is 2024-01-01T00:00:00Z plus
    one day per cycle, a valid time value. *)
Theorem generate_stamps_readings (random : nat -> number)
    (engineId : string) (cycles : Z) (i j : nat)
    (rs : list CMAPSSSensorReading.t) (r : CMAPSSSensorReading.t) :
  generateCMAPSSSensorData random engineId cycles i = (Normal rs, j) ->
  In r rs ->
  CMAPSSSensorReading.engineId r = engineId /\
  CMAPSSSensorReading.timestamp r
  = (getTime_2024_01_01 + CMAPSSSensorReading.cycle r * 86400000)%Z /\
  (Z.abs (CMAPSSSensorReading.timestamp r) <= 8640000000000000)%Z.
Proof.
  intros Hrun Hin.
  destruct (findEngine engineId) as [e |] eqn:He.
  - assert (Hall : Forall
                     (fun r => CMAPSSSensorReading.engineId r = engineId /\
                               CMAPSSSensorReading.timestamp r
                               = (getTime_2024_01_01
                                  + CMAPSSSensorReading.cycle r * 86400000)%Z /\
                               (Z.abs (CMAPSSSensorReading.timestamp r)
                                <= 8640000000000000)%Z) rs).
    { apply (generate_Forall_of _ random engineId e He) with (2 := Hrun).
      intros cycle i' j' r' Hr'.
      destruct (sensorReading_stamp _ _ _ _ _ _ _ _ Hr') as (Ht & Hv & Hid & Hc & _).
      rewrite Hc. repeat split; assumption. }
    rewrite Forall_forall in Hall. exact (Hall r Hin).
  - unfold generateCMAPSSSensorData in Hrun. rewrite He in Hrun.
    unfold ret in Hrun. injection Hrun as <- _. contradiction.
Qed.

Lemma generate_stamps_readings_witness :
  exists rs r,
    generateCMAPSSSensorData midpoint "CMAPSS-FD002-002" 2 0%nat = (Normal rs, 36%nat) /\
    In r rs /\
    CMAPSSSensorReading.engineId r = "CMAPSS-FD002-002" /\
    CMAPSSSensorReading.timestamp r = 1704240000000%Z.
Proof.
  eexists. eexists.
  split; [vm_compute; reflexivity |].
  split; [right; left; reflexivity |].
  destruct (generate_stamps_readings midpoint "CMAPSS-FD002-002" 2 0%nat 36%nat _ _
              ltac:(vm_compute; reflexivity) ltac:(right; left; reflexivity))
    as (Hid & Ht & _).
  split; [exact Hid | exact Ht].
Defined.

(** X3. The ambientTemp channel of every reading of a registered engine is
    fixed by the dataset of the engine, whatever the cycle and the draws:
    15 for FD001 and FD003, -147.5 for FD002, -180 for FD004. *)
Theorem ambientTemp_fixed_by_dataset (random : nat -> number)
    (engineId : string) (e : CMAPSSEngine.t) (cycles : Z) (i j : nat)
    (rs : list CMAPSSSensorReading.t) (r : CMAPSSSensorReading.t) :
  findEngine engineId = Some e ->
  generateCMAPSSSensorData random engineId cycles i = (Normal rs, j) ->
  In r rs ->
  CMAPSSSensorReading.ambientTemp r
  = match CMAPSSEngine.dataset e with
    | FD001 | FD003 => 15
    | FD002 => -147.5
    | FD004 => -180
    end.
Proof.
  intros He Hrun Hin.
  assert (Hall : Forall
                   (fun r => CMAPSSSensorReading.ambientTemp r
                             = match CMAPSSEngine.dataset e with
                               | FD001 | FD003 => 15
                               | FD002 => -147.5
                               | FD004 => -180
                               end) rs).
  { apply (generate_Forall_of _ random engineId e He) with (2 := Hrun).
    intros cycle i' j' r' Hr'.
    destruct (sensorReading_stamp _ _ _ _ _ _ _ _ Hr') as (_ & _ & _ & _ & Ha).
    rewrite Ha. destruct (CMAPSSEngine.dataset e); vm_compute; reflexivity. }
  rewrite Forall_forall in Hall. exact (Hall r Hin).
Qed.

Lemma ambientTemp_fixed_by_dataset_witness :
  exists e rs r,
    findEngine "CMAPSS-FD004-001" = Some e /\
    generateCMAPSSSensorData midpoint "CMAPSS-FD004-001" 1 0%nat = (Normal rs, 18%nat) /\
    In r rs /\
    CMAPSSSensorReading.ambientTemp r = -180.
Proof.
  destruct (findEngine "CMAPSS-FD004-001") as [e |] eqn:He; [| discriminate He].
  exists e. eexists. eexists.
  split; [reflexivity |].
  split; [vm_compute; reflexivity |].
  split; [left; reflexivity |].
  rewrite (ambientTemp_fixed_by_dataset midpoint "CMAPSS-FD004-001" e 1 0%nat 18%nat _ _ He
             ltac:(vm_compute; reflexivity) ltac:(left; reflexivity)).
  injection He as <-. reflexivity.
Defined.

(* ================================================================== *)
(** ** The history *)
(* ================================================================== *)

Section HistoryFacts.

Variable random : nat -> number.

(** The points follow the readings one for one; point [k] takes the
    [k]-th draw made after the series was generated. *)
Lemma historyPoints_spec (days : Z) (rs : list CMAPSSSensorReading.t) :
  forall (index : Z) (j : nat),
  exists ps,
    historyPoints random days index rs j = (Normal ps, (j + List.length rs)%nat) /\
    map HistoricalPoint.date ps = map CMAPSSSensorReading.timestamp rs /\
    map HistoricalPoint.cycles ps = map CMAPSSSensorReading.cycle rs /\
    map HistoricalPoint.temperature ps = map CMAPSSSensorReading.EGT rs /\
    map HistoricalPoint.vibration ps = map CMAPSSSensorReading.vibration rs /\
    map HistoricalPoint.fuelEfficiency ps
    = map (fun r => CMAPSSSensorReading.fuelFlow r / 3000) rs /\
    map HistoricalPoint.healthScore ps
    = map (fun k => Math_round (95 - of_Z (index + Z.of_nat k) / of_Z days * 10
                                + random (j + k)%nat * 5))
          (seq 0 (List.length rs)).
Proof.
  induction rs as [| r rs IH]; intros index j.
  - exists []. cbn [historyPoints List.length map seq]. unfold ret.
    rewrite Nat.add_0_r. repeat split; reflexivity.
  - destruct (IH (index + 1)%Z (S j)) as (ps & Hrun & Hd & Hc & Ht & Hv & Hf & Hh).
    cbn [historyPoints]. unfold bind at 1. unfold Math_random at 1.
    unfold bind. rewrite Hrun. unfold ret.
    eexists. split; [f_equal; cbn [List.length]; lia |].
    cbn [map List.length seq HistoricalPoint.date HistoricalPoint.cycles
         HistoricalPoint.temperature HistoricalPoint.vibration
         HistoricalPoint.fuelEfficiency HistoricalPoint.healthScore].
    rewrite Hd, Hc, Ht, Hv, Hf, Hh.
    repeat split; try reflexivity.
    rewrite Z.add_0_r, Nat.add_0_r. f_equal.
    rewrite <- seq_shift, map_map. apply map_ext. intros k.
    replace (index + 1 + Z.of_nat k)%Z with (index + Z.of_nat (S k))%Z by lia.
    replace (S j + k)%nat with (j + S k)%nat by lia. reflexivity.
Qed.

End HistoryFacts.

(** X4. For an id that is not in the registry, the history is empty
    whatever the number of days, and no random number is drawn. *)
Theorem history_unknown_id_empty (random : nat -> number)
    (engineId : string) (days : Z) (i : nat) :
  findEngine engineId = None ->
  generateHistoricalData random engineId days i = (Normal [], i).
Proof.
  intros H. unfold generateHistoricalData, bind, generateCMAPSSSensorData.
  rewrite H. reflexivity.
Qed.

Lemma history_unknown_id_empty_witness :
  findEngine "unknown-id" = None /\
  generateHistoricalData midpoint "unknown-id" 30 0%nat = (Normal [], 0%nat).
Proof.
  split; [reflexivity |].
  apply (history_unknown_id_empty midpoint "unknown-id" 30 0%nat). reflexivity.
Defined.

(** X5. When the generator returns a series, the history has one point per
    reading, in order: the point takes the timestamp, the cycle, the EGT
    and the vibration of its reading, its fuelEfficiency is the fuelFlow
    of the reading over 3000, and the health score of point k is
    Math.round(95 - k / days * 10 + r * 5), where r is the k-th number
    drawn after the series was generated. *)
Theorem history_follows_readings (random : nat -> number)
    (engineId : string) (days : Z) (i j : nat) (rs : list CMAPSSSensorReading.t) :
  generateCMAPSSSensorData random engineId days i = (Normal rs, j) ->
  exists ps,
    generateHistoricalData random engineId days i
    = (Normal ps, (j + List.length rs)%nat) /\
    map HistoricalPoint.date ps = map CMAPSSSensorReading.timestamp rs /\
    map HistoricalPoint.cycles ps = map CMAPSSSensorReading.cycle rs /\
    map HistoricalPoint.temperature ps = map CMAPSSSensorReading.EGT rs /\
    map HistoricalPoint.vibration ps = map CMAPSSSensorReading.vibration rs /\
    map HistoricalPoint.fuelEfficiency ps
    = map (fun r => CMAPSSSensorReading.fuelFlow r / 3000) rs /\
    map HistoricalPoint.healthScore ps
    = map (fun k => Math_round (95 - of_Z (Z.of_nat k) / of_Z days * 10
                                + random (j + k)%nat * 5))
          (seq 0 (List.length rs)).
Proof.
  intros Hrun.
  destruct (historyPoints_spec random days rs 0%Z j) as (ps & Hps & Hrest).
  exists ps. split; [| exact Hrest].
  unfold generateHistoricalData, bind. rewrite Hrun. exact Hps.
Qed.

Lemma history_follows_readings_witness :
  exists rs ps,
    generateCMAPSSSensorData midpoint "CMAPSS-FD001-002" 2 0%nat = (Normal rs, 36%nat) /\
    generateHistoricalData midpoint "CMAPSS-FD001-002" 2 0%nat = (Normal ps, 38%nat) /\
    map HistoricalPoint.temperature ps = map CMAPSSSensorReading.EGT rs /\
    map HistoricalPoint.healthScore ps = [98; 93].
Proof.
  eexists.
  destruct (history_follows_readings midpoint "CMAPSS-FD001-002" 2 0%nat 36%nat _
              ltac:(vm_compute; reflexivity))
    as (ps & Hrun & _ & _ & Ht & _ & _ & Hh).
  exists ps. split; [vm_compute; reflexivity |].
  split; [exact Hrun |]. split; [exact Ht |].
  rewrite Hh. vm_compute. reflexivity.
Defined.

(** X6. For a registered id and 0 <= days <= 99,980,277, the history has
    exactly [days] points, for the cycles 1, ..., days and the instants one
    day apart after 2024-01-01, and its derivation draws 19 random numbers
    per day: 18 per reading first, then one per point. *)
Theorem history_days_up_to_last_date (random : nat -> number)
    (engineId : string) (e : CMAPSSEngine.t) (days : Z) (i : nat) :
  findEngine engineId = Some e ->
  (0 <= days <= lastDatedCycle)%Z ->
  exists ps,
    generateHistoricalData random engineId days i
    = (Normal ps, (i + 19 * Z.to_nat days)%nat) /\
    List.length ps = Z.to_nat days /\
    map HistoricalPoint.cycles ps = cyclesUpTo (Z.to_nat days) /\
    map HistoricalPoint.date ps
    = map (fun c => (getTime_2024_01_01 + c * 86400000)%Z) (cyclesUpTo (Z.to_nat days)) /\
    map HistoricalPoint.healthScore ps
    = map (fun k => Math_round (95 - of_Z (Z.of_nat k) / of_Z days * 10
                                + random (i + 18 * Z.to_nat days + k)%nat * 5))
          (seq 0 (Z.to_nat days)).
Proof.
  intros He Hn.
  destruct (cycleLoop_dated random e (datasetParams (CMAPSSEngine.dataset e))
              engineId (Z.to_nat days) 1%Z [] i) as (rs & Hloop & Hmap);
    [lia | lia |].
  change (Z.to_nat 1) with 1%nat in Hmap. fold (cyclesUpTo (Z.to_nat days)) in Hmap.
  assert (Hrun : generateCMAPSSSensorData random engineId days i
                 = (Normal rs, (i + 18 * Z.to_nat days)%nat)).
  { unfold generateCMAPSSSensorData. rewrite He. exact Hloop. }
  assert (Hlen : List.length rs = Z.to_nat days).
  { rewrite <- (length_map CMAPSSSensorReading.cycle), Hmap.
    unfold cyclesUpTo. rewrite length_map, length_seq. reflexivity. }
  assert (Hstamp : map CMAPSSSensorReading.timestamp rs
                   = map (fun c => (getTime_2024_01_01 + c * 86400000)%Z)
                       (map CMAPSSSensorReading.cycle rs)).
  { rewrite map_map. apply map_ext_in. intros r Hin.
    assert (Hall : Forall
                     (fun r => CMAPSSSensorReading.timestamp r
                               = (getTime_2024_01_01
                                  + CMAPSSSensorReading.cycle r * 86400000)%Z) rs).
    { apply (generate_Forall_of _ random engineId e He) with (2 := Hrun).
      intros cycle i' j' r' Hr'.
      destruct (sensorReading_stamp _ _ _ _ _ _ _ _ Hr') as (Ht & _ & _ & Hc & _).
      rewrite Hc. exact Ht. }
    rewrite Forall_forall in Hall. exact (Hall r Hin). }
  destruct (historyPoints_spec random days rs 0%Z (i + 18 * Z.to_nat days)%nat)
    as (ps & Hps & Hd & Hc & _ & _ & _ & Hh).
  exists ps. split; [| split; [| split; [| split]]].
  - unfold generateHistoricalData, bind. rewrite Hrun, Hps. f_equal. lia.
  - rewrite <- (length_map HistoricalPoint.cycles), Hc, length_map. exact Hlen.
  - rewrite Hc. exact Hmap.
  - rewrite Hd, Hstamp, Hmap. reflexivity.
  - rewrite Hh, Hlen. reflexivity.
Qed.

Lemma history_days_up_to_last_date_witness :
  (0 <= 3 <= lastDatedCycle)%Z /\
  exists e ps,
    findEngine "CMAPSS-FD003-002" = Some e /\
    generateHistoricalData midpoint "CMAPSS-FD003-002" 3 0%nat = (Normal ps, 57%nat) /\
    map HistoricalPoint.cycles ps = [1; 2; 3]%Z /\
    map HistoricalPoint.date ps = [1704153600000; 1704240000000; 1704326400000]%Z.
Proof.
  assert (Hn : (0 <= 3 <= lastDatedCycle)%Z) by (unfold lastDatedCycle; lia).
  split; [exact Hn |].
  destruct (findEngine "CMAPSS-FD003-002") as [e |] eqn:He; [| discriminate He].
  destruct (history_days_up_to_last_date midpoint "CMAPSS-FD003-002" e 3 0%nat He Hn)
    as (ps & Hrun & _ & Hc & Hd & _).
  exists e, ps. repeat split; assumption.
Defined.

(** X7. For a registered id and more days than the last dated cycle, the
    history throws the RangeError of the generator, and no point is
    computed. *)
Theorem history_throws_past_last_date (random : nat -> number)
    (engineId : string) (e : CMAPSSEngine.t) (days : Z) (i : nat) :
  findEngine engineId = Some e ->
  (lastDatedCycle < days)%Z ->
  generateHistoricalData random engineId days i
  = (Throw (RangeError "Invalid time value"),
     (i + 18 * Z.to_nat lastDatedCycle + 10)%nat).
Proof.
  intros He Hn. unfold generateHistoricalData, bind.
  rewrite (generate_undated random engineId e days i He Hn). reflexivity.
Qed.

Lemma history_throws_past_last_date_witness :
  (lastDatedCycle < 99980278)%Z /\
  exists e,
    findEngine "CMAPSS-FD001-003" = Some e /\
    generateHistoricalData midpoint "CMAPSS-FD001-003" 99980278 0%nat
    = (Throw (RangeError "Invalid time value"),
       (0 + 18 * Z.to_nat lastDatedCycle + 10)%nat).
Proof.
  assert (Hn : (lastDatedCycle < 99980278)%Z) by (unfold lastDatedCycle; lia).
  split; [exact Hn |].
  destruct (findEngine "CMAPSS-FD001-003") as [e |] eqn:He; [| discriminate He].
  exists e. split; [reflexivity |].
  exact (history_throws_past_last_date midpoint "CMAPSS-FD001-003" e 99980278 0%nat He Hn).
Defined.

(* ================================================================== *)
(** ** The consumers on the registry *)
(* ================================================================== *)

(** The first cycle of a registered engine always has a valid date. *)
Lemma generate_one_cycle (random : nat -> number) (engineId : string)
    (e : CMAPSSEngine.t) (i : nat) :
  findEngine engineId = Some e ->
  exists r,
    generateCMAPSSSensorData random engineId 1 i = (Normal [r], (i + 18)%nat) /\
    CMAPSSSensorReading.timestamp r = 1704153600000%Z /\
    CMAPSSSensorReading.engineId r = engineId /\
    CMAPSSSensorReading.cycle r = 1%Z.
Proof.
  intros He.
  destruct (sensorReading_cases random e (datasetParams (CMAPSSEngine.dataset e))
              engineId 1%Z i) as [(_ & r & Hr & Ht & Hid & Hc & _) | (Hbad & _)].
  - exists r. split; [| repeat split; assumption].
    unfold generateCMAPSSSensorData. rewrite He.
    change (Z.to_nat 1) with 1%nat. rewrite cycleLoop_step, Hr. reflexivity.
  - unfold getTime_2024_01_01 in Hbad. lia.
Qed.

(** What the assessment of a registered engine holds for the component
    breakdown and the alerts. *)
Lemma registry_assessment (engineId : string) (e : CMAPSSEngine.t) :
  findEngine engineId = Some e ->
  exists h,
    generateCMAPSSHealthData engineId = Normal h /\
    CMAPSSHealthData.healthScore h = CMAPSSEngine.healthScore e /\
    (0.3 <? CMAPSSHealthData.faultProbability h) = false /\
    includes (CMAPSSHealthData.criticalComponents h) "High Pressure Compressor" = true /\
    (CMAPSSHealthData.healthScore h <? 60) = false.
Proof.
  intros H. apply findEngine_sound in H. destruct H as [Hin Hid].
  subst engineId. unfold cmapssEngines in Hin. simpl in Hin.
  repeat (destruct Hin as [Hin | Hin];
          [subst e; eexists; repeat split; vm_compute; reflexivity |]).
  contradiction.
Qed.

(** X8. For every registered id, whatever the draws, the metrics derive
    from a series of exactly ten cycles and cost 180 draws: the operating
    temperature, vibration level, pressure ratio, fan speed and core speed
    are the EGT, vibration, epr, N1 and N2 of the reading of cycle 10, the
    thrust output is Math.round(24000 * (healthScore / 100)), and the
    dataset, operating conditions and fault modes are the registry's. *)
Theorem metrics_from_tenth_reading (random : nat -> number)
    (engineId : string) (e : CMAPSSEngine.t) (i : nat) :
  findEngine engineId = Some e ->
  exists rs r m,
    generateCMAPSSSensorData random engineId 10 i
    = (Normal (rs ++ [r])%list, (i + 180)%nat) /\
    List.length rs = 9%nat /\
    CMAPSSSensorReading.cycle r = 10%Z /\
    getCMAPSSPerformanceMetrics random engineId i = (Normal (Some m), (i + 180)%nat) /\
    PerformanceMetrics.engineId m = engineId /\
    PerformanceMetrics.operatingTemperature m = CMAPSSSensorReading.EGT r /\
    PerformanceMetrics.vibrationLevel m = CMAPSSSensorReading.vibration r /\
    PerformanceMetrics.pressureRatio m = CMAPSSSensorReading.epr r /\
    PerformanceMetrics.fanSpeed m = CMAPSSSensorReading.N1 r /\
    PerformanceMetrics.coreSpeed m = CMAPSSSensorReading.N2 r /\
    PerformanceMetrics.thrustOutput m
    = Math_round (24000 * (CMAPSSEngine.healthScore e / 100)) /\
    PerformanceMetrics.dataset m = CMAPSSEngine.dataset e /\
    PerformanceMetrics.operationalConditions m = CMAPSSEngine.operationalConditions e /\
    PerformanceMetrics.faultModes m = CMAPSSEngine.faultModes e.
Proof.
  intros He.
  set (params := datasetParams (CMAPSSEngine.dataset e)).
  destruct (cycleLoop_dated random e params engineId 9 1%Z [] i)
    as (rs & Hrs & Hmap); [lia | unfold lastDatedCycle; lia |].
  destruct (sensorReading_dated random e params engineId 10%Z (i + 18 * 9)%nat)
    as (r & Hr & Hc); [unfold lastDatedCycle; lia |].
  assert (Hrun : generateCMAPSSSensorData random engineId 10 i
                 = (Normal (rs ++ [r])%list, (i + 180)%nat)).
  { unfold generateCMAPSSSensorData. rewrite He. fold params.
    change (Z.to_nat 10) with 10%nat.
    rewrite cycleLoop_snoc, Hrs. change (1 + Z.of_nat 9)%Z with 10%Z.
    rewrite Hr. f_equal. lia. }
  exists rs, r. eexists.
  split; [exact Hrun |].
  split; [rewrite <- (length_map CMAPSSSensorReading.cycle), Hmap;
          rewrite length_map, length_seq; reflexivity |].
  split; [exact Hc |].
  split; [unfold getCMAPSSPerformanceMetrics, bind;
          rewrite He, Hrun, lastReading_snoc; unfold ret; reflexivity |].
  cbn [PerformanceMetrics.engineId PerformanceMetrics.operatingTemperature
       PerformanceMetrics.vibrationLevel PerformanceMetrics.pressureRatio
       PerformanceMetrics.fanSpeed PerformanceMetrics.coreSpeed
       PerformanceMetrics.thrustOutput PerformanceMetrics.dataset
       PerformanceMetrics.operationalConditions PerformanceMetrics.faultModes].
  repeat split; reflexivity.
Qed.

Lemma metrics_from_tenth_reading_witness :
  exists e m,
    findEngine "CMAPSS-FD001-001" = Some e /\
    getCMAPSSPerformanceMetrics midpoint "CMAPSS-FD001-001" 0%nat
    = (Normal (Some m), 180%nat) /\
    PerformanceMetrics.thrustOutput m = 22200.
Proof.
  destruct (findEngine "CMAPSS-FD001-001") as [e |] eqn:He; [| discriminate He].
  destruct (metrics_from_tenth_reading midpoint "CMAPSS-FD001-001" e 0%nat He)
    as (rs & r & m & _ & _ & _ & Hm & _ & _ & _ & _ & _ & _ & Ht & _).
  exists e, m. split; [reflexivity |]. split; [exact Hm |].
  rewrite Ht. injection He as <-. vm_compute. reflexivity.
Defined.

(** X9. For every registered id, whatever the draws, the component
    breakdown has the five records fan, compressor, combustor, turbine,
    nozzle, in this order, and costs five draws: the health of the fan
    always takes the random branch (no registered engine has a fault
    probability over 0.3), the compressor is always at 'warning' (every
    registered engine lists the HPC degradation), the turbine is at
    'warning' exactly when the health score is below 75, and the others
    are 'normal'. *)
Theorem componentHealth_registered (random : nat -> number)
    (engineId : string) (e : CMAPSSEngine.t) (i : nat) :
  findEngine engineId = Some e ->
  exists fan compressor combustor turbine nozzle,
    getComponentHealthData random engineId i
    = (Normal [fan; compressor; combustor; turbine; nozzle], (i + 5)%nat) /\
    map ComponentHealth.id [fan; compressor; combustor; turbine; nozzle]
    = ["fan"; "compressor"; "combustor"; "turbine"; "nozzle"] /\
    map ComponentHealth.status [fan; compressor; combustor; turbine; nozzle]
    = [normal; warning; normal;
       if CMAPSSEngine.healthScore e <? 75 then warning else normal;
       normal] /\
    ComponentHealth.health fan = Math_round (90 + random i * 8) /\
    ComponentHealth.health compressor
    = Math_round (CMAPSSEngine.healthScore e - 5 + random (1 + i)%nat * 10) /\
    ComponentHealth.health combustor
    = Math_round (CMAPSSEngine.healthScore e + random (2 + i)%nat * 5) /\
    ComponentHealth.health turbine
    = Math_round (CMAPSSEngine.healthScore e - 3 + random (3 + i)%nat * 6) /\
    ComponentHealth.health nozzle = Math_round (92 + random (4 + i)%nat * 6).
Proof.
  intros He.
  destruct (registry_assessment engineId e He) as (h & Hh & Hs & Hfp & Hhpc & _).
  unfold getComponentHealthData, bind, lift. rewrite Hh, Hfp, Hhpc, Hs.
  unfold Math_random, ret.
  replace (i + 5)%nat with (5 + i)%nat by lia.
  do 5 eexists. split; [reflexivity |].
  repeat split; reflexivity.
Qed.

Lemma componentHealth_registered_witness :
  exists e cs,
    findEngine "CMAPSS-FD003-002" = Some e /\
    getComponentHealthData midpoint "CMAPSS-FD003-002" 0%nat = (Normal cs, 5%nat) /\
    map ComponentHealth.status cs = [normal; warning; normal; warning; normal] /\
    map ComponentHealth.health cs = [94; 75; 77; 75; 95].
Proof.
  destruct (findEngine "CMAPSS-FD003-002") as [e |] eqn:He; [| discriminate He].
  destruct (componentHealth_registered midpoint "CMAPSS-FD003-002" e 0%nat He)
    as (a & b & c & d & f & Hrun & _ & Hst & Ha & Hb & Hc & Hd & Hf).
  exists e. eexists. split; [reflexivity |]. split; [exact Hrun |].
  injection He as <-.
  split; [rewrite Hst; vm_compute; reflexivity |].
  cbn [map]. rewrite Ha, Hb, Hc, Hd, Hf. vm_compute. reflexivity.
Defined.

(* ================================================================== *)
(** ** The viewer *)
(* ================================================================== *)

(** X10. For an id that is not in the registry, the load of the viewer
    leaves the sensor and health data as they were, clears the loading
    flag and sets an error message: 'No engine ID provided' for the empty
    id, 'Failed to load engine data' otherwise (the Error of the
    assessment is caught).  No random number is drawn. *)
Theorem viewer_unknown_id_reports_error (random : nat -> number)
    (engineId : string) (st : ViewerState.t) (i : nat) :
  findEngine engineId = None ->
  loadEffect random engineId st i
  = ({| ViewerState.sensorData := ViewerState.sensorData st;
        ViewerState.healthData := ViewerState.healthData st;
        ViewerState.isLoading := false;
        ViewerState.error :=
          Some (if String.eqb engineId "" then "No engine ID provided"
                else "Failed to load engine data") |}, i).
Proof.
  intros H. unfold loadEffect, loadData, bind, lift, generateCMAPSSSensorData,
    generateCMAPSSHealthData.
  rewrite H. destruct (String.eqb engineId ""); reflexivity.
Qed.

Lemma viewer_unknown_id_reports_error_witness :
  findEngine "CFM56" = None /\
  loadEffect midpoint "CFM56" initialViewerState 0%nat
  = ({| ViewerState.sensorData := None;
        ViewerState.healthData := None;
        ViewerState.isLoading := false;
        ViewerState.error := Some "Failed to load engine data" |}, 0%nat).
Proof.
  split; [reflexivity |].
  apply (viewer_unknown_id_reports_error midpoint "CFM56" initialViewerState 0%nat).
  reflexivity.
Defined.

(** X11. For a registered id, the load of the viewer sets the sensor data
    to the reading of cycle 1 of a one-cycle series and the health data to
    the assessment, clears the error and the loading flag, and draws 18
    random numbers. *)
Theorem viewer_registered_id_loads (random : nat -> number)
    (engineId : string) (e : CMAPSSEngine.t) (st : ViewerState.t) (i : nat) :
  findEngine engineId = Some e ->
  exists r h,
    generateCMAPSSSensorData random engineId 1 i = (Normal [r], (i + 18)%nat) /\
    generateCMAPSSHealthData engineId = Normal h /\
    loadEffect random engineId st i
    = ({| ViewerState.sensorData := Some r;
          ViewerState.healthData := Some h;
          ViewerState.isLoading := false;
          ViewerState.error := None |}, (i + 18)%nat) /\
    CMAPSSSensorReading.cycle r = 1%Z /\
    CMAPSSHealthData.healthScore h = CMAPSSEngine.healthScore e.
Proof.
  intros He.
  destruct (generate_one_cycle random engineId e i He) as (r & Hr & _ & _ & Hc).
  destruct (registry_assessment engineId e He) as (h & Hh & Hs & _).
  exists r, h. repeat split; try assumption.
  unfold loadEffect.
  destruct (String.eqb_spec engineId "") as [-> | _]; [discriminate He |].
  unfold loadData, bind, lift. rewrite Hr, Hh. reflexivity.
Qed.

Lemma viewer_registered_id_loads_witness :
  exists e r h,
    findEngine "CMAPSS-FD002-001" = Some e /\
    loadEffect midpoint "CMAPSS-FD002-001" initialViewerState 0%nat
    = ({| ViewerState.sensorData := Some r;
          ViewerState.healthData := Some h;
          ViewerState.isLoading := false;
          ViewerState.error := None |}, 18%nat) /\
    CMAPSSSensorReading.cycle r = 1%Z.
Proof.
  destruct (findEngine "CMAPSS-FD002-001") as [e |] eqn:He; [| discriminate He].
  destruct (viewer_registered_id_loads midpoint "CMAPSS-FD002-001" e
              initialViewerState 0%nat He) as (r & h & _ & _ & Hl & Hc & _).
  exists e, r, h. repeat split; assumption.
Defined.

(* ================================================================== *)
(** ** The health card *)
(* ================================================================== *)

(** X12. For every score, NaN included, the text color and the badge
    variant of the health card fall in the same band: green with default,
    yellow with secondary, orange with outline, red with destructive. *)
Theorem health_color_matches_badge (score : number) :
  In (getHealthColor score, getHealthBadgeVariant score)
     [("text-green-600", "default"); ("text-yellow-600", "secondary");
      ("text-orange-600", "outline"); ("text-red-600", "destructive")].
Proof.
  unfold getHealthColor, getHealthBadgeVariant.
  destruct (90 <=? score); [left; reflexivity |].
  destruct (80 <=? score); [right; left; reflexivity |].
  destruct (70 <=? score); [right; right; left; reflexivity |].
  right. right. right. left. reflexivity.
Qed.

(** X13. The status color of an engine converted by
    [convertCMAPSSToEngine] is never the gray of the default case: green
    for operational, yellow for maintenance_required, red for degraded. *)
Theorem converted_engine_status_color (cmapssEngine : CMAPSSEngine.t) :
  getStatusColor
    (mockData.EngineStatus.operationalState (mockData.convertCMAPSSToEngine cmapssEngine))
  = match CMAPSSEngine.status cmapssEngine with
    | operational => "text-green-600"
    | maintenance_required => "text-yellow-600"
    | degraded => "text-red-600"
    end.
Proof.
  unfold mockData.convertCMAPSSToEngine.
  cbn [mockData.EngineStatus.operationalState].
  destruct (CMAPSSEngine.status cmapssEngine); reflexivity.
Qed.

(** X14. For every state, the class of the status icon ends with the
    status color: the icon and the label of a state are always of the
    same color, the gray of the default case included. *)
Theorem status_icon_matches_color (state : string) :
  snd (getStatusIcon state) = "h-4 w-4 " ++ getStatusColor state.
Proof.
  unfold getStatusIcon, getStatusColor.
  destruct (String.eqb state "operational"); [reflexivity |].
  destruct (String.eqb state "maintenance"); [reflexivity |].
  destruct (String.eqb state "offline"); reflexivity.
Qed.

(* ================================================================== *)
(** ** mockData: the typed readings and the alerts *)
(* ================================================================== *)

Lemma append_inj_l (s a b : string) : s ++ a = s ++ b -> a = b.
Proof.
  induction s as [| c s IH]; cbn [append]; intros H; [exact H |].
  injection H as H. exact (IH H).
Qed.

(** X15. For an id that is not in the registry, [generateSensorData] of
    mockData returns an empty array without drawing a number or reading
    the clock. *)
Theorem mock_sensor_unknown_id_empty (random : nat -> number) (clock : nat -> Z)
    (engineId : string) (i c : nat) :
  findEngine engineId = None ->
  mockData.generateSensorData random clock engineId (i, c) = (Normal [], (i, c)).
Proof.
  intros H. unfold mockData.generateSensorData, bindW, liftM,
    generateCMAPSSSensorData.
  rewrite H. reflexivity.
Qed.

Lemma mock_sensor_unknown_id_empty_witness :
  findEngine "unknown-id" = None /\
  mockData.generateSensorData midpoint (fun _ => 0%Z) "unknown-id" (0, 0)%nat
  = (Normal [], (0, 0)%nat).
Proof.
  split; [reflexivity |].
  apply (mock_sensor_unknown_id_empty midpoint (fun _ => 0%Z) "unknown-id" 0 0)%nat.
  reflexivity.
Defined.

(** X16. For a registered id, [generateSensorData] of mockData returns five
    typed readings (EGT, N1_Speed, N2_Speed, Fuel_Flow, Vibration) holding
    the five gauges of the reading of cycle 1, each with the engine id and
    the timestamp 2024-01-02T00:00:00Z, after 18 draws and 5 readings of
    the clock; the five ids are pairwise distinct whatever the clock
    returns. *)
Theorem mock_sensor_registered (random : nat -> number) (clock : nat -> Z)
    (engineId : string) (e : CMAPSSEngine.t) (i c : nat) :
  findEngine engineId = Some e ->
  exists r ss,
    generateCMAPSSSensorData random engineId 1 i = (Normal [r], (i + 18)%nat) /\
    mockData.generateSensorData random clock engineId (i, c)
    = (Normal ss, ((i + 18)%nat, (c + 5)%nat)) /\
    map mockData.SensorReading.sensorType ss
    = ["EGT"; "N1_Speed"; "N2_Speed"; "Fuel_Flow"; "Vibration"] /\
    map mockData.SensorReading.value ss
    = [CMAPSSSensorReading.EGT r; CMAPSSSensorReading.N1 r; CMAPSSSensorReading.N2 r;
       CMAPSSSensorReading.fuelFlow r; CMAPSSSensorReading.vibration r] /\
    map mockData.SensorReading.unit ss = [mockData.unit_EGT; "%"; "%"; "kg/hr"; "mm/s"] /\
    map mockData.SensorReading.engineId ss = repeat engineId 5 /\
    map mockData.SensorReading.timestamp ss = repeat (Some 1704153600000%Z) 5 /\
    NoDup (map mockData.SensorReading.id ss).
Proof.
  intros He.
  destruct (generate_one_cycle random engineId e i He) as (r & Hr & Ht & _).
  exists r. eexists. split; [exact Hr |].
  split.
  { unfold mockData.generateSensorData, bindW, liftM.
    cbn [fst snd]. rewrite Hr. unfold mockData.Date_now, retW. cbn [fst snd].
    replace (c + 5)%nat with (5 + c)%nat by lia. reflexivity. }
  cbn [map mockData.SensorReading.sensorType mockData.SensorReading.value
       mockData.SensorReading.unit mockData.SensorReading.engineId
       mockData.SensorReading.timestamp mockData.SensorReading.id repeat].
  rewrite Ht.
  do 5 (split; [reflexivity |]).
  repeat constructor; cbn [In]; intros H;
    repeat (destruct H as [H | H]; [apply append_inj_l in H; discriminate H |]);
    exact H.
Qed.

Lemma mock_sensor_registered_witness :
  exists e ss,
    findEngine "CMAPSS-FD001-001" = Some e /\
    mockData.generateSensorData midpoint (fun _ => 1704067200000%Z) "CMAPSS-FD001-001"
      (0, 0)%nat
    = (Normal ss, (18, 5)%nat) /\
    map mockData.SensorReading.sensorType ss
    = ["EGT"; "N1_Speed"; "N2_Speed"; "Fuel_Flow"; "Vibration"] /\
    NoDup (map mockData.SensorReading.id ss).
Proof.
  destruct (findEngine "CMAPSS-FD001-001") as [e |] eqn:He; [| discriminate He].
  destruct (mock_sensor_registered midpoint (fun _ => 1704067200000%Z)
              "CMAPSS-FD001-001" e 0%nat 0%nat He)
    as (r & ss & _ & Hrun & Hty & _ & _ & _ & _ & Hnd).
  exists e, ss. repeat split; assumption.
Defined.

Section AlertFacts.

Variable random : nat -> number.
Variable clock : nat -> Z.

Local Abbreviation componentAlerts := (mockData.componentAlerts random clock).
Local Abbreviation engineAlerts := (mockData.engineAlerts random clock).
Local Abbreviation forEachEngine := (mockData.forEachEngine random clock).

(** The inner [forEach]: one medium alert per component, in order, each
    after two readings of the clock and one draw. *)
Lemma componentAlerts_spec (engineId : string) (components : list string) :
  forall (alerts : list mockData.MaintenanceAlert.t) (i c : nat),
  exists news,
    componentAlerts engineId components alerts (i, c)
    = (Normal (alerts ++ news)%list,
       ((i + List.length components)%nat, (c + 2 * List.length components)%nat)) /\
    map mockData.MaintenanceAlert.component news = components /\
    map mockData.MaintenanceAlert.severity news
    = repeat mockData.medium (List.length components) /\
    map mockData.MaintenanceAlert.engineId news
    = repeat engineId (List.length components).
Proof.
  induction components as [| component rest IH]; intros alerts i c.
  - exists []. cbn [mockData.componentAlerts List.length map repeat].
    unfold retW. rewrite app_nil_r.
    repeat split; f_equal; f_equal; lia.
  - cbn [mockData.componentAlerts]. unfold bindW at 1.
    unfold mockData.Date_now at 1. cbn [fst snd].
    unfold bindW at 1. unfold mockData.Date_now at 1. cbn [fst snd].
    unfold bindW at 1. unfold liftM at 1. cbn [fst snd].
    unfold Math_random at 1.
    match goal with
    | |- context [mockData.componentAlerts _ _ _ _ (alerts ++ [?a])%list _] =>
        destruct (IH (alerts ++ [a])%list (S i) (S (S c))) as (news & Hrun & Hc & Hs & Hid);
        exists (a :: news)
    end.
    split.
    { rewrite Hrun. rewrite <- app_assoc. cbn [app List.length].
      f_equal. f_equal; lia. }
    cbn [map List.length repeat mockData.MaintenanceAlert.component
         mockData.MaintenanceAlert.severity mockData.MaintenanceAlert.engineId].
    rewrite Hc, Hs, Hid. repeat split; reflexivity.
Qed.

Lemma engineAlerts_spec (engine : mockData.EngineStatus.t) (h : CMAPSSHealthData.t) :
  generateCMAPSSHealthData (mockData.EngineStatus.engineId engine) = Normal h ->
  forall (alerts : list mockData.MaintenanceAlert.t) (i c : nat),
  exists news,
    engineAlerts engine alerts (i, c)
    = (Normal (alerts ++ news)%list,
       ((i + List.length news)%nat, (c + 2 * List.length news)%nat)) /\
    map mockData.MaintenanceAlert.severity news = severitiesOf h /\
    map mockData.MaintenanceAlert.engineId news
    = repeat (mockData.EngineStatus.engineId engine) (List.length news) /\
    map mockData.MaintenanceAlert.component news
    = ((if CMAPSSHealthData.healthScore h <? 75 then ["Overall Engine Health"] else [])
       ++ CMAPSSHealthData.criticalComponents h)%list.
Proof.
  intros Hh alerts i c.
  unfold mockData.engineAlerts. unfold bindW at 1.
  unfold liftM at 1, lift at 1. rewrite Hh. cbn [fst snd].
  unfold severitiesOf.
  destruct (CMAPSSHealthData.healthScore h <? 75) eqn:Hlow.
  - unfold bindW at 1. unfold bindW at 1.
    unfold mockData.Date_now at 1. cbn [fst snd].
    unfold bindW at 1. unfold mockData.Date_now at 1. cbn [fst snd].
    unfold bindW at 1. unfold liftM at 1. cbn [fst snd].
    unfold Math_random at 1. unfold retW at 1.
    match goal with
    | |- context [mockData.componentAlerts _ _ _ _ (alerts ++ [?a])%list _] =>
        destruct (componentAlerts_spec (mockData.EngineStatus.engineId engine)
                    (CMAPSSHealthData.criticalComponents h)
                    (alerts ++ [a])%list (S i) (S (S c)))
          as (news & Hrun & Hc & Hs & Hid);
        exists (a :: news)
    end.
    assert (Hlen : List.length news
                   = List.length (CMAPSSHealthData.criticalComponents h)).
    { rewrite <- Hc. rewrite length_map. reflexivity. }
    split.
    { rewrite Hrun. rewrite <- app_assoc. cbn [app List.length]. rewrite Hlen.
      f_equal. f_equal; lia. }
    cbn [map List.length repeat app mockData.MaintenanceAlert.component
         mockData.MaintenanceAlert.severity mockData.MaintenanceAlert.engineId].
    rewrite Hc, Hs, Hid, Hlen. repeat split; reflexivity.
  - unfold bindW at 1. unfold retW at 1.
    destruct (componentAlerts_spec (mockData.EngineStatus.engineId engine)
                (CMAPSSHealthData.criticalComponents h) alerts i c)
      as (news & Hrun & Hc & Hs & Hid).
    exists news.
    assert (Hlen : List.length news
                   = List.length (CMAPSSHealthData.criticalComponents h)).
    { rewrite <- Hc. rewrite length_map. reflexivity. }
    split; [rewrite Hrun, Hlen; reflexivity |].
    cbn [app]. rewrite Hc, Hs, Hid, Hlen. repeat split; reflexivity.
Qed.

(** The outer [forEach], on engines that all have an assessment. *)
Lemma forEachEngine_spec (engines : list mockData.EngineStatus.t) :
  forall (hs : list CMAPSSHealthData.t),
    map (fun engine => generateCMAPSSHealthData (mockData.EngineStatus.engineId engine))
        engines
    = map Normal hs ->
    forall (alerts : list mockData.MaintenanceAlert.t) (i c : nat),
    exists news,
      forEachEngine engines alerts (i, c)
      = (Normal (alerts ++ news)%list,
         ((i + List.length news)%nat, (c + 2 * List.length news)%nat)) /\
      map mockData.MaintenanceAlert.severity news = List.concat (map severitiesOf hs) /\
      incl (map mockData.MaintenanceAlert.engineId news)
           (map mockData.EngineStatus.engineId engines).
Proof.
  induction engines as [| engine rest IH]; intros hs Hhs alerts i c.
  - destruct hs as [| h hs]; [| discriminate Hhs].
    exists []. cbn [mockData.forEachEngine List.length map List.concat].
    unfold retW. rewrite app_nil_r.
    split; [f_equal; f_equal; lia |]. split; [reflexivity |].
    intros x Hx. exact Hx.
  - destruct hs as [| h hs]; [discriminate Hhs |].
    cbn [map] in Hhs. injection Hhs as Hh Hhs.
    destruct (engineAlerts_spec engine h Hh alerts i c) as (n1 & Hrun1 & Hs1 & Hid1 & _).
    destruct (IH hs Hhs (alerts ++ n1)%list (i + List.length n1)%nat
                (c + 2 * List.length n1)%nat) as (n2 & Hrun2 & Hs2 & Hid2).
    exists (n1 ++ n2)%list.
    cbn [mockData.forEachEngine]. unfold bindW at 1.
    rewrite Hrun1, Hrun2. rewrite <- app_assoc, length_app.
    split; [f_equal; f_equal; lia |].
    cbn [map List.concat]. rewrite !map_app, Hs1, Hs2.
    split; [reflexivity |].
    apply incl_app.
    + rewrite Hid1. intros x Hx. apply repeat_spec in Hx. subst x. left. reflexivity.
    + intros x Hx. right. exact (Hid2 x Hx).
Qed.

End AlertFacts.

Ltac normal_results l :=
  lazymatch l with
  | Normal ?h :: ?rest => let hs := normal_results rest in constr:(h :: hs)
  | nil => constr:(@nil CMAPSSHealthData.t)
  end.

(** X17. Whatever the draws and the clock, [generateMaintenanceAlerts]
    returns 37 alerts after 37 draws and 74 readings of the clock: for
    each engine in registry order, an alert of severity 'high' on the
    overall health when the health score is below 75 (the last three
    engines; none is 'critical'), then one 'medium' alert per critical
    component; every alert carries the id of a registered engine. *)
Theorem alerts_of_the_registry (random : nat -> number) (clock : nat -> Z) (i c : nat) :
  exists alerts,
    mockData.generateMaintenanceAlerts random clock (i, c)
    = (Normal alerts, ((i + 37)%nat, (c + 74)%nat)) /\
    List.length alerts = 37%nat /\
    map mockData.MaintenanceAlert.severity alerts
    = (repeat mockData.medium 16
       ++ mockData.high :: repeat mockData.medium 6
       ++ mockData.high :: repeat mockData.medium 6
       ++ mockData.high :: repeat mockData.medium 6)%list /\
    incl (map mockData.MaintenanceAlert.engineId alerts)
         (map CMAPSSEngine.engineId cmapssEngines).
Proof.
  assert (Hhs : exists hs,
             map (fun engine =>
                    generateCMAPSSHealthData (mockData.EngineStatus.engineId engine))
                 mockData.mockEngines = map Normal hs /\
             List.concat (map severitiesOf hs)
             = (repeat mockData.medium 16
                ++ mockData.high :: repeat mockData.medium 6
                ++ mockData.high :: repeat mockData.medium 6
                ++ mockData.high :: repeat mockData.medium 6)%list).
  { let l := eval vm_compute in
         (map (fun engine =>
                 generateCMAPSSHealthData (mockData.EngineStatus.engineId engine))
              mockData.mockEngines) in
    let hs := normal_results l in
    exists hs; split; vm_compute; reflexivity. }
  destruct Hhs as (hs & Hhs & Hsev).
  destruct (forEachEngine_spec random clock mockData.mockEngines hs Hhs [] i c)
    as (alerts & Hrun & Hs & Hid).
  rewrite Hsev in Hs.
  assert (Hlen : List.length alerts = 37%nat).
  { rewrite <- (length_map mockData.MaintenanceAlert.severity), Hs. reflexivity. }
  exists alerts. rewrite Hlen in Hrun.
  split; [exact Hrun |]. split; [exact Hlen |]. split; [exact Hs |].
  intros x Hx. specialize (Hid x Hx).
  unfold mockData.mockEngines in Hid. rewrite map_map in Hid. exact Hid.
Qed.

(* ================================================================== *)
(** ** Binary64 values as rational numbers *)
(* ================================================================== *)

Section DyadicFacts.
Local Open Scope Q_scope.

Lemma two_neq_0 : ~ (2 == 0).
Proof. intros H. discriminate H. Qed.

Lemma pow2_pos (e : Z) : 0 < 2 ^ e.
Proof. apply Qpower_0_lt. reflexivity. Qed.

Lemma pow2_add (a b : Z) : 2 ^ (a + b) == 2 ^ a * 2 ^ b.
Proof. apply Qpower_plus. exact two_neq_0. Qed.

Lemma pow2_inject (k : Z) : (0 <= k)%Z -> 2 ^ k == inject_Z (2 ^ k).
Proof. intros Hk. rewrite Zpower_Qpower by assumption. reflexivity. Qed.

Lemma pow2_le (a b : Z) : (a <= b)%Z -> 2 ^ a <= 2 ^ b.
Proof. intros H. apply Qpower_le_compat_l; [assumption | discriminate]. Qed.

Lemma pow2_lt (a b : Z) : (a < b)%Z -> 2 ^ a < 2 ^ b.
Proof. intros H. apply Qpower_lt_compat_l; [assumption | reflexivity]. Qed.

Lemma dyadic_shift (m e k : Z) :
  (0 <= k)%Z -> dyadic (m * 2 ^ k) (e - k) == dyadic m e.
Proof.
  intros Hk. unfold dyadic.
  rewrite inject_Z_mult, <- pow2_inject by assumption.
  rewrite <- Qmult_assoc, <- pow2_add.
  replace (k + (e - k))%Z with e by lia. reflexivity.
Qed.

Lemma dyadic_le (a b e : Z) : dyadic a e <= dyadic b e <-> (a <= b)%Z.
Proof.
  unfold dyadic. pose proof (pow2_pos e) as Hp. rewrite Zle_Qle. split; intros H.
  - apply Qmult_le_r with (z := 2 ^ e); assumption.
  - apply Qmult_le_compat_r; [assumption | apply Qlt_le_weak; assumption].
Qed.

Lemma dyadic_lt (a b e : Z) : dyadic a e < dyadic b e <-> (a < b)%Z.
Proof.
  unfold dyadic. pose proof (pow2_pos e) as Hp. rewrite Zlt_Qlt. split; intros H.
  - apply Qmult_lt_r with (z := 2 ^ e); assumption.
  - apply Qmult_lt_compat_r; assumption.
Qed.

Lemma dyadic_opp (m e : Z) : dyadic (- m) e == - dyadic m e.
Proof. unfold dyadic. rewrite inject_Z_opp. ring. Qed.

Lemma dyadic_plus (a b e : Z) : dyadic (a + b) e == dyadic a e + dyadic b e.
Proof. unfold dyadic. rewrite inject_Z_plus. ring. Qed.

Lemma dyadic_0 (e : Z) : dyadic 0 e == 0.
Proof. unfold dyadic. ring. Qed.

Lemma dyadic_mult (a b e f : Z) : dyadic (a * b) (e + f) == dyadic a e * dyadic b f.
Proof. unfold dyadic. rewrite inject_Z_mult, pow2_add. ring. Qed.

Lemma dyadic_pos (m e : Z) : (0 < m)%Z -> 0 < dyadic m e.
Proof.
  intros H. rewrite <- (dyadic_0 e). apply dyadic_lt. exact H.
Qed.

Lemma dyadic_1 (e : Z) : dyadic 1 e == 2 ^ e.
Proof. unfold dyadic. ring. Qed.

(** A positive mantissa of [d] digits lies in [2^(d-1), 2^d). *)
Lemma dyadic_weight (m e : Z) :
  (0 < m)%Z ->
  2 ^ (Zdigits2 m + e - 1) <= dyadic m e /\ dyadic m e < 2 ^ (Zdigits2 m + e).
Proof.
  intros Hm. pose proof (Zdigits2_bound m Hm) as [Hlo Hhi].
  pose proof (Zdigits2_pos m Hm) as Hd.
  split.
  - replace (Zdigits2 m + e - 1)%Z with ((Zdigits2 m - 1) + e)%Z by lia.
    rewrite pow2_add, pow2_inject by lia.
    apply dyadic_le. exact Hlo.
  - rewrite pow2_add, pow2_inject by lia.
    apply dyadic_lt. exact Hhi.
Qed.

(** Of two canonical values, the one with the smaller exponent is the
    smaller. *)
Lemma canonical_exp_lt (a ea b eb : Z) :
  canonical a ea -> canonical b eb -> (ea < eb)%Z -> dyadic a ea < dyadic b eb.
Proof.
  intros [Ha Hca] [Hb Hcb] Hlt.
  destruct (dyadic_weight a ea Ha) as [_ Hua].
  destruct (dyadic_weight b eb Hb) as [Hlb _].
  apply Qlt_le_trans with (2 ^ (Zdigits2 a + ea)); [exact Hua |].
  apply Qle_trans with (2 ^ (Zdigits2 b + eb - 1)); [| exact Hlb].
  apply pow2_le. unfold fexp64 in *. lia.
Qed.

(** Between a canonical value and its successor there is no canonical
    value. *)
Lemma canonical_below_succ (g eg m e : Z) :
  canonical g eg -> canonical m e ->
  dyadic g eg < dyadic (m + 1) e -> dyadic g eg <= dyadic m e.
Proof.
  intros Hg Hm Hlt.
  destruct (Z.lt_ge_cases eg e) as [Hexp | Hexp].
  - apply Qlt_le_weak. apply canonical_exp_lt; assumption.
  - rewrite <- (dyadic_shift g eg (eg - e)) in * by lia.
    replace (eg - (eg - e))%Z with e in * by lia.
    apply dyadic_le. apply dyadic_lt in Hlt. lia.
Qed.

Lemma canonical_above_succ (g eg m e : Z) :
  canonical g eg -> canonical m e ->
  dyadic m e < dyadic g eg -> dyadic (m + 1) e <= dyadic g eg.
Proof.
  intros Hg Hm Hlt.
  destruct (Z.lt_ge_cases eg e) as [Hexp | Hexp].
  - pose proof (canonical_exp_lt g eg m e Hg Hm Hexp) as Hc.
    exfalso. apply (Qlt_irrefl (dyadic m e)).
    apply Qlt_trans with (dyadic g eg); assumption.
  - rewrite <- (dyadic_shift g eg (eg - e)) in * by lia.
    replace (eg - (eg - e))%Z with e in * by lia.
    apply dyadic_le. apply dyadic_lt in Hlt. lia.
Qed.

(** The smallest canonical value is [2^-1074]. *)
Lemma canonical_least (g eg : Z) : canonical g eg -> 2 ^ (-1074) <= dyadic g eg.
Proof.
  intros [Hg Hc].
  apply Qle_trans with (dyadic 1 eg).
  - rewrite dyadic_1. apply pow2_le. unfold fexp64 in Hc. lia.
  - apply dyadic_le. lia.
Qed.

(** Two canonical forms of one value are the same. *)
Lemma canonical_unique (a ea b eb : Z) :
  canonical a ea -> canonical b eb -> dyadic a ea == dyadic b eb ->
  a = b /\ ea = eb.
Proof.
  intros Ha Hb Heq.
  assert (He : ea = eb).
  { destruct (Z.lt_trichotomy ea eb) as [H | [H | H]]; [| exact H |].
    - pose proof (canonical_exp_lt a ea b eb Ha Hb H) as Hlt.
      rewrite Heq in Hlt. exfalso. exact (Qlt_irrefl _ Hlt).
    - pose proof (canonical_exp_lt b eb a ea Hb Ha H) as Hlt.
      rewrite Heq in Hlt. exfalso. exact (Qlt_irrefl _ Hlt). }
  split; [| exact He]. subst eb.
  assert (H1 : (a <= b)%Z) by (apply (dyadic_le a b ea); rewrite Heq; apply Qle_refl).
  assert (H2 : (b <= a)%Z) by (apply (dyadic_le b a ea); rewrite Heq; apply Qle_refl).
  lia.
Qed.

End DyadicFacts.

Section RoundingCore.
Local Open Scope Z_scope.

(** *** Shifting out zeros keeps a value exact *)

Lemma iter_pos_nat {A : Type} (f : A -> A) (p : positive) :
  forall x, iter_pos f p x = Nat.iter (Pos.to_nat p) f x.
Proof.
  induction p as [p IH | p IH |]; intros x; cbn [iter_pos].
  - rewrite !IH. rewrite Pos2Nat.inj_xI.
    replace (S (2 * Pos.to_nat p)) with (Pos.to_nat p + (Pos.to_nat p + 1))%nat by lia.
    rewrite !Nat.iter_add. reflexivity.
  - rewrite !IH. rewrite Pos2Nat.inj_xO.
    replace (2 * Pos.to_nat p)%nat with (Pos.to_nat p + Pos.to_nat p)%nat by lia.
    rewrite Nat.iter_add. reflexivity.
  - reflexivity.
Qed.

Lemma shr_1_even (m : Z) :
  0 <= m -> m mod 2 = 0 ->
  shr_1 (Build_shr_record m false false) = Build_shr_record (m / 2) false false.
Proof.
  intros Hm Heven. destruct m as [| p | p]; [reflexivity | | lia].
  destruct p as [p | p |].
  - exfalso. rewrite Pos2Z.inj_xI in Heven.
    rewrite Z.add_comm, Z.mul_comm, Z.mod_add in Heven by lia. discriminate Heven.
  - cbn [shr_1 orb]. f_equal.
    rewrite Pos2Z.inj_xO. rewrite Z.mul_comm, Z.div_mul by lia. reflexivity.
  - discriminate Heven.
Qed.

Lemma iter_shr_1_exact (n : nat) (m : Z) :
  0 <= m -> m mod 2 ^ Z.of_nat n = 0 ->
  Nat.iter n shr_1 (Build_shr_record m false false)
  = Build_shr_record (m / 2 ^ Z.of_nat n) false false.
Proof.
  intros Hm. induction n as [| n IH]; intros Hdiv.
  - cbn [Nat.iter nat_rect Z.of_nat]. rewrite Z.pow_0_r, Z.div_1_r. reflexivity.
  - rewrite Nat2Z.inj_succ, Z.pow_succ_r in * by lia.
    assert (Hp : 0 < 2 ^ Z.of_nat n) by (apply Z.pow_pos_nonneg; lia).
    apply Z.mod_divide in Hdiv; [| lia]. destruct Hdiv as [k Hk].
    assert (Hq : m / 2 ^ Z.of_nat n = k * 2).
    { subst m. replace (k * (2 * 2 ^ Z.of_nat n)) with (k * 2 * 2 ^ Z.of_nat n) by ring.
      apply Z.div_mul. lia. }
    cbn [Nat.iter nat_rect]. change (nat_rect _ ?x ?f n) with (Nat.iter n shr_1 x).
    rewrite IH.
    + rewrite shr_1_even.
      * rewrite Z.div_div by lia. f_equal. f_equal. ring.
      * apply Z.div_pos; lia.
      * rewrite Hq. apply Z.mod_mul. lia.
    + subst m. replace (k * (2 * 2 ^ Z.of_nat n)) with (k * 2 * 2 ^ Z.of_nat n) by ring.
      apply Z.mod_mul. lia.
Qed.

Lemma shr_fexp_exact (m e : Z) :
  0 <= m ->
  m mod 2 ^ Z.max 0 (fexp64 (Zdigits2 m + e) - e) = 0 ->
  loc_of_shr_record (fst (shr_fexp prec emax m e loc_Exact)) = loc_Exact.
Proof.
  intros Hm. unfold shr_fexp, shr.
  change (SpecFloat.fexp prec emax (Zdigits2 m + e)) with (fexp64 (Zdigits2 m + e)).
  destruct (fexp64 (Zdigits2 m + e) - e) as [| p | p]; intros Hdiv; cbn [fst];
    try reflexivity.
  rewrite Z.max_r in Hdiv by lia.
  cbn [shr_record_of_loc]. rewrite iter_pos_nat.
  rewrite iter_shr_1_exact; [reflexivity | assumption |].
  rewrite positive_nat_Z. exact Hdiv.
Qed.

(** *** The shifts of [binary_round_aux] on a mantissa whose exponent is
    at most the one of the format *)

Lemma round_shift_exact (mx ex m1 : Z) :
  0 <= mx ->
  ex <= fexp64 (Zdigits2 mx + ex) ->
  let e' := fexp64 (Zdigits2 mx + ex) in
  let m' := mx / 2 ^ (e' - ex) in
  m' <= m1 <= m' + 1 ->
  let n2 := Z.max 0 (fexp64 (Zdigits2 m1 + e') - e') in
  let m := m1 / 2 ^ n2 in
  let e := e' + n2 in
  m1 = m * 2 ^ n2 /\ 0 <= n2 /\
  (0 < m1 -> canonical m e) /\
  (0 < m' -> canonical m' e') /\
  (m' = 0 -> e' = -1074).
Proof.
  intros Hmx Hpre e' m' Hm1 n2 m e.
  assert (Hn1 : 0 <= e' - ex) by (subst e'; lia).
  assert (Hp1 : 0 < 2 ^ (e' - ex)) by (apply Z.pow_pos_nonneg; lia).
  assert (Hm'0 : 0 <= m') by (subst m'; apply Z.div_pos; lia).
  assert (Hn2 : 0 <= n2) by (subst n2; lia).
  assert (Hzero : m' = 0 -> e' = -1074).
  { intros H0. destruct (Z.eq_dec mx 0) as [-> | Hne].
    - subst e'. cbn [Zdigits2] in *. unfold fexp64 in *. lia.
    - pose proof (Zdigits2_shift_zero mx (e' - ex) ltac:(lia) Hn1 H0).
      subst e'. unfold fexp64 in *. lia. }
  assert (Hcan' : 0 < m' -> Zdigits2 m' + e' = Zdigits2 mx + ex).
  { intros Hpos. assert (0 < mx).
    { destruct (Z.eq_dec mx 0) as [-> | Hne]; [| lia].
      subst m'. rewrite Z.div_0_l in Hpos; lia. }
    subst m'. rewrite Zdigits2_shift by assumption. lia. }
  assert (Hgoal : m1 = m * 2 ^ n2 /\ (0 < m1 -> canonical m e)).
  { destruct (Z.eq_dec m1 0) as [-> | Hm1ne].
    { subst m. rewrite Z.div_0_l by (apply Z.pow_nonzero; lia). split; [ring | lia]. }
    assert (Hm1pos : 0 < m1) by lia.
    destruct (Z.eq_dec m' 0) as [H0 | H0].
    - assert (m1 = 1) by lia. subst m1. specialize (Hzero H0).
      assert (n2 = 0).
      { subst n2. rewrite Hzero. cbn [Zdigits2 digits2_pos]. unfold fexp64. lia. }
      subst m e. rewrite H. rewrite Z.pow_0_r, Z.div_1_r.
      split; [ring |]. intros _. split; [lia |].
      rewrite Hzero. cbn [Zdigits2 digits2_pos]. unfold fexp64. lia.
    - assert (Hm'pos : 0 < m') by lia. specialize (Hcan' Hm'pos).
      assert (Hd : Zdigits2 m' <= Zdigits2 m1 <= Zdigits2 m' + 1).
      { split; [apply Zdigits2_le; lia |].
        apply Z.le_trans with (Zdigits2 (m' + 1)); [apply Zdigits2_le; lia |].
        apply Zdigits2_succ. assumption. }
      pose proof (Zdigits2_pos m' Hm'pos) as Hd'.
      destruct (Z.eq_dec n2 0) as [Hn0 | Hn0].
      + subst m e. rewrite Hn0. rewrite Z.pow_0_r, Z.div_1_r.
        split; [ring |]. intros _. split; [assumption |].
        subst n2 e'. unfold fexp64 in *. lia.
      + assert (Hn21 : n2 = 1) by (subst n2 e'; unfold fexp64 in *; lia).
        assert (Hdig : Zdigits2 m1 = Zdigits2 m' + 1)
          by (subst n2 e'; unfold fexp64 in *; lia).
        pose proof (Zdigits2_bound m' Hm'pos) as [_ Hhi].
        pose proof (Zdigits2_bound m1 Hm1pos) as [Hlo _].
        rewrite Hdig in Hlo. replace (Zdigits2 m' + 1 - 1) with (Zdigits2 m') in Hlo by lia.
        assert (Hpow : m1 = 2 ^ Zdigits2 m') by lia.
        assert (Hhalf : m1 = 2 ^ (Zdigits2 m' - 1) * 2).
        { rewrite Hpow. rewrite Z.mul_comm.
          rewrite <- (Z.pow_succ_r 2 (Zdigits2 m' - 1)) by lia.
          f_equal. lia. }
        assert (Hm : m = 2 ^ (Zdigits2 m' - 1)).
        { subst m. rewrite Hn21. change (2 ^ 1) with 2. rewrite Hhalf.
          apply Z.div_mul. lia. }
        split.
        * rewrite Hm, Hn21. change (2 ^ 1) with 2. exact Hhalf.
        * intros _. assert (Hmpos : 0 < m)
            by (rewrite Hm; apply Z.pow_pos_nonneg; lia).
          split; [assumption |].
          assert (Zdigits2 m = Zdigits2 m').
          { rewrite Hm. rewrite Zdigits2_log2 by (apply Z.pow_pos_nonneg; lia).
            rewrite Z.log2_pow2 by lia. lia. }
          subst e n2 e'. unfold fexp64 in *. lia. }
  destruct Hgoal as [H1 H2].
  split; [exact H1 |]. split; [exact Hn2 |]. split; [exact H2 |].
  split; [| exact Hzero].
  intros Hpos. split; [exact Hpos |]. rewrite (Hcan' Hpos). reflexivity.
Qed.

(** [binary_round_aux], on a mantissa whose exponent is at most the one
    of the format: the result is the floor [m'] of the value at the
    format's exponent [e'] or its successor, and it is the floor when the
    value is exactly [m' * 2^e']. *)
Lemma binary_round_aux_core (s : bool) (mx ex : Z) (l : location) :
  0 <= mx ->
  ex <= fexp64 (Zdigits2 mx + ex) ->
  let e' := fexp64 (Zdigits2 mx + ex) in
  let m' := mx / 2 ^ (e' - ex) in
  exists m1 m e,
    binary_round_aux prec emax s mx ex l = rounded s m e /\
    m' <= m1 <= m' + 1 /\
    (l = loc_Exact -> mx mod 2 ^ (e' - ex) = 0 -> m1 = m') /\
    e' <= e /\ m1 = m * 2 ^ (e - e') /\
    (0 < m1 -> canonical m e) /\
    (0 < m' -> canonical m' e') /\
    (m' = 0 -> e' = -1074).
Proof.
  intros Hmx Hpre e' m'.
  assert (Hn1 : Z.max 0 (fexp64 (Zdigits2 mx + ex) - ex) = e' - ex) by (subst e'; lia).
  unfold binary_round_aux.
  pose proof (shr_fexp_spec mx ex l Hmx) as S1. cbv zeta in S1.
  pose proof (shr_fexp_exact mx ex Hmx) as X1.
  rewrite Hn1 in S1, X1.
  destruct (shr_fexp prec emax mx ex l) as [mrs' e1] eqn:H1.
  cbn [fst snd] in S1. destruct S1 as [S1m S1e].
  set (m1 := round_nearest_even (shr_m mrs') (loc_of_shr_record mrs')).
  assert (Hm1 : m' <= m1 <= m' + 1).
  { subst m' m1. rewrite <- S1m. apply round_nearest_even_bounds. }
  assert (Hexact : l = loc_Exact -> mx mod 2 ^ (e' - ex) = 0 -> m1 = m').
  { intros -> Hdiv. subst m1. rewrite H1 in X1. cbn [fst] in X1.
    rewrite (X1 Hdiv). cbn [round_nearest_even]. exact S1m. }
  assert (He1 : e1 = e') by lia.
  pose proof (shr_fexp_spec m1 e1 loc_Exact) as S2. cbv zeta in S2.
  destruct (shr_fexp prec emax m1 e1 loc_Exact) as [mrs'' e2] eqn:H2.
  cbn [fst snd] in S2.
  assert (H0m1 : 0 <= m1).
  { assert (0 <= m') by (subst m'; apply Z.div_pos; [lia | apply Z.pow_pos_nonneg; lia]).
    lia. }
  destruct (S2 H0m1) as [S2m S2e]. clear S2.
  rewrite He1 in S2m, S2e.
  destruct (round_shift_exact mx ex m1 Hmx Hpre Hm1) as (E1 & E2 & E3 & E4 & E5).
  fold e' in E1, E2, E3, E4, E5.
  exists m1, (shr_m mrs''), e2.
  split; [reflexivity |]. split; [exact Hm1 |]. split; [exact Hexact |].
  rewrite S2m, S2e.
  split; [lia |].
  replace (e' + Z.max 0 (fexp64 (Zdigits2 m1 + e') - e') - e')
    with (Z.max 0 (fexp64 (Zdigits2 m1 + e') - e')) by lia.
  split; [exact E1 |]. split; [exact E3 |]. split; [exact E4 | exact E5].
Qed.

End RoundingCore.

Section OrderFacts.
Local Open Scope Q_scope.

Lemma SFval_finite (s : bool) (m : positive) (e : Z) :
  SFval (S754_finite s m e)
  == if s then - dyadic (Zpos m) e else dyadic (Zpos m) e.
Proof.
  unfold SFval. destruct s; cbn [cond_Zopp]; [| reflexivity].
  change (- Zpos m)%Z with (Z.opp (Zpos m)). apply dyadic_opp.
Qed.

Lemma valid_canonical (s : bool) (m : positive) (e : Z) :
  valid_binary (S754_finite s m e) = true -> canonical (Zpos m) e /\ (e <= 971)%Z.
Proof.
  unfold valid_binary, SpecFloat.valid_binary, bounded, canonical_mantissa.
  rewrite fexp64_eq. intros H. apply andb_prop in H. destruct H as [Hc Hb].
  apply Z.eqb_eq in Hc. apply Z.leb_le in Hb.
  split; [| exact Hb]. split; [reflexivity | exact Hc].
Qed.

Lemma canonical_valid (s : bool) (m : positive) (e : Z) :
  canonical (Zpos m) e -> (e <= 971)%Z -> valid_binary (S754_finite s m e) = true.
Proof.
  intros [_ Hc] He.
  unfold valid_binary, SpecFloat.valid_binary, bounded, canonical_mantissa.
  rewrite fexp64_eq. cbn [Zdigits2] in Hc. rewrite Hc, Z.eqb_refl.
  apply Z.leb_le. exact He.
Qed.

Lemma Qcompare_intro (c : comparison) (p q : Q) :
  match c with Eq => p == q | Lt => p < q | Gt => q < p end -> (p ?= q) = c.
Proof.
  destruct c; intros H.
  - apply Qeq_alt. exact H.
  - apply Qlt_alt. exact H.
  - apply Qgt_alt. exact H.
Qed.

(** The comparison of two positive canonical values, as [SFcompare]
    makes it. *)
Lemma canonical_compare (a : positive) (ea : Z) (b : positive) (eb : Z) :
  canonical (Zpos a) ea -> canonical (Zpos b) eb ->
  match match Z.compare ea eb with
        | Lt => Lt
        | Gt => Gt
        | Eq => Pos.compare_cont Eq a b
        end with
  | Eq => dyadic (Zpos a) ea == dyadic (Zpos b) eb
  | Lt => dyadic (Zpos a) ea < dyadic (Zpos b) eb
  | Gt => dyadic (Zpos b) eb < dyadic (Zpos a) ea
  end.
Proof.
  intros Ha Hb. destruct (Z.compare_spec ea eb) as [He | He | He].
  - subst eb. pose proof (compare_cont_Eq_spec a b) as Hm.
    destruct (Pos.compare_cont Eq a b).
    + subst b. reflexivity.
    + apply dyadic_lt. exact Hm.
    + apply dyadic_lt. exact Hm.
  - apply canonical_exp_lt; assumption.
  - apply canonical_exp_lt; assumption.
Qed.

(** On valid finite binary64 data, [SFcompare] is the comparison of the
    values. *)
Lemma SFcompare_val (x y : spec_float) :
  valid_binary x = true -> valid_binary y = true ->
  SFfinite x = true -> SFfinite y = true ->
  SFcompare x y = Some (SFval x ?= SFval y).
Proof.
  intros Hvx Hvy Hfx Hfy.
  destruct x as [sx | sx | | sx mx ex]; try discriminate Hfx;
    destruct y as [sy | sy | | sy my ey]; try discriminate Hfy.
  - reflexivity.
  - destruct (valid_canonical _ _ _ Hvy) as [[Hy _] _].
    pose proof (dyadic_pos (Zpos my) ey Hy).
    pose proof (SFval_finite sy my ey) as Hy'.
    change (SFval (S754_zero sx)) with 0.
    destruct sy; cbn [SFcompare]; f_equal; symmetry; apply Qcompare_intro;
      cbv beta iota; lra.
  - destruct (valid_canonical _ _ _ Hvx) as [[Hx _] _].
    pose proof (dyadic_pos (Zpos mx) ex Hx).
    pose proof (SFval_finite sx mx ex) as Hx'.
    change (SFval (S754_zero sy)) with 0.
    destruct sx; cbn [SFcompare]; f_equal; symmetry; apply Qcompare_intro;
      cbv beta iota; lra.
  - destruct (valid_canonical _ _ _ Hvx) as [Hx _].
    destruct (valid_canonical _ _ _ Hvy) as [Hy _].
    pose proof (dyadic_pos (Zpos mx) ex (proj1 Hx)).
    pose proof (dyadic_pos (Zpos my) ey (proj1 Hy)).
    pose proof (canonical_compare mx ex my ey Hx Hy) as Hc.
    pose proof (SFval_finite sx mx ex) as Hx'.
    pose proof (SFval_finite sy my ey) as Hy'.
    destruct sx, sy; cbn [SFcompare];
      destruct (Z.compare ex ey); try destruct (Pos.compare_cont Eq mx my);
      cbn [CompOpp]; f_equal; symmetry; apply Qcompare_intro;
      cbv beta iota in *; lra.
Qed.

Lemma SFleb_val (x y : spec_float) :
  valid_binary x = true -> valid_binary y = true ->
  SFfinite x = true -> SFfinite y = true ->
  (SFleb x y = true <-> SFval x <= SFval y).
Proof.
  intros Hvx Hvy Hfx Hfy. unfold SFleb.
  rewrite (SFcompare_val x y Hvx Hvy Hfx Hfy).
  destruct (Qcompare_spec (SFval x) (SFval y)) as [H | H | H]; split; intros H';
    try reflexivity; try discriminate H'; try lra.
Qed.

Lemma SFltb_val (x y : spec_float) :
  valid_binary x = true -> valid_binary y = true ->
  SFfinite x = true -> SFfinite y = true ->
  (SFltb x y = true <-> SFval x < SFval y).
Proof.
  intros Hvx Hvy Hfx Hfy. unfold SFltb.
  rewrite (SFcompare_val x y Hvx Hvy Hfx Hfy).
  destruct (Qcompare_spec (SFval x) (SFval y)) as [H | H | H]; split; intros H';
    try reflexivity; try discriminate H'; try lra.
Qed.

(** A datum between two finite ones is finite. *)
Lemma SFleb_finite (l x h : spec_float) :
  SFfinite l = true -> SFfinite h = true ->
  SFleb l x = true -> SFleb x h = true -> SFfinite x = true.
Proof.
  intros Hl Hh H1 H2. unfold SFleb in *.
  destruct x as [sx | sx | | sx mx ex]; try reflexivity.
  - destruct l as [sl | sl | | sl ml el]; try discriminate Hl;
      destruct h as [sh | sh | | sh mh eh]; try discriminate Hh;
      cbn [SFcompare] in H1, H2; destruct sx; discriminate.
  - destruct l; discriminate.
Qed.

End OrderFacts.

Section RoundingBrackets.
Local Open Scope Q_scope.

(** The magnitude of the result of [binary_round_aux] against the
    magnitude [w] it rounds. *)
Lemma round_magnitude (s : bool) (mx ex : Z) (l : location) (w : Q) :
  (0 <= mx)%Z ->
  (ex <= fexp64 (Zdigits2 mx + ex))%Z ->
  dyadic mx ex <= w -> w < dyadic (mx + 1) ex ->
  (l <> loc_Exact -> dyadic mx ex < w) ->
  let r := binary_round_aux prec emax s mx ex l in
  valid_binary r = true /\
  (r = S754_zero s \/ r = S754_infinity s \/ exists m e, r = S754_finite s m e) /\
  (w == 0 -> r = S754_zero s) /\
  (forall g eg, canonical g eg -> dyadic g eg <= w ->
     r = S754_infinity s \/
     exists m e, r = S754_finite s m e /\ dyadic g eg <= dyadic (Zpos m) e) /\
  (forall g eg, canonical g eg -> (eg <= 971)%Z -> w <= dyadic g eg ->
     r = S754_zero s \/
     exists m e, r = S754_finite s m e /\ dyadic (Zpos m) e <= dyadic g eg).
Proof.
  intros Hmx Hpre Hlo Hhi Hstrict r.
  destruct (binary_round_aux_core s mx ex l Hmx Hpre)
    as (m1 & m & e & Hr & Hm1 & Hexact & He & Hshift & Hcan & Hcan' & Hzero).
  set (e' := fexp64 (Zdigits2 mx + ex)) in *.
  set (m' := (mx / 2 ^ (e' - ex))%Z) in *.
  assert (Hn1 : (0 <= e' - ex)%Z) by lia.
  assert (Hp1 : (0 < 2 ^ (e' - ex))%Z) by (apply Z.pow_pos_nonneg; lia).
  assert (Hdiv : (mx = 2 ^ (e' - ex) * m' + mx mod 2 ^ (e' - ex))%Z)
    by (apply Z.div_mod; lia).
  pose proof (Z.mod_pos_bound mx (2 ^ (e' - ex)) Hp1) as Hmod.
  assert (Hm'0 : (0 <= m')%Z) by (subst m'; apply Z.div_pos; lia).
  (* the floor and its successor around the value *)
  assert (F0 : forall k, dyadic (k * 2 ^ (e' - ex)) ex == dyadic k e').
  { intros k. rewrite <- (dyadic_shift k e' (e' - ex)) by lia.
    replace (e' - (e' - ex))%Z with ex by lia. reflexivity. }
  assert (F1 : dyadic m' e' <= dyadic mx ex).
  { rewrite <- F0. apply dyadic_le. nia. }
  assert (F2 : dyadic (mx + 1) ex <= dyadic (m' + 1) e').
  { rewrite <- F0. apply dyadic_le. nia. }
  assert (F3 : m1 = (m' + 1)%Z -> dyadic m' e' < w).
  { intros Hup.
    destruct (Z.eq_dec (mx mod 2 ^ (e' - ex)) 0) as [Hz | Hnz].
    - assert (Hl : l <> loc_Exact) by (intros Hl; specialize (Hexact Hl Hz); lia).
      apply Qle_lt_trans with (dyadic mx ex); [exact F1 | exact (Hstrict Hl)].
    - apply Qlt_le_trans with (dyadic mx ex); [| exact Hlo].
      rewrite <- F0. apply dyadic_lt. nia. }
  assert (Hval : dyadic m e == dyadic m1 e').
  { rewrite Hshift. rewrite <- (dyadic_shift m e (e - e')) by lia.
    replace (e - (e - e'))%Z with e' by lia. reflexivity. }
  assert (Hpe : (0 < 2 ^ (e - e'))%Z) by (apply Z.pow_pos_nonneg; lia).
  assert (Hw0 : 0 <= w).
  { apply Qle_trans with (dyadic mx ex); [| exact Hlo].
    rewrite <- (dyadic_0 ex). apply dyadic_le. exact Hmx. }
  subst r. rewrite Hr.
  destruct (Z.eq_dec m1 0) as [H0 | H0].
  - (* the result is a zero *)
    assert (m = 0%Z) by nia. subst m. cbn [rounded].
    split; [reflexivity |]. split; [left; reflexivity |].
    split; [intros _; reflexivity |]. split.
    + intros g eg Hg Hgw. exfalso.
      assert (m' = 0%Z) by lia.
      pose proof (canonical_least g eg Hg) as Hleast.
      assert (w < 2 ^ (-1074)).
      { apply Qlt_le_trans with (dyadic (m' + 1) e').
        - apply Qlt_le_trans with (dyadic (mx + 1) ex); assumption.
        - rewrite H, (Hzero H). cbn [Z.add]. rewrite dyadic_1. apply Qle_refl. }
      lra.
    + intros g eg Hg Heg Hgw. left. reflexivity.
  - (* the result is not a zero *)
    assert (Hm1pos : (0 < m1)%Z) by lia.
    destruct (Hcan Hm1pos) as [Hmpos Hce].
    destruct m as [| q | q]; try lia. cbn [rounded].
    assert (Hupper : forall g eg, canonical g eg -> w <= dyadic g eg ->
                                  dyadic (Zpos q) e <= dyadic g eg).
    { intros g eg Hg Hgw. rewrite Hval.
      destruct (Z.eq_dec m1 m') as [Heq | Hne].
      - rewrite Heq. lra.
      - assert (Hup : m1 = (m' + 1)%Z) by lia. specialize (F3 Hup). rewrite Hup.
        destruct (Z.eq_dec m' 0) as [Hz | Hnz].
        + rewrite Hz, (Hzero Hz). cbn [Z.add]. rewrite dyadic_1.
          apply canonical_least. exact Hg.
        + apply canonical_above_succ; [exact Hg | apply Hcan'; lia | lra]. }
    assert (Hlower : forall g eg, canonical g eg -> dyadic g eg <= w ->
                                  dyadic g eg <= dyadic (Zpos q) e).
    { intros g eg Hg Hgw. rewrite Hval.
      destruct (Z.eq_dec m' 0) as [Hz | Hnz].
      - exfalso. pose proof (canonical_least g eg Hg) as Hleast.
        assert (w < 2 ^ (-1074)).
        { apply Qlt_le_trans with (dyadic (m' + 1) e').
          - apply Qlt_le_trans with (dyadic (mx + 1) ex); assumption.
          - rewrite Hz, (Hzero Hz). cbn [Z.add]. rewrite dyadic_1. apply Qle_refl. }
        lra.
      - apply Qle_trans with (dyadic m' e').
        + apply canonical_below_succ; [exact Hg | apply Hcan'; lia |].
          apply Qle_lt_trans with w; [exact Hgw |].
          apply Qlt_le_trans with (dyadic (mx + 1) ex); assumption.
        + apply dyadic_le. lia. }
    assert (Hnz : ~ w == 0).
    { intros Hw. destruct (Z.eq_dec m1 m') as [Heq | Hne].
      - assert (0 < dyadic m' e') by (apply dyadic_pos; lia). lra.
      - assert (Hup : m1 = (m' + 1)%Z) by lia. specialize (F3 Hup).
        assert (0 <= dyadic m' e').
        { rewrite <- (dyadic_0 e'). apply dyadic_le. exact Hm'0. }
        lra. }
    destruct (Z.leb_spec e 971) as [Hfin | Hinf].
    + split; [apply canonical_valid; [split; assumption | exact Hfin] |].
      split; [right; right; eauto |].
      split; [intros Hw; contradiction |]. split.
      * intros g eg Hg Hgw. right. exists q, e. split; [reflexivity |].
        exact (Hlower g eg Hg Hgw).
      * intros g eg Hg Heg Hgw. right. exists q, e. split; [reflexivity |].
        exact (Hupper g eg Hg Hgw).
    + split; [reflexivity |]. split; [right; left; reflexivity |].
      split; [intros Hw; contradiction |]. split.
      * intros g eg Hg Hgw. left. reflexivity.
      * intros g eg Hg Heg Hgw. exfalso.
        pose proof (Hupper g eg Hg Hgw) as Hle.
        assert (Hlt : dyadic g eg < dyadic (Zpos q) e).
        { apply canonical_exp_lt; [exact Hg | split; assumption | lia]. }
        lra.
Qed.

(** [binary_round_aux] brackets the value it rounds. *)
Lemma binary_round_aux_brackets (s : bool) (mx ex : Z) (l : location) (w : Q) :
  (0 <= mx)%Z ->
  (ex <= fexp64 (Zdigits2 mx + ex))%Z ->
  dyadic mx ex <= w -> w < dyadic (mx + 1) ex ->
  (l <> loc_Exact -> dyadic mx ex < w) ->
  brackets (if s then - w else w) (binary_round_aux prec emax s mx ex l).
Proof.
  intros Hmx Hpre Hlo Hhi Hstrict.
  destruct (round_magnitude s mx ex l w Hmx Hpre Hlo Hhi Hstrict)
    as (Hvalid & Hshape & Hzero & Hlower & Hupper).
  assert (Hw0 : 0 <= w).
  { apply Qle_trans with (dyadic mx ex); [| exact Hlo].
    rewrite <- (dyadic_0 ex). apply dyadic_le. exact Hmx. }
  set (r := binary_round_aux prec emax s mx ex l) in *.
  split; [destruct Hshape as [-> | [-> | (m & e & ->)]]; reflexivity |].
  split; [exact Hvalid |].
  intros g Hvg Hfg.
  assert (Hfin : forall m e, r = S754_finite s m e ->
                   (SFleb g r = true <-> SFval g <= SFval r) /\
                   (SFleb r g = true <-> SFval r <= SFval g)).
  { intros m e Hr. rewrite Hr in *.
    split; apply SFleb_val; try assumption; reflexivity. }
  assert (Hz : r = S754_zero s ->
               (SFleb g r = true <-> SFval g <= 0) /\
               (SFleb r g = true <-> 0 <= SFval g)).
  { intros Hr. rewrite Hr in *.
    split; (rewrite SFleb_val; [reflexivity | | | |]); try assumption; reflexivity. }
  destruct g as [sg | sg | | sg mg eg]; try discriminate Hfg.
  - (* g is a zero *)
    cbn [SFval]. destruct s.
    + split; intros Hg.
      * assert (Hw : w == 0) by lra. rewrite (Hzero Hw). reflexivity.
      * destruct Hshape as [Hr | [Hr | (m & e & Hr)]]; rewrite Hr; try reflexivity.
    + split; intros Hg.
      * destruct Hshape as [Hr | [Hr | (m & e & Hr)]]; rewrite Hr; try reflexivity.
      * assert (Hw : w == 0) by lra. rewrite (Hzero Hw). reflexivity.
  - (* g is finite *)
    destruct (valid_canonical _ _ _ Hvg) as [Hcg Heg].
    pose proof (dyadic_pos (Zpos mg) eg (proj1 Hcg)) as Hgpos.
    pose proof (SFval_finite sg mg eg) as Hgval.
    destruct s, sg.
    + (* both negative *)
      split; intros Hg.
      * assert (Hgw : w <= dyadic (Zpos mg) eg) by lra.
        destruct (Hupper _ _ Hcg Heg Hgw) as [Hr | (m & e & Hr & Hle)].
        -- rewrite Hr. reflexivity.
        -- apply (proj1 (Hfin m e Hr)). rewrite Hr, !SFval_finite. cbv beta iota. lra.
      * assert (Hgw : dyadic (Zpos mg) eg <= w) by lra.
        destruct (Hlower _ _ Hcg Hgw) as [Hr | (m & e & Hr & Hle)].
        -- rewrite Hr. reflexivity.
        -- apply (proj2 (Hfin m e Hr)). rewrite Hr, !SFval_finite. cbv beta iota. lra.
    + (* r negative, g positive *)
      split; intros Hg; [exfalso; lra |].
      destruct Hshape as [Hr | [Hr | (m & e & Hr)]]; rewrite Hr; reflexivity.
    + (* r positive, g negative *)
      split; intros Hg; [| exfalso; lra].
      destruct Hshape as [Hr | [Hr | (m & e & Hr)]]; rewrite Hr; reflexivity.
    + (* both positive *)
      split; intros Hg.
      * assert (Hgw : dyadic (Zpos mg) eg <= w) by lra.
        destruct (Hlower _ _ Hcg Hgw) as [Hr | (m & e & Hr & Hle)].
        -- rewrite Hr. reflexivity.
        -- apply (proj1 (Hfin m e Hr)). rewrite Hr, !SFval_finite. cbv beta iota. lra.
      * assert (Hgw : w <= dyadic (Zpos mg) eg) by lra.
        destruct (Hupper _ _ Hcg Heg Hgw) as [Hr | (m & e & Hr & Hle)].
        -- rewrite Hr. reflexivity.
        -- apply (proj2 (Hfin m e Hr)). rewrite Hr, !SFval_finite. cbv beta iota. lra.
Qed.

End RoundingBrackets.

Section OperationBrackets.
Local Open Scope Q_scope.

Lemma brackets_ext (v v' : Q) (r : spec_float) :
  v == v' -> brackets v r -> brackets v' r.
Proof.
  intros Heq (Hn & Hv & Hb). split; [exact Hn |]. split; [exact Hv |].
  intros g Hvg Hfg. destruct (Hb g Hvg Hfg) as [H1 H2].
  split; intros H; [apply H1 | apply H2]; lra.
Qed.

(** A valid finite datum brackets its own value. *)
Lemma brackets_exact (r : spec_float) :
  valid_binary r = true -> SFfinite r = true -> brackets (SFval r) r.
Proof.
  intros Hv Hf. split; [apply SFfinite_not_nan; exact Hf |]. split; [exact Hv |].
  intros g Hvg Hfg. split; intros H; apply SFleb_val; assumption.
Qed.

Lemma brackets_zero (s : bool) (v : Q) : v == 0 -> brackets v (S754_zero s).
Proof.
  intros Hv. apply (brackets_ext (SFval (S754_zero s))).
  - cbn [SFval]. lra.
  - apply brackets_exact; reflexivity.
Qed.

(** If the value is that of a valid finite datum, the rounding is that
    datum, up to the sign of zero. *)
Lemma brackets_value (v : Q) (r g : spec_float) :
  brackets v r -> valid_binary g = true -> SFfinite g = true -> SFval g == v ->
  SFfinite r = true /\ SFval r == v.
Proof.
  intros (Hn & Hv & Hb) Hvg Hfg Heq.
  destruct (Hb g Hvg Hfg) as [H1 H2].
  assert (Hgr : SFleb g r = true) by (apply H1; lra).
  assert (Hrg : SFleb r g = true) by (apply H2; lra).
  assert (Hfr : SFfinite r = true) by (apply (SFleb_finite g r g); assumption).
  split; [exact Hfr |].
  apply SFleb_val in Hgr; try assumption.
  apply SFleb_val in Hrg; try assumption. lra.
Qed.

Lemma binary_round_brackets (s : bool) (mx : positive) (ex : Z) :
  brackets (if s then - dyadic (Zpos mx) ex else dyadic (Zpos mx) ex)
           (binary_round prec emax s mx ex).
Proof.
  unfold binary_round. rewrite fexp64_eq.
  pose proof (shl_align_spec mx ex (fexp64 (Zpos (digits2_pos mx) + ex))) as [Hm He].
  destruct (shl_align mx ex _) as [mz ez]. cbn [fst snd] in Hm, He.
  assert (Hk : (0 <= ex - ez)%Z) by lia.
  assert (Hval : dyadic (Zpos mz) ez == dyadic (Zpos mx) ex).
  { rewrite Hm, He. rewrite <- He.
    rewrite <- (dyadic_shift (Zpos mx) ex (ex - ez)) by lia.
    replace (ex - (ex - ez))%Z with ez by lia. rewrite He. reflexivity. }
  assert (Hd : (Zdigits2 (Zpos mz) + ez = Zpos (digits2_pos mx) + ex)%Z).
  { rewrite Hm. rewrite <- He. rewrite Zdigits2_mul_pow2 by lia.
    cbn [Zdigits2]. lia. }
  apply binary_round_aux_brackets.
  - lia.
  - rewrite Hd. lia.
  - rewrite Hval. apply Qle_refl.
  - rewrite <- Hval. apply dyadic_lt. lia.
  - intros H. contradiction H. reflexivity.
Qed.

Lemma binary_normalize_brackets (m e : Z) (szero : bool) :
  brackets (dyadic m e) (binary_normalize prec emax m e szero).
Proof.
  unfold binary_normalize. destruct m as [| p | p].
  - apply brackets_zero. apply dyadic_0.
  - exact (binary_round_brackets false p e).
  - apply (brackets_ext (- dyadic (Zpos p) e)).
    + change (Zneg p) with (- Zpos p)%Z. rewrite dyadic_opp. reflexivity.
    + exact (binary_round_brackets true p e).
Qed.

(** The value of a finite datum, read at a smaller exponent. *)
Lemma SFval_aligned (s : bool) (m : positive) (e ez : Z) :
  (ez <= e)%Z ->
  dyadic (cond_Zopp s (Zpos (fst (shl_align m e ez)))) ez == SFval (S754_finite s m e).
Proof.
  intros Hez. destruct (shl_align_spec m e ez) as [Hm _].
  rewrite Z.min_r in Hm by lia.
  assert (H : dyadic (Zpos (fst (shl_align m e ez))) ez == dyadic (Zpos m) e).
  { rewrite Hm. rewrite <- (dyadic_shift (Zpos m) e (e - ez)) by lia.
    replace (e - (e - ez))%Z with ez by lia. reflexivity. }
  rewrite SFval_finite. destruct s; cbn [cond_Zopp].
  - rewrite dyadic_opp, H. reflexivity.
  - exact H.
Qed.

Lemma SF64add_brackets (x y : spec_float) :
  valid_binary x = true -> valid_binary y = true ->
  SFfinite x = true -> SFfinite y = true ->
  brackets (SFval x + SFval y) (SF64add x y).
Proof.
  intros Hvx Hvy Hfx Hfy. unfold SF64add, SFadd.
  destruct x as [sx | sx | | sx mx ex]; try discriminate Hfx;
    destruct y as [sy | sy | | sy my ey]; try discriminate Hfy.
  - cbn [SFval]. destruct sx, sy; apply brackets_zero; lra.
  - apply (brackets_ext (SFval (S754_finite sy my ey))); [cbn [SFval]; lra |].
    apply brackets_exact; assumption.
  - apply (brackets_ext (SFval (S754_finite sx mx ex))); [cbn [SFval]; lra |].
    apply brackets_exact; assumption.
  - cbv zeta.
    eapply brackets_ext; [| apply binary_normalize_brackets].
    rewrite dyadic_plus, !SFval_aligned by lia. reflexivity.
Qed.

Lemma SF64sub_brackets (x y : spec_float) :
  valid_binary x = true -> valid_binary y = true ->
  SFfinite x = true -> SFfinite y = true ->
  brackets (SFval x - SFval y) (SF64sub x y).
Proof.
  intros Hvx Hvy Hfx Hfy. unfold SF64sub, SFsub.
  destruct x as [sx | sx | | sx mx ex]; try discriminate Hfx;
    destruct y as [sy | sy | | sy my ey]; try discriminate Hfy.
  - cbn [SFval]. destruct sx, sy; apply brackets_zero; lra.
  - apply (brackets_ext (SFval (S754_finite (negb sy) my ey))).
    + rewrite !SFval_finite. cbn [SFval]. destruct sy; cbn [negb]; lra.
    + apply brackets_exact; [| reflexivity].
      destruct (valid_canonical _ _ _ Hvy) as [Hc He].
      apply canonical_valid; assumption.
  - apply (brackets_ext (SFval (S754_finite sx mx ex))); [cbn [SFval]; lra |].
    apply brackets_exact; assumption.
  - cbv zeta.
    eapply brackets_ext; [| apply binary_normalize_brackets].
    unfold Z.sub at 1. rewrite dyadic_plus, dyadic_opp, !SFval_aligned by lia.
    reflexivity.
Qed.

Lemma SF64mul_brackets (x y : spec_float) :
  valid_binary x = true -> valid_binary y = true ->
  SFfinite x = true -> SFfinite y = true ->
  brackets (SFval x * SFval y) (SF64mul x y).
Proof.
  intros Hvx Hvy Hfx Hfy. unfold SF64mul, SFmul.
  destruct x as [sx | sx | | sx mx ex]; try discriminate Hfx;
    destruct y as [sy | sy | | sy my ey]; try discriminate Hfy;
    try (apply brackets_zero; cbn [SFval]; lra).
  destruct (valid_canonical _ _ _ Hvx) as [[_ Hcx] _].
  destruct (valid_canonical _ _ _ Hvy) as [[_ Hcy] _].
  pose proof (Zdigits2_bound (Zpos mx) eq_refl) as [Hxlo Hxhi].
  pose proof (Zdigits2_bound (Zpos my) eq_refl) as [Hylo Hyhi].
  pose proof (Zdigits2_pos (Zpos mx) eq_refl) as Hdx.
  pose proof (Zdigits2_pos (Zpos my) eq_refl) as Hdy.
  assert (Hdig : (Zdigits2 (Zpos mx) + Zdigits2 (Zpos my) - 1
                  <= Zdigits2 (Zpos mx * Zpos my))%Z).
  { replace (Zdigits2 (Zpos mx) + Zdigits2 (Zpos my) - 1)%Z
      with ((Zdigits2 (Zpos mx) - 1 + (Zdigits2 (Zpos my) - 1)) + 1)%Z by lia.
    apply Zdigits2_ge_pow2; [lia |].
    rewrite Z.pow_add_r by lia.
    apply Z.mul_le_mono_nonneg; try assumption; apply Z.pow_nonneg; lia. }
  eapply brackets_ext;
    [| apply (binary_round_aux_brackets (xorb sx sy) (Zpos (mx * my)) (ex + ey)
                loc_Exact (dyadic (Zpos mx) ex * dyadic (Zpos my) ey))].
  - rewrite !SFval_finite. destruct sx, sy; cbn [xorb]; ring.
  - lia.
  - change (Zpos (mx * my)) with (Zpos mx * Zpos my)%Z.
    unfold fexp64 in *. lia.
  - change (Zpos (mx * my)) with (Zpos mx * Zpos my)%Z.
    rewrite dyadic_mult. apply Qle_refl.
  - rewrite <- dyadic_mult. apply dyadic_lt.
    change (Zpos (mx * my)) with (Zpos mx * Zpos my)%Z. lia.
  - intros H. contradiction H. reflexivity.
Qed.

End OperationBrackets.

Section DivisionBrackets.
Local Open Scope Q_scope.

Lemma new_location_exact (n r : Z) : new_location n r <> loc_Exact -> r <> 0%Z.
Proof.
  unfold new_location, new_location_even, new_location_odd.
  intros H Hr. subst r. destruct (Z.even n); cbn in H; contradiction H; reflexivity.
Qed.

Lemma SF64div_brackets (sx : bool) (mx : positive) (ex : Z)
    (sy : bool) (my : positive) (ey : Z) :
  brackets (SFval (S754_finite sx mx ex) / SFval (S754_finite sy my ey))
           (SF64div (S754_finite sx mx ex) (S754_finite sy my ey)).
Proof.
  unfold SF64div, SFdiv, SFdiv_core_binary. rewrite fexp64_eq.
  set (d1 := Zdigits2 (Zpos mx)). set (d2 := Zdigits2 (Zpos my)).
  set (e' := Z.min (fexp64 (d1 + ex - (d2 + ey))) (ex - ey)).
  set (s := (ex - ey - e')%Z).
  assert (Hs : (0 <= s)%Z) by (subst s e'; lia).
  set (m' := match s with
             | Z.pos _ => Z.shiftl (Zpos mx) s
             | 0%Z => Zpos mx
             | Zneg _ => 0%Z
             end).
  assert (Hm' : m' = (Zpos mx * 2 ^ s)%Z).
  { subst m'. destruct s as [| p | p] eqn:Hsp.
    - rewrite Z.pow_0_r. lia.
    - rewrite Z.shiftl_mul_pow2 by lia. reflexivity.
    - lia. }
  pose proof (Z.div_eucl_eq m' (Zpos my) ltac:(lia)) as Heucl.
  pose proof (Z.mod_pos_bound m' (Zpos my) eq_refl) as Hrem.
  unfold Z.modulo in Hrem.
  destruct (Z.div_eucl m' (Zpos my)) as [q r] eqn:Hqr.
  clearbody m'.
  assert (Hps : (0 < 2 ^ s)%Z) by (apply Z.pow_pos_nonneg; lia).
  assert (Hm'pos : (0 < m')%Z) by (rewrite Hm'; lia).
  assert (Hq0 : (0 <= q)%Z) by nia.
  pose proof (Zdigits2_pos (Zpos mx) eq_refl) as Hd1. fold d1 in Hd1.
  pose proof (Zdigits2_pos (Zpos my) eq_refl) as Hd2. fold d2 in Hd2.
  pose proof (Zdigits2_bound (Zpos my) eq_refl) as [_ Hyhi]. fold d2 in Hyhi.
  assert (Hdm : Zdigits2 m' = (d1 + s)%Z).
  { rewrite Hm'. rewrite Zdigits2_mul_pow2 by lia. reflexivity. }
  (* the exponent of the quotient is at most the one of the format *)
  assert (Hpre : (e' <= fexp64 (Zdigits2 q + e'))%Z).
  { destruct (Z.eq_dec q 0) as [-> | Hqne].
    - assert (Hlt : (m' < 2 ^ d2)%Z) by lia.
      pose proof (Zdigits2_lt_pow2 m' d2 Hm'pos Hlt) as Hle.
      cbn [Zdigits2]. subst s e'. unfold fexp64 in *. lia.
    - assert (Hqpos : (0 < q)%Z) by lia.
      pose proof (Zdigits2_bound q Hqpos) as [_ Hqhi].
      pose proof (Zdigits2_pos q Hqpos) as Hdq.
      assert (Hlt : (m' < 2 ^ (Zdigits2 q + d2))%Z).
      { rewrite Z.pow_add_r by lia.
        apply Z.lt_le_trans with ((q + 1) * Zpos my)%Z; [lia |].
        apply Z.mul_le_mono_nonneg; lia. }
      pose proof (Zdigits2_lt_pow2 m' _ Hm'pos Hlt) as Hle.
      subst s e'. unfold fexp64 in *. lia. }
  (* the quotient as a rational *)
  set (w := dyadic (Zpos mx) ex / dyadic (Zpos my) ey).
  pose proof (pow2_pos e') as Hpe.
  pose proof (pow2_pos ey) as Hpy.
  assert (Hyq : 0 < inject_Z (Zpos my)) by reflexivity.
  assert (Hw : w * inject_Z (Zpos my) == inject_Z m' * 2 ^ e').
  { subst w. rewrite Hm'. rewrite inject_Z_mult, <- pow2_inject by lia.
    unfold dyadic. replace ex with (s + (ey + e'))%Z at 1 by (subst s; lia).
    rewrite !pow2_add. field. repeat split; intros H0; lra. }
  assert (Hcmp : forall k : Z,
             (dyadic k e' <= w <-> (k * Zpos my <= m')%Z) /\
             (w < dyadic k e' <-> (m' < k * Zpos my)%Z) /\
             (dyadic k e' < w <-> (k * Zpos my < m')%Z)).
  { intros k.
    assert (Hk : dyadic k e' * inject_Z (Zpos my) == inject_Z (k * Zpos my) * 2 ^ e').
    { unfold dyadic. rewrite inject_Z_mult. ring. }
    split; [| split]; split; intros H.
    - apply (dyadic_le (k * Zpos my) m' e'). unfold dyadic. rewrite <- Hk, <- Hw.
      apply Qmult_le_compat_r; [exact H | apply Qlt_le_weak; exact Hyq].
    - apply (dyadic_le (k * Zpos my) m' e') in H. unfold dyadic in H.
      rewrite <- Hk, <- Hw in H. apply Qmult_le_r in H; assumption.
    - apply (dyadic_lt m' (k * Zpos my) e'). unfold dyadic. rewrite <- Hk, <- Hw.
      apply Qmult_lt_compat_r; assumption.
    - apply (dyadic_lt m' (k * Zpos my) e') in H. unfold dyadic in H.
      rewrite <- Hk, <- Hw in H. apply Qmult_lt_r in H; assumption.
    - apply (dyadic_lt (k * Zpos my) m' e'). unfold dyadic. rewrite <- Hk, <- Hw.
      apply Qmult_lt_compat_r; assumption.
    - apply (dyadic_lt (k * Zpos my) m' e') in H. unfold dyadic in H.
      rewrite <- Hk, <- Hw in H. apply Qmult_lt_r in H; assumption. }
  eapply brackets_ext;
    [| apply (binary_round_aux_brackets (xorb sx sy) q e' (new_location (Zpos my) r) w
                Hq0 Hpre)].
  - subst w. rewrite !SFval_finite. unfold dyadic.
    destruct sx, sy; cbn [xorb]; field; repeat split; intros H0; lra.
  - apply (proj1 (Hcmp q)). lia.
  - apply (proj1 (proj2 (Hcmp (q + 1)%Z))). lia.
  - intros Hloc. apply new_location_exact in Hloc.
    apply (proj2 (proj2 (Hcmp q))). lia.
Qed.

Lemma SF64div_zero_brackets (sx sy : bool) (my : positive) (ey : Z) :
  brackets (0 / SFval (S754_finite sy my ey))
           (SF64div (S754_zero sx) (S754_finite sy my ey)).
Proof.
  cbn [SF64div SFdiv]. apply brackets_zero. unfold Qdiv. ring.
Qed.

End DivisionBrackets.

Section NumberOrder.
Local Open Scope Q_scope.

Lemma finite_valid (x : float) : valid_binary (Prim2SF x) = true.
Proof. apply Prim2SF_valid. Qed.

Lemma leb_value (x y : float) :
  finite x = true -> finite y = true ->
  ((x <=? y)%float = true <-> value x <= value y).
Proof.
  intros Hx Hy. rewrite FloatAxioms.leb_spec.
  apply SFleb_val; try assumption; apply finite_valid.
Qed.

Lemma ltb_value (x y : float) :
  finite x = true -> finite y = true ->
  ((x <? y)%float = true <-> value x < value y).
Proof.
  intros Hx Hy. rewrite FloatAxioms.ltb_spec.
  apply SFltb_val; try assumption; apply finite_valid.
Qed.

Lemma within_value (lo hi x : float) :
  finite lo = true -> finite hi = true -> within lo hi x = true ->
  finite x = true /\ value lo <= value x <= value hi.
Proof.
  intros Hlo Hhi H. unfold within in H. apply andb_prop in H. destruct H as [H1 H2].
  assert (Hx : finite x = true).
  { unfold finite. apply (SFleb_finite (Prim2SF lo) (Prim2SF x) (Prim2SF hi)).
    - exact Hlo.
    - exact Hhi.
    - rewrite <- FloatAxioms.leb_spec. exact H1.
    - rewrite <- FloatAxioms.leb_spec. exact H2. }
  split; [exact Hx |].
  apply leb_value in H1; try assumption.
  apply leb_value in H2; try assumption. split; assumption.
Qed.

Lemma within_of_brackets (v : Q) (lo hi x : float) :
  brackets v (Prim2SF x) ->
  finite lo = true -> finite hi = true ->
  value lo <= v -> v <= value hi ->
  within lo hi x = true.
Proof.
  intros (_ & _ & Hb) Hlo Hhi H1 H2. unfold within.
  rewrite !FloatAxioms.leb_spec.
  rewrite (proj1 (Hb (Prim2SF lo) (finite_valid lo) Hlo) H1).
  rewrite (proj2 (Hb (Prim2SF hi) (finite_valid hi) Hhi) H2).
  reflexivity.
Qed.

Lemma within_refl (x : float) : finite x = true -> within x x x = true.
Proof.
  intros Hx. unfold within.
  assert (H : (x <=? x)%float = true) by (apply leb_value; [assumption .. | apply Qle_refl]).
  rewrite H. reflexivity.
Qed.

Lemma within_weaken (lo hi lo' hi' x : float) :
  within lo hi x = true ->
  finite4 lo hi lo' hi' = true ->
  (lo' <=? lo)%float = true -> (hi <=? hi')%float = true ->
  within lo' hi' x = true.
Proof.
  intros H Hf H1 H2. unfold finite4 in Hf.
  repeat (apply andb_prop in Hf; destruct Hf as [Hf ?]).
  destruct (within_value lo hi x) as (Hx & Hl & Hh); try assumption.
  apply leb_value in H1; try assumption.
  apply leb_value in H2; try assumption.
  unfold within. apply andb_true_intro. split; apply leb_value; try assumption; lra.
Qed.

(** What a number within bounds is not. *)
Lemma within_not_above (lo hi c x : float) :
  within lo hi x = true ->
  finite lo = true -> finite hi = true -> finite c = true ->
  (hi <=? c)%float = true ->
  (c <? x)%float = false.
Proof.
  intros H Hlo Hhi Hc Hle.
  destruct (within_value lo hi x) as (Hx & Hl & Hh); try assumption.
  apply leb_value in Hle; try assumption.
  destruct (c <? x)%float eqn:Hlt; [| reflexivity].
  apply ltb_value in Hlt; try assumption. lra.
Qed.

Lemma within_above (lo hi c x : float) :
  within lo hi x = true ->
  finite lo = true -> finite hi = true -> finite c = true ->
  (c <? lo)%float = true ->
  (c <? x)%float = true.
Proof.
  intros H Hlo Hhi Hc Hlt.
  destruct (within_value lo hi x) as (Hx & Hl & Hh); try assumption.
  apply ltb_value in Hlt; try assumption.
  apply ltb_value; try assumption. lra.
Qed.

End NumberOrder.

(** Swapping the arguments of a comparison swaps its result. *)
Lemma SFcompare_antisym (x y : spec_float) :
  SFcompare y x = option_map CompOpp (SFcompare x y).
Proof.
  destruct x as [sx | sx | | sx mx ex], y as [sy | sy | | sy my ey];
    cbn [SFcompare option_map]; try reflexivity;
    try (destruct sx; reflexivity); try (destruct sy; reflexivity);
    try (destruct sx, sy; reflexivity).
  destruct sx, sy; try reflexivity.
  - rewrite (Z.compare_antisym ex ey).
    change (Pos.compare_cont Eq my mx) with (Pos.compare my mx).
    change (Pos.compare_cont Eq mx my) with (Pos.compare mx my).
    rewrite (Pos.compare_antisym mx my).
    destruct (ex ?= ey)%Z; cbn [CompOpp]; try reflexivity.
  - rewrite (Z.compare_antisym ex ey).
    change (Pos.compare_cont Eq my mx) with (Pos.compare my mx).
    change (Pos.compare_cont Eq mx my) with (Pos.compare mx my).
    rewrite (Pos.compare_antisym mx my).
    destruct (ex ?= ey)%Z; cbn [CompOpp]; try reflexivity.
Qed.

(* ================================================================== *)
(** ** Interval arithmetic on numbers *)
(* ================================================================== *)

Section IntervalArithmetic.
Local Open Scope Q_scope.

Ltac split_ok H :=
  repeat (let H' := fresh "Hok" in apply andb_prop in H; destruct H as [H H']);
  unfold finite4 in *;
  repeat match goal with
         | H : (_ && _)%bool = true |- _ =>
             let H' := fresh "Hok" in apply andb_prop in H; destruct H as [H H']
         end;
  repeat match goal with
         | H : Qle_bool _ _ = true |- _ => apply Qle_bool_iff in H
         end.

Lemma add_within (a b c d l h x y : float) :
  within a b x = true -> within c d y = true ->
  add_ok a b c d l h = true ->
  within l h (x + y) = true.
Proof.
  intros Hx Hy Hok. unfold add_ok in Hok. split_ok Hok.
  destruct (within_value a b x) as (Hfx & Hxl & Hxh); try assumption.
  destruct (within_value c d y) as (Hfy & Hyl & Hyh); try assumption.
  apply (within_of_brackets (value x + value y)); try assumption; try lra.
  rewrite add_spec. apply SF64add_brackets; try assumption; apply finite_valid.
Qed.

Lemma sub_within (a b c d l h x y : float) :
  within a b x = true -> within c d y = true ->
  sub_ok a b c d l h = true ->
  within l h (x - y) = true.
Proof.
  intros Hx Hy Hok. unfold sub_ok in Hok. split_ok Hok.
  destruct (within_value a b x) as (Hfx & Hxl & Hxh); try assumption.
  destruct (within_value c d y) as (Hfy & Hyl & Hyh); try assumption.
  apply (within_of_brackets (value x - value y)); try assumption; try lra.
  rewrite sub_spec. apply SF64sub_brackets; try assumption; apply finite_valid.
Qed.

(** A product over a box is between the products at the corners. *)
Lemma product_in_box (a b c d l h x y : Q) :
  a <= x <= b -> c <= y <= d ->
  l <= a * c <= h -> l <= a * d <= h -> l <= b * c <= h -> l <= b * d <= h ->
  l <= x * y <= h.
Proof.
  intros Hx Hy Hac Had Hbc Hbd.
  assert (Hay : l <= a * y <= h).
  { destruct (Qlt_le_dec a 0); split; nra. }
  assert (Hby : l <= b * y <= h).
  { destruct (Qlt_le_dec b 0); split; nra. }
  destruct (Qlt_le_dec y 0); split; nra.
Qed.

Lemma mul_within (a b c d l h x y : float) :
  within a b x = true -> within c d y = true ->
  mul_ok a b c d l h = true ->
  within l h (x * y) = true.
Proof.
  intros Hx Hy Hok. unfold mul_ok in Hok. split_ok Hok.
  destruct (within_value a b x) as (Hfx & Hxl & Hxh); try assumption.
  destruct (within_value c d y) as (Hfy & Hyl & Hyh); try assumption.
  destruct (product_in_box (value a) (value b) (value c) (value d) (value l) (value h)
              (value x) (value y)) as [Hl Hh]; try (split; assumption).
  apply (within_of_brackets (value x * value y)); try assumption.
  rewrite mul_spec. apply SF64mul_brackets; try assumption; apply finite_valid.
Qed.

Lemma quotient_in_box (a b c d l h x y : Q) :
  a <= x <= b -> c <= y <= d -> 0 < c ->
  l * c <= a -> l * d <= a -> b <= h * c -> b <= h * d ->
  l <= x / y <= h.
Proof.
  intros Hx Hy Hc H1 H2 H3 H4.
  assert (Hy0 : 0 < y) by lra.
  split.
  - apply Qle_shift_div_l; [exact Hy0 |].
    destruct (Qlt_le_dec l 0); nra.
  - apply Qle_shift_div_r; [exact Hy0 |].
    destruct (Qlt_le_dec h 0); nra.
Qed.

Lemma div_within (a b c d l h x y : float) :
  within a b x = true -> within c d y = true ->
  div_ok a b c d l h = true ->
  within l h (x / y) = true.
Proof.
  intros Hx Hy Hok. unfold div_ok in Hok. split_ok Hok.
  destruct (within_value a b x) as (Hfx & Hxl & Hxh); try assumption.
  destruct (within_value c d y) as (Hfy & Hyl & Hyh); try assumption.
  assert (Hc : 0 < value c).
  { match goal with
    | H : negb (Qle_bool (value c) 0) = true |- _ =>
        apply negb_true_iff in H;
        destruct (Qlt_le_dec 0 (value c)) as [Hpos | Hneg]; [exact Hpos |];
        apply Qle_bool_iff in Hneg; congruence
    end. }
  destruct (quotient_in_box (value a) (value b) (value c) (value d) (value l) (value h)
              (value x) (value y)) as [Hl Hh]; try (split; assumption); try assumption.
  apply (within_of_brackets (value x / value y)); try assumption.
  rewrite div_spec. unfold finite, value in *.
  destruct (Prim2SF y) as [sy | sy | | sy my ey] eqn:Ey; try discriminate Hfy.
  - cbn [SFval] in *. lra.
  - destruct (Prim2SF x) as [sx | sx | | sx mx ex] eqn:Ex; try discriminate Hfx.
    + apply SF64div_zero_brackets.
    + apply SF64div_brackets.
Qed.

End IntervalArithmetic.

Section IntegerNumbers.
Local Open Scope Q_scope.

(** Every integer below [2^53] in magnitude is a binary64 value. *)
Lemma integer_representable (n : Z) :
  (Z.abs n < 2 ^ 53)%Z ->
  exists g, valid_binary g = true /\ SFfinite g = true /\ SFval g == inject_Z n.
Proof.
  intros Hn. destruct (Z.eq_dec n 0) as [-> | Hne].
  - exists (S754_zero false). repeat split; reflexivity.
  - set (p := Z.abs n). assert (Hp : (0 < p)%Z) by (subst p; lia).
    pose proof (Zdigits2_lt_pow2 p 53 Hp Hn) as Hd.
    pose proof (Zdigits2_pos p Hp) as Hd1.
    set (k := (53 - Zdigits2 p)%Z). assert (Hk : (0 <= k <= 52)%Z) by (subst k; lia).
    assert (Hpk : (0 < 2 ^ k)%Z) by (apply Z.pow_pos_nonneg; lia).
    set (m := (p * 2 ^ k)%Z). assert (Hm : (0 < m)%Z) by (subst m; lia).
    assert (Hdm : Zdigits2 m = 53%Z).
    { subst m. rewrite Zdigits2_mul_pow2 by lia. subst k. lia. }
    assert (Hmv : dyadic m (- k) == inject_Z p).
    { subst m. replace (- k)%Z with (0 - k)%Z by lia. rewrite dyadic_shift by lia.
      unfold dyadic. change (2 ^ 0) with 1. ring. }
    destruct m as [| q | q] eqn:Em; try lia.
    exists (S754_finite (n <? 0)%Z q (- k)).
    split; [| split; [reflexivity |]].
    + apply canonical_valid; [| lia]. split; [reflexivity |].
      rewrite Hdm. unfold fexp64. lia.
    + rewrite SFval_finite. subst p.
      destruct (Z.ltb_spec n 0) as [Hneg | Hpos]; rewrite Hmv.
      * rewrite Z.abs_neq by lia. rewrite inject_Z_opp. ring.
      * rewrite Z.abs_eq by lia. reflexivity.
Qed.

Lemma of_Z_value (n : Z) :
  (Z.abs n < 2 ^ 53)%Z ->
  finite (of_Z n) = true /\ value (of_Z n) == inject_Z n.
Proof.
  intros Hn. unfold finite, value, of_Z.
  pose proof (binary_normalize_brackets n 0 false) as Hb.
  destruct Hb as (Hnan & Hvalid & Hb').
  rewrite Prim2SF_SF2Prim by exact Hvalid.
  destruct (integer_representable n Hn) as (g & Hvg & Hfg & Hg).
  assert (Hd : dyadic n 0 == inject_Z n).
  { unfold dyadic. change (2 ^ 0) with 1. ring. }
  destruct (brackets_value (dyadic n 0) (binary_normalize prec emax n 0 false) g)
    as [Hf Hv].
  - split; [exact Hnan |]. split; [exact Hvalid | exact Hb'].
  - exact Hvg.
  - exact Hfg.
  - rewrite Hg, Hd. reflexivity.
  - split; [exact Hf |]. rewrite Hv. exact Hd.
Qed.

(** Sums and differences of integers are exact below [2^53]. *)
Lemma add_integers (x y : float) (a b : Z) :
  finite x = true -> finite y = true ->
  value x == inject_Z a -> value y == inject_Z b ->
  (Z.abs (a + b) < 2 ^ 53)%Z ->
  finite (x + y) = true /\ value (x + y) == inject_Z (a + b).
Proof.
  intros Hfx Hfy Hx Hy Hn. unfold finite, value. rewrite add_spec.
  destruct (integer_representable (a + b) Hn) as (g & Hvg & Hfg & Hg).
  apply (brackets_value _ _ g); try assumption.
  eapply brackets_ext;
      [| apply SF64add_brackets; try assumption; apply finite_valid].
    fold (value x) (value y). rewrite Hx, Hy, inject_Z_plus. reflexivity.
Qed.

Lemma mul_integers (x y : float) (a b : Z) :
  finite x = true -> finite y = true ->
  value x == inject_Z a -> value y == inject_Z b ->
  (Z.abs (a * b) < 2 ^ 53)%Z ->
  finite (x * y) = true /\ value (x * y) == inject_Z (a * b).
Proof.
  intros Hfx Hfy Hx Hy Hn. unfold finite, value. rewrite mul_spec.
  destruct (integer_representable (a * b) Hn) as (g & Hvg & Hfg & Hg).
  apply (brackets_value _ _ g); try assumption.
  eapply brackets_ext;
      [| apply SF64mul_brackets; try assumption; apply finite_valid].
    fold (value x) (value y). rewrite Hx, Hy, inject_Z_mult. reflexivity.
Qed.

Lemma of_Z_within (lo hi n : Z) :
  (- 2 ^ 53 < lo)%Z -> (lo <= n <= hi)%Z -> (hi < 2 ^ 53)%Z ->
  within (of_Z lo) (of_Z hi) (of_Z n) = true.
Proof.
  intros Hlo Hn Hhi.
  destruct (of_Z_value lo) as [Fl Vl]; [lia |].
  destruct (of_Z_value hi) as [Fh Vh]; [lia |].
  destruct (of_Z_value n) as [Fn Vn]; [lia |].
  unfold within. apply andb_true_intro.
  split; apply leb_value; try assumption.
  - rewrite Vl, Vn. rewrite <- Zle_Qle. lia.
  - rewrite Vn, Vh. rewrite <- Zle_Qle. lia.
Qed.

End IntegerNumbers.

Section MathFunctions.
Local Open Scope Q_scope.

Lemma opp_value (x : float) :
  finite (- x) = finite x /\ value (- x) == - value x.
Proof.
  unfold finite, value. rewrite opp_spec.
  destruct (Prim2SF x) as [s | s | | s m e]; cbn [SFopp SFfinite SFval];
    try (split; [reflexivity | ring]).
  split; [reflexivity |].
  fold (SFval (S754_finite (negb s) m e)). fold (SFval (S754_finite s m e)).
  rewrite !SFval_finite. destruct s; cbn [negb]; ring.
Qed.

Lemma abs_value (x : float) :
  finite (abs x) = finite x /\ value (abs x) == Qabs (value x).
Proof.
  unfold finite, value. rewrite abs_spec.
  destruct (Prim2SF x) as [s | s | | s m e] eqn:Ex; cbn [SFabs SFfinite];
    try (split; reflexivity).
  split; [reflexivity |].
  pose proof (dyadic_pos (Zpos m) e eq_refl) as Hpos.
  rewrite !SFval_finite. destruct s.
  - rewrite Qabs_neg by lra. ring.
  - rewrite Qabs_pos by lra. reflexivity.
Qed.

Lemma Math_abs_within (a b l h x : float) :
  within a b x = true -> abs_ok a b l h = true ->
  within l h (Math_abs x) = true.
Proof.
  intros Hx Hok. unfold abs_ok in Hok.
  repeat (let H' := fresh "Hok" in apply andb_prop in Hok; destruct Hok as [Hok H']).
  repeat match goal with
         | H : Qle_bool _ _ = true |- _ => apply Qle_bool_iff in H
         end.
  destruct (within_value a b x) as (Hfx & Hxl & Hxh); try assumption.
  destruct (abs_value x) as [Hfa Hva]. rewrite Hfx in Hfa.
  unfold Math_abs, within. apply andb_true_intro.
  split; apply leb_value; try assumption; rewrite Hva.
  - apply Qle_trans with 0; [assumption | apply Qabs_nonneg].
  - apply Qabs_Qle_condition. lra.
Qed.

Lemma finite_not_nan (x : float) : finite x = true -> is_nan x = false.
Proof.
  intros H. rewrite is_nan_spec. apply SFfinite_not_nan. exact H.
Qed.

Lemma Math_max_within (c a b l h x : float) :
  within a b x = true -> max_ok c a b l h = true ->
  within l h (Math_max c x) = true.
Proof.
  intros Hx Hok. unfold max_ok in Hok.
  repeat (let H' := fresh "Hok" in apply andb_prop in Hok; destruct Hok as [Hok H']).
  repeat match goal with
         | H : Qle_bool _ _ = true |- _ => apply Qle_bool_iff in H
         end.
  destruct (within_value a b x) as (Hfx & Hxl & Hxh); try assumption.
  assert (Hlow : value l <= value c \/ value l <= value a).
  { match goal with
    | H : (_ || _)%bool = true |- _ =>
        apply orb_prop in H; destruct H as [H | H]; apply Qle_bool_iff in H;
        [left | right]; exact H
    end. }
  unfold Math_max. rewrite (finite_not_nan c), (finite_not_nan x) by assumption.
  cbn [orb].
  assert (Hr : forall r, finite r = true ->
                 value l <= value r -> value r <= value h -> within l h r = true).
  { intros r Hfr H1 H2. unfold within. apply andb_true_intro.
    split; apply leb_value; assumption. }
  destruct (c <? x)%float eqn:H1.
  - apply ltb_value in H1; try assumption.
    apply Hr; [assumption | destruct Hlow; lra | lra].
  - assert (H1' : value x <= value c).
    { destruct (Qlt_le_dec (value c) (value x)) as [Hlt | Hle]; [| exact Hle].
      apply ltb_value in Hlt; try assumption. congruence. }
    destruct (x <? c)%float eqn:H2.
    + apply Hr; [assumption | destruct Hlow; lra | lra].
    + assert (H2' : value c <= value x).
      { destruct (Qlt_le_dec (value x) (value c)) as [Hlt | Hle]; [| exact Hle].
        apply ltb_value in Hlt; try assumption. congruence. }
      destruct (get_sign c); apply Hr; try assumption; try lra; destruct Hlow; lra.
Qed.

End MathFunctions.

Section Roundings.
Local Open Scope Q_scope.

(** Rounding half up at exponent [e < 0]: the integer computed by
    [Math_round] and by [nearest_scaled] is within one half of the value. *)
Lemma round_half_up_bounds (M e : Z) :
  (e < 0)%Z ->
  let q := ((2 * M + 2 ^ (- e)) / 2 ^ (1 - e))%Z in
  inject_Z q - (1 # 2) <= dyadic M e /\ dyadic M e < inject_Z q + (1 # 2).
Proof.
  intros He q.
  assert (Hp : (0 < 2 ^ (1 - e))%Z) by (apply Z.pow_pos_nonneg; lia).
  assert (Hpk : (0 < 2 ^ (- e))%Z) by (apply Z.pow_pos_nonneg; lia).
  assert (Hp2 : (2 ^ (1 - e) = 2 * 2 ^ (- e))%Z).
  { replace (1 - e)%Z with (Z.succ (- e)) by lia. apply Z.pow_succ_r. lia. }
  pose proof (Z.div_mod (2 * M + 2 ^ (- e)) (2 ^ (1 - e)) ltac:(lia)) as Hdiv.
  pose proof (Z.mod_pos_bound (2 * M + 2 ^ (- e)) (2 ^ (1 - e)) Hp) as Hmod.
  fold q in Hdiv.
  (* everything at the exponent e - 1 *)
  assert (Hq : forall k : Z, inject_Z k == dyadic (k * 2 ^ (1 - e)) (e - 1)).
  { intros k. replace (e - 1)%Z with (0 - (1 - e))%Z by lia.
    rewrite dyadic_shift by lia. unfold dyadic. change (2 ^ 0) with 1. ring. }
  assert (Hx : dyadic M e == dyadic (2 * M) (e - 1)).
  { rewrite <- (dyadic_shift M e 1) by lia. change (2 ^ 1)%Z with 2%Z.
    rewrite Z.mul_comm. reflexivity. }
  assert (Hhalf : (1 # 2) == dyadic (2 ^ (- e)) (e - 1)).
  { replace (2 ^ (- e))%Z with (1 * 2 ^ (- e))%Z by lia.
    replace (e - 1)%Z with (-1 - - e)%Z by lia.
    rewrite dyadic_shift by lia. unfold dyadic. reflexivity. }
  split.
  - apply Qplus_le_l with (z := 1 # 2).
    setoid_replace (inject_Z q - (1 # 2) + (1 # 2)) with (inject_Z q) by ring.
    rewrite (Hq q), Hx, Hhalf, <- dyadic_plus. apply dyadic_le. lia.
  - apply Qplus_lt_l with (z := 1 # 2).
    setoid_replace (inject_Z q + (1 # 2) + (1 # 2)) with (inject_Z (q + 1))
      by (rewrite inject_Z_plus; change (inject_Z 1) with 1; ring).
    rewrite (Hq (q + 1)%Z), Hx, Hhalf, <- dyadic_plus. apply dyadic_lt. lia.
Qed.

Lemma integer_between (L H q : Z) (x a b : Q) :
  inject_Z L - (1 # 2) <= a -> a <= x -> x <= b -> b < inject_Z H + (1 # 2) ->
  inject_Z q - (1 # 2) <= x -> x < inject_Z q + (1 # 2) ->
  (L <= q <= H)%Z.
Proof.
  intros H1 H2 H3 H4 H5 H6.
  assert (HL : inject_Z L < inject_Z (q + 1))
    by (rewrite inject_Z_plus; change (inject_Z 1) with 1; lra).
  assert (HH : inject_Z q < inject_Z (H + 1))
    by (rewrite inject_Z_plus; change (inject_Z 1) with 1; lra).
  rewrite <- Zlt_Qlt in HL, HH. lia.
Qed.

Lemma minus_zero_value : finite (-0)%float = true /\ value (-0)%float == 0.
Proof. split; vm_compute; reflexivity. Qed.

Lemma zero_value : finite 0%float = true /\ value 0%float == 0.
Proof. split; vm_compute; reflexivity. Qed.

Lemma within_intro (l h r : float) :
  finite l = true -> finite h = true -> finite r = true ->
  value l <= value r -> value r <= value h -> within l h r = true.
Proof.
  intros Hl Hh Hr H1 H2. unfold within. apply andb_true_intro.
  split; apply leb_value; assumption.
Qed.

Lemma Math_round_within (a b x : float) (L H : Z) :
  within a b x = true -> round_ok a b L H = true ->
  within (of_Z L) (of_Z H) (Math_round x) = true.
Proof.
  intros Hx Hok. unfold round_ok in Hok.
  repeat (let H' := fresh "Hok" in apply andb_prop in Hok; destruct Hok as [Hok H']).
  repeat match goal with
         | Hb : Qle_bool _ _ = true |- _ => apply Qle_bool_iff in Hb
         | Hb : (_ <? _)%Z = true |- _ => apply Z.ltb_lt in Hb
         | Hb : (_ <=? _)%Z = true |- _ => apply Z.leb_le in Hb
         end.
  assert (HbH : value b < inject_Z H + (1 # 2)).
  { match goal with
    | Hneg : negb (Qle_bool _ _) = true |- _ =>
        apply negb_true_iff in Hneg;
        destruct (Qlt_le_dec (value b) (inject_Z H + (1 # 2))) as [Hlt | Hge];
        [exact Hlt | apply Qle_bool_iff in Hge; congruence]
    end. }
  destruct (within_value a b x) as (Hfx & Hxl & Hxh); try assumption.
  destruct (of_Z_value L) as [FL VL]; [lia |].
  destruct (of_Z_value H) as [FH VH]; [lia |].
  assert (Hint : forall q : Z,
             inject_Z q - (1 # 2) <= value x -> value x < inject_Z q + (1 # 2) ->
             (L <= q <= H)%Z).
  { intros q H5 H6.
    apply (integer_between L H q (value x) (value a) (value b)); assumption. }
  assert (Hself : forall N : Z, value x == inject_Z N -> within (of_Z L) (of_Z H) x = true).
  { intros N HN.
    assert (HLN : (L <= N <= H)%Z) by (apply Hint; rewrite HN; lra).
    apply within_intro; try assumption; rewrite ?VL, ?VH, HN; rewrite <- Zle_Qle; lia. }
  unfold Math_round. unfold finite, value in Hfx, Hself, Hint, Hxl, Hxh.
  destruct (Prim2SF x) as [s | s | | s m e] eqn:Ex; try discriminate Hfx.
  - apply (Hself 0%Z). reflexivity.
  - destruct (Z.leb_spec 0 e) as [Hpos | Hneg].
    + apply (Hself (cond_Zopp s (Zpos m) * 2 ^ e)%Z).
      unfold SFval, dyadic. rewrite inject_Z_mult, <- pow2_inject by lia. reflexivity.
    + set (q := ((2 * cond_Zopp s (Zpos m) + 2 ^ (- e)) / 2 ^ (1 - e))%Z).
      destruct (round_half_up_bounds (cond_Zopp s (Zpos m)) e Hneg) as [Hq1 Hq2].
      fold q in Hq1, Hq2.
      assert (HLq : (L <= q <= H)%Z) by (apply Hint; assumption).
      destruct (Z.eqb_spec q 0) as [Hz | Hnz].
      * assert (H0 : forall z, finite z = true -> value z == 0 ->
                       within (of_Z L) (of_Z H) z = true).
        { intros z Hfz Hvz.
          apply within_intro; try assumption; rewrite ?VL, ?VH, Hvz;
            change 0 with (inject_Z 0); rewrite <- Zle_Qle; lia. }
        destruct s; apply H0;
          first [apply minus_zero_value | apply zero_value].
      * apply of_Z_within; lia.
Qed.

(** The decimal that [toFixed] produces is within half a unit of its
    last place of the magnitude of the number. *)
Lemma nearest_scaled_bounds (m : positive) (e f : Z) :
  (0 <= f)%Z ->
  let n := nearest_scaled m e f in
  (0 <= n)%Z /\
  inject_Z n - (1 # 2) <= dyadic (Zpos m) e * inject_Z (10 ^ f) /\
  dyadic (Zpos m) e * inject_Z (10 ^ f) < inject_Z n + (1 # 2).
Proof.
  intros Hf n. subst n. unfold nearest_scaled.
  assert (H10 : (0 < 10 ^ f)%Z) by (apply Z.pow_pos_nonneg; lia).
  destruct (Z.leb_spec 0 e) as [Hpos | Hneg].
  - assert (H2 : (0 < 2 ^ e)%Z) by (apply Z.pow_pos_nonneg; lia).
    split; [nia |].
    assert (Heq : dyadic (Zpos m) e * inject_Z (10 ^ f)
                  == inject_Z (Zpos m * 2 ^ e * 10 ^ f)).
    { unfold dyadic. rewrite !inject_Z_mult, <- pow2_inject by lia. reflexivity. }
    rewrite Heq. split; lra.
  - assert (Hp : (0 < 2 ^ (1 - e))%Z) by (apply Z.pow_pos_nonneg; lia).
    assert (Hpk : (0 < 2 ^ (- e))%Z) by (apply Z.pow_pos_nonneg; lia).
    split; [apply Z.div_pos; nia |].
    assert (Heq : dyadic (Zpos m) e * inject_Z (10 ^ f) == dyadic (Zpos m * 10 ^ f) e).
    { unfold dyadic. rewrite inject_Z_mult. ring. }
    rewrite Heq.
    replace (2 * Zpos m * 10 ^ f)%Z with (2 * (Zpos m * 10 ^ f))%Z by ring.
    apply round_half_up_bounds. exact Hneg.
Qed.

Lemma nearest_quotient_brackets (p d : positive) :
  brackets (inject_Z (Zpos p) / inject_Z (Zpos d)) (Prim2SF (nearest_quotient p d)).
Proof.
  unfold nearest_quotient.
  pose proof (SF64div_brackets false p 0 false d 0) as Hb.
  rewrite Prim2SF_SF2Prim by (exact (proj1 (proj2 Hb))).
  eapply brackets_ext; [| exact Hb].
  rewrite !SFval_finite. unfold dyadic. change (2 ^ 0) with 1.
  field. intros H0. assert (0 < inject_Z (Zpos d)) by reflexivity. lra.
Qed.

Lemma Number_toFixed_within (f : Z) (a b l h x : float) :
  within a b x = true -> fixed_ok f a b l h = true ->
  within l h (Number (toFixed x f)) = true.
Proof.
  intros Hx Hok. unfold fixed_ok in Hok.
  repeat (let H' := fresh "Hok" in apply andb_prop in Hok; destruct Hok as [Hok H']).
  repeat match goal with
         | H : Qle_bool _ _ = true |- _ => apply Qle_bool_iff in H
         | H : (_ <=? _)%Z = true |- _ => apply Z.leb_le in H
         end.
  destruct (within_value a b x) as (Hfx & Hxl & Hxh); try assumption.
  assert (H10 : (0 < 10 ^ f)%Z) by (apply Z.pow_pos_nonneg; lia).
  assert (HT : 0 < inject_Z (10 ^ f)).
  { change 0 with (inject_Z 0). rewrite <- Zlt_Qlt. exact H10. }
  set (T := inject_Z (10 ^ f)) in *.
  set (dl := 1 / (2 * T)) in *.
  assert (Hdl : 0 < dl).
  { subst dl. apply Qlt_shift_div_l; lra. }
  assert (HdT : dl * T == 1 # 2).
  { subst dl. field. intros H0. lra. }
  assert (Hself : within l h x = true).
  { apply within_intro; try assumption; lra. }
  assert (Hzero : forall z, finite z = true -> value z == 0 ->
                    value x - dl < 0 -> 0 < value x + dl -> within l h z = true).
  { intros z Hfz Hvz H1 H2. apply within_intro; try assumption; rewrite Hvz; lra. }
  assert (Hvx : value x == SFval (Prim2SF x)) by reflexivity.
  unfold toFixed. unfold finite in Hfx.
  destruct (Prim2SF x) as [s | s | | s m e] eqn:Ex; try discriminate Hfx.
  - cbn [Number]. cbn [SFval] in Hvx. apply Hzero; try apply zero_value; lra.
  - destruct (1e21 <=? abs x)%float; [exact Hself |].
    destruct (nearest_scaled_bounds m e f ltac:(assumption)) as (Hn0 & Hn1 & Hn2).
    fold T in Hn1, Hn2.
    pose proof (SFval_finite s m e) as Hval.
    pose proof (dyadic_pos (Zpos m) e eq_refl) as Hmag.
    set (w := dyadic (Zpos m) e) in *.
    cbn [Number].
    destruct (nearest_scaled m e f) as [| p | p] eqn:En; try lia.
    + (* the decimal is zero *)
      assert (Hsmall : w < dl).
      { apply Qmult_lt_r with (z := T); [exact HT |]. rewrite HdT.
        change (inject_Z 0) with 0 in Hn2. lra. }
      destruct s; cbv beta iota in Hval; apply Hzero;
        first [apply minus_zero_value | apply zero_value | lra].
    + (* the decimal is p / 10^f *)
      assert (Hd : Zpos (Z.to_pos (10 ^ f)) = (10 ^ f)%Z) by (apply Z2Pos.id; exact H10).
      pose proof (nearest_quotient_brackets p (Z.to_pos (10 ^ f))) as Hb.
      rewrite Hd in Hb. fold T in Hb.
      set (v := inject_Z (Zpos p) / T) in *.
      assert (Hv1 : w - dl <= v).
      { subst v. apply Qle_shift_div_l; [exact HT |].
        setoid_replace ((w - dl) * T) with (w * T - dl * T) by ring. lra. }
      assert (Hv2 : v <= w + dl).
      { subst v. apply Qle_shift_div_r; [exact HT |].
        setoid_replace ((w + dl) * T) with (w * T + dl * T) by ring. lra. }
      destruct s; cbv beta iota in Hval.
      * destruct (opp_value l) as [Fl Vl]. destruct (opp_value h) as [Fh Vh].
        assert (Hw : within (- h) (- l) (nearest_quotient p (Z.to_pos (10 ^ f))) = true).
        { apply (within_of_brackets v); try assumption; try congruence;
            rewrite ?Vl, ?Vh; lra. }
        destruct (within_value (- h) (- l) _ ltac:(congruence) ltac:(congruence) Hw)
          as (Fq & Hq1 & Hq2).
        destruct (opp_value (nearest_quotient p (Z.to_pos (10 ^ f)))) as [Fo Vo].
        apply within_intro; try assumption; try congruence; rewrite Vo; lra.
      * apply (within_of_brackets v); try assumption; lra.
Qed.

End Roundings.

Section Decimals.
Local Open Scope Q_scope.

Lemma Qle_bool_false (x y : Q) : negb (Qle_bool x y) = true -> y < x.
Proof.
  intros H. apply negb_true_iff in H.
  destruct (Qlt_le_dec y x) as [Hlt | Hge]; [exact Hlt |].
  apply Qle_bool_iff in Hge. congruence.
Qed.

Lemma Number_toFixed_decimal (f : Z) (a b x : float) (L H : Z) :
  within a b x = true -> decimal_ok f a b L H = true ->
  exists n : positive,
    (L <= Zpos n <= H)%Z /\
    Number (toFixed x f) = nearest_quotient n (Z.to_pos (10 ^ f)).
Proof.
  intros Hx Hok. unfold decimal_ok in Hok.
  repeat (let H' := fresh "Hok" in apply andb_prop in Hok; destruct Hok as [Hok H']).
  repeat match goal with
         | Hb : Qle_bool _ _ = true |- _ => apply Qle_bool_iff in Hb
         | Hb : negb (Qle_bool _ _) = true |- _ => apply Qle_bool_false in Hb
         | Hb : (_ <=? _)%Z = true |- _ => apply Z.leb_le in Hb
         | Hb : (_ <? _)%Z = true |- _ => apply Z.ltb_lt in Hb
         end.
  destruct (within_value a b x) as (Hfx & Hxl & Hxh); try assumption.
  assert (H10 : (0 < 10 ^ f)%Z) by (apply Z.pow_pos_nonneg; lia).
  assert (HT : 0 < inject_Z (10 ^ f)).
  { change 0 with (inject_Z 0). rewrite <- Zlt_Qlt. exact H10. }
  set (T := inject_Z (10 ^ f)) in *.
  destruct (abs_value x) as [Hfa Hva]. rewrite Hfx in Hfa.
  assert (Hbig : (1e21 <=? abs x)%float = false).
  { destruct (1e21 <=? abs x)%float eqn:E; [| reflexivity].
    apply leb_value in E; [| vm_compute; reflexivity | exact Hfa].
    rewrite Hva, Qabs_pos in E by lra. lra. }
  assert (Hvx : value x == SFval (Prim2SF x)) by reflexivity.
  unfold toFixed. rewrite Hbig. unfold finite in Hfx.
  destruct (Prim2SF x) as [s | s | | s m e] eqn:Ex; try discriminate Hfx.
  - cbn [SFval] in Hvx. lra.
  - destruct (nearest_scaled_bounds m e f ltac:(assumption)) as (Hn0 & Hn1 & Hn2).
    fold T in Hn1, Hn2.
    pose proof (SFval_finite s m e) as Hval. rewrite <- Hvx in Hval.
    pose proof (dyadic_pos (Zpos m) e eq_refl) as Hmag.
    destruct s; cbv beta iota in Hval; [lra |].
    set (w := dyadic (Zpos m) e) in *.
    assert (Hlo : value a * T <= w * T) by (apply Qmult_le_compat_r; lra).
    assert (Hhi : w * T <= value b * T) by (apply Qmult_le_compat_r; lra).
    assert (HL : inject_Z L < inject_Z (nearest_scaled m e f + 1))
      by (rewrite inject_Z_plus; change (inject_Z 1) with 1; lra).
    assert (HH : inject_Z (nearest_scaled m e f) < inject_Z (H + 1))
      by (rewrite inject_Z_plus; change (inject_Z 1) with 1; lra).
    rewrite <- Zlt_Qlt in HL, HH.
    destruct (nearest_scaled m e f) as [| p | p] eqn:En; try lia.
    exists p. split; [lia |]. reflexivity.
Qed.

End Decimals.

(** *** Finding an interval for an expression *)

(** [bound x k]: find an interval for the number [x] from the intervals
    of its leaves (hypotheses [within a b leaf = true], or constants), add
    it to the context and pass its name to [k]. *)
Ltac bound x k :=
  lazymatch goal with
  | Hx : within _ _ x = true |- _ => k Hx
  | _ =>
    lazymatch x with
    | (?p + ?q)%float =>
        bound p ltac:(fun Hp => bound q ltac:(fun Hq =>
          lazymatch type of Hp with
          | within ?a ?b _ = true =>
            lazymatch type of Hq with
            | within ?c ?d _ = true =>
              let l := eval vm_compute in (add_lo a c) in
              let h := eval vm_compute in (add_hi b d) in
              let H := fresh "B" in
              assert (H : within l h x = true)
                by (apply (add_within a b c d l h p q Hp Hq); vm_compute; reflexivity);
              k H
            end
          end))
    | (?p - ?q)%float =>
        bound p ltac:(fun Hp => bound q ltac:(fun Hq =>
          lazymatch type of Hp with
          | within ?a ?b _ = true =>
            lazymatch type of Hq with
            | within ?c ?d _ = true =>
              let l := eval vm_compute in (sub_lo a d) in
              let h := eval vm_compute in (sub_hi b c) in
              let H := fresh "B" in
              assert (H : within l h x = true)
                by (apply (sub_within a b c d l h p q Hp Hq); vm_compute; reflexivity);
              k H
            end
          end))
    | (?p * ?q)%float =>
        bound p ltac:(fun Hp => bound q ltac:(fun Hq =>
          lazymatch type of Hp with
          | within ?a ?b _ = true =>
            lazymatch type of Hq with
            | within ?c ?d _ = true =>
              let l := eval vm_compute in (mul_lo a b c d) in
              let h := eval vm_compute in (mul_hi a b c d) in
              let H := fresh "B" in
              assert (H : within l h x = true)
                by (apply (mul_within a b c d l h p q Hp Hq); vm_compute; reflexivity);
              k H
            end
          end))
    | (?p / ?q)%float =>
        bound p ltac:(fun Hp => bound q ltac:(fun Hq =>
          lazymatch type of Hp with
          | within ?a ?b _ = true =>
            lazymatch type of Hq with
            | within ?c ?d _ = true =>
              let l := eval vm_compute in (div_lo a b c d) in
              let h := eval vm_compute in (div_hi a b c d) in
              let H := fresh "B" in
              assert (H : within l h x = true)
                by (apply (div_within a b c d l h p q Hp Hq); vm_compute; reflexivity);
              k H
            end
          end))
    | Math_max ?c ?p =>
        bound p ltac:(fun Hp =>
          lazymatch type of Hp with
          | within ?a ?b _ = true =>
            let l := eval vm_compute in (fmax c a) in
            let h := eval vm_compute in (fmax c b) in
            let H := fresh "B" in
            assert (H : within l h x = true)
              by (apply (Math_max_within c a b l h p Hp); vm_compute; reflexivity);
            k H
          end)
    | Math_abs ?p =>
        bound p ltac:(fun Hp =>
          lazymatch type of Hp with
          | within ?a ?b _ = true =>
            let h := eval vm_compute in (fmax (abs a) (abs b)) in
            let H := fresh "B" in
            assert (H : within 0%float h x = true)
              by (apply (Math_abs_within a b 0%float h p Hp); vm_compute; reflexivity);
            k H
          end)
    | Number (toFixed ?p ?f) =>
        bound p ltac:(fun Hp =>
          lazymatch type of Hp with
          | within ?a ?b _ = true =>
            let l := eval vm_compute in (fixed_lo f a) in
            let h := eval vm_compute in (fixed_hi f b) in
            let H := fresh "B" in
            assert (H : within l h x = true)
              by (apply (Number_toFixed_within f a b l h p Hp); vm_compute; reflexivity);
            k H
          end)
    | Math_round ?p =>
        bound p ltac:(fun Hp =>
          lazymatch type of Hp with
          | within ?a ?b _ = true =>
            let L := eval vm_compute in (round_lo a) in
            let U := eval vm_compute in (round_hi b) in
            let l := eval vm_compute in (of_Z L) in
            let h := eval vm_compute in (of_Z U) in
            let H := fresh "B" in
            assert (H : within l h x = true)
              by (replace l with (of_Z L) by (vm_compute; reflexivity);
                  replace h with (of_Z U) by (vm_compute; reflexivity);
                  apply (Math_round_within a b p L U Hp); vm_compute; reflexivity);
            k H
          end)
    | _ =>
        let c := eval vm_compute in x in
        let H := fresh "B" in
        assert (H : within c c x = true) by (vm_compute; reflexivity);
        k H
    end
  end.

(** Close a goal [within l h x = true], [(c <? x) = false] or
    [(c <? x) = true] from the interval found for [x]. *)
Ltac within_tac :=
  lazymatch goal with
  | |- within ?l' ?h' ?x = true =>
      bound x ltac:(fun B =>
        lazymatch type of B with
        | within ?l ?h _ = true =>
            apply (within_weaken l h l' h' x B); vm_compute; reflexivity
        end)
  | |- (?c <? ?x)%float = false =>
      bound x ltac:(fun B =>
        lazymatch type of B with
        | within ?l ?h _ = true =>
            apply (within_not_above l h c x B); vm_compute; reflexivity
        end)
  | |- (?c <? ?x)%float = true =>
      bound x ltac:(fun B =>
        lazymatch type of B with
        | within ?l ?h _ = true =>
            apply (within_above l h c x B); vm_compute; reflexivity
        end)
  end.

(* ================================================================== *)
(** ** The ranges of the generated data *)
(* ================================================================== *)

(** A draw of [Math.random] is a number of [0, 1]. *)
Lemma unit_interval_within (random : nat -> float) (i : nat) :
  unit_interval random -> within 0 1 (random i) = true.
Proof.
  intros H. destruct (H i) as [H0 H1]. unfold within. rewrite H0. cbn [andb].
  rewrite FloatAxioms.leb_spec. rewrite FloatAxioms.ltb_spec in H1.
  unfold SFleb, SFltb in *. destruct (SFcompare _ _) as [[| |] |]; congruence.
Qed.

(** The registry, as far as the generator reads it. *)
Lemma registry_within (e : CMAPSSEngine.t) :
  In e cmapssEngines ->
  within 206 378 (CMAPSSEngine.cycles e) = true /\
  within 0.5 2.5 (tempVariation (datasetParams (CMAPSSEngine.dataset e))) = true /\
  within 68.9 95.2 (CMAPSSEngine.healthScore e) = true.
Proof.
  assert (Hall : forallb
            (fun e => within 206 378 (CMAPSSEngine.cycles e)
                      && within 0.5 2.5
                           (tempVariation (datasetParams (CMAPSSEngine.dataset e)))
                      && within 68.9 95.2 (CMAPSSEngine.healthScore e))
            cmapssEngines = true) by (vm_compute; reflexivity).
  rewrite forallb_forall in Hall. intros Hin. specialize (Hall e Hin).
  apply andb_prop in Hall. destruct Hall as [Hall H3].
  apply andb_prop in Hall. destruct Hall as [H1 H2]. auto.
Qed.

(** From its first cycle to the last dated one, a registered engine has
    a health factor between the floor 0.6 and 0.9978. *)
Lemma healthFactor_within (e : CMAPSSEngine.t) (cycle : Z) :
  In e cmapssEngines ->
  (1 <= cycle <= lastDatedCycle)%Z ->
  within 0.6 0.9978 (healthFactorAt e cycle) = true.
Proof.
  intros Hin Hc. destruct (registry_within e Hin) as (Hcycles & _ & _).
  assert (Hz : within 1 99980277 (of_Z cycle) = true).
  { pose proof (of_Z_within 1 99980277 cycle) as H.
    replace (of_Z 1) with 1 in H by (vm_compute; reflexivity).
    replace (of_Z 99980277) with 99980277 in H by (vm_compute; reflexivity).
    apply H; unfold lastDatedCycle in Hc; lia. }
  unfold healthFactorAt. within_tac.
Qed.

Section GaugeFacts.

Variable random : nat -> number.
Variable engine : CMAPSSEngine.t.
Variable params : DatasetParams.
Variable engineId : string.

(** The gauges of a reading, in terms of the draws of its cycle. *)
Lemma sensorReading_gauges (cycle : Z) (i j : nat) (r : CMAPSSSensorReading.t) :
  sensorReading random engine params engineId cycle i = (Normal r, j) ->
  CMAPSSSensorReading.T30 r
  = Number (toFixed
      (1350 + (random (2 + i)%nat - 0.5) * tempVariation params * 15
       + (1 - healthFactorAt engine cycle) * 30) 2) /\
  CMAPSSSensorReading.EGT r
  = Number (toFixed
      ((1350 + (random (2 + i)%nat - 0.5) * tempVariation params * 15
        + (1 - healthFactorAt engine cycle) * 30 - 459.67) * 5 / 9) 1) /\
  CMAPSSSensorReading.N1 r
  = Number (toFixed
      ((2388.0 * healthFactorAt engine cycle
        + (random (7 + i)%nat - 0.5) * tempVariation params * 10) / 2400 * 100) 1) /\
  CMAPSSSensorReading.N2 r
  = Number (toFixed
      ((9046.0 * healthFactorAt engine cycle
        + (random (8 + i)%nat - 0.5) * tempVariation params * 50) / 9100 * 100) 1) /\
  CMAPSSSensorReading.fuelFlow r
  = Number (toFixed
      ((0.03 + (random (9 + i)%nat - 0.5) * 0.02 * 0.002
        + (1 - healthFactorAt engine cycle) * 0.005)
       * (1400 + (random (6 + i)%nat - 0.5) * tempVariation params * 30
          + (1 - healthFactorAt engine cycle) * 60) * 0.1) 0) /\
  CMAPSSSensorReading.vibration r
  = Number (toFixed
      (Math_abs (2388.0 * healthFactorAt engine cycle
                 + (random (7 + i)%nat - 0.5) * tempVariation params * 10 - 2388)
       * 0.001) 2).
Proof.
  unfold sensorReading, cycleNoise, noise, Math_random, bind, ret, lift,
    toISOString, healthFactorAt.
  destruct (Date_of_time _) as [t |]; intros H; [| discriminate H].
  injection H as Hr _. subst r. repeat split; reflexivity.
Qed.

End GaugeFacts.

(** Rounding a number that is not negative to a decimal gives a number
    that is not negative. *)
Lemma Number_toFixed_nonneg (x : number) (f : Z) :
  (0 <=? x) = true -> (0 <=? Number (toFixed x f)) = true.
Proof.
  intros H.
  assert (Hself : (0 <=? Number (ToString x)) = true) by exact H.
  assert (H00 : (0 <=? 0) = true) by (vm_compute; reflexivity).
  rewrite FloatAxioms.leb_spec, Prim2SF_zero in H.
  unfold toFixed.
  destruct (Prim2SF x) as [s | s | | s m e] eqn:Ex.
  - exact H00.
  - exact Hself.
  - exact Hself.
  - destruct (1e21 <=? abs x); [exact Hself |].
    destruct s; [discriminate H |].
    cbn [Number].
    destruct (nearest_scaled m e f) as [| p | p]; try exact H00.
    rewrite FloatAxioms.leb_spec, Prim2SF_zero.
    destruct (nearest_quotient_brackets p (Z.to_pos (10 ^ f))) as (_ & _ & Hb).
    apply (Hb (S754_zero false)); try reflexivity.
    cbn [SFval]. apply Qle_shift_div_l; [reflexivity |].
    rewrite Qmult_0_l. discriminate.
Qed.

Lemma within_split (l h x : float) :
  (l <=? x) = true -> (x <=? h) = true -> within l h x = true.
Proof. intros H1 H2. unfold within. rewrite H1, H2. reflexivity. Qed.

Lemma within_upper (l h x : float) : within l h x = true -> (x <=? h) = true.
Proof. unfold within. intros H. apply andb_prop in H. exact (proj2 H). Qed.

Section LoopFrom.

Variable random : nat -> number.
Variable engine : CMAPSSEngine.t.
Variable params : DatasetParams.
Variable engineId : string.

(** As [cycleLoop_Forall], for a property of the readings of the cycles
    from [start] on. *)
Lemma cycleLoop_Forall_from (P : CMAPSSSensorReading.t -> Prop) (start : Z) :
  (forall cycle i j r,
      (start <= cycle)%Z ->
      sensorReading random engine params engineId cycle i = (Normal r, j) -> P r) ->
  forall (trips : nat) (cycle : Z) (readings rs : list CMAPSSSensorReading.t)
         (i j : nat),
    (start <= cycle)%Z ->
    cycleLoop random engine params engineId trips cycle readings i = (Normal rs, j) ->
    Forall P readings -> Forall P rs.
Proof.
  intros Hbody. induction trips as [| trips IH];
    intros cycle readings rs i j Hc Hrun Hacc.
  - cbn [cycleLoop] in Hrun. unfold ret in Hrun.
    injection Hrun as <- _. exact Hacc.
  - rewrite cycleLoop_step in Hrun.
    destruct (sensorReading random engine params engineId cycle i)
      as [[r | e] k] eqn:Hr; [| discriminate Hrun].
    apply (IH (cycle + 1)%Z _ _ _ _ ltac:(lia) Hrun).
    apply Forall_app. split; [exact Hacc |].
    constructor; [| constructor]. exact (Hbody _ _ _ _ Hc Hr).
Qed.

End LoopFrom.

Section NominalFacts.

Variable random : nat -> number.
Hypothesis Hrandom : unit_interval random.

(** Every reading that a pass of the loop pushes for a registered engine
    is nominal. *)
Lemma sensorReading_nominal (e : CMAPSSEngine.t) (engineId : string)
    (cycle : Z) (i j : nat) (r : CMAPSSSensorReading.t) :
  In e cmapssEngines ->
  (1 <= cycle)%Z ->
  sensorReading random e (datasetParams (CMAPSSEngine.dataset e)) engineId cycle i
  = (Normal r, j) ->
  nominal r.
Proof.
  intros Hin Hc Hr.
  assert (Hlast : (cycle <= lastDatedCycle)%Z).
  { destruct (sensorReading_stamp _ _ _ _ _ _ _ _ Hr) as (Ht & Hok & _).
    rewrite Ht in Hok. unfold getTime_2024_01_01 in Hok. unfold lastDatedCycle. lia. }
  pose proof (healthFactor_within e cycle Hin (conj Hc Hlast)) as Hhf.
  destruct (registry_within e Hin) as (_ & Htv & _).
  pose proof (unit_interval_within random (2 + i)%nat Hrandom) as H2.
  pose proof (unit_interval_within random (6 + i)%nat Hrandom) as H6.
  pose proof (unit_interval_within random (7 + i)%nat Hrandom) as H7.
  pose proof (unit_interval_within random (8 + i)%nat Hrandom) as H8.
  pose proof (unit_interval_within random (9 + i)%nat Hrandom) as H9.
  destruct (sensorReading_gauges _ _ _ _ _ _ _ _ Hr)
    as (HT30 & HEGT & HN1 & HN2 & Hfuel & Hvib).
  unfold nominal. rewrite HT30, HEGT, HN1, HN2, Hfuel, Hvib.
  set (hf := healthFactorAt e cycle) in *.
  set (tv := tempVariation (datasetParams (CMAPSSEngine.dataset e))) in *.
  split; [within_tac |]. split; [within_tac |].
  split; [within_tac |]. split; [within_tac |].
  split.
  - match goal with
    | |- Number (toFixed ?x 0) = _ \/ _ =>
        bound x ltac:(fun B =>
          lazymatch type of B with
          | within ?a ?b _ = true =>
              destruct (Number_toFixed_decimal 0 a b x 4 5 B) as (n & Hn & ->);
              [vm_compute; reflexivity |]
          end)
    end.
    assert (Hn' : n = 4%positive \/ n = 5%positive) by lia.
    destruct Hn' as [-> | ->]; [left | right]; vm_compute; reflexivity.
  - apply within_split.
    + apply Number_toFixed_nonneg.
      match goal with
      | |- (0 <=? ?x) = true =>
          bound x ltac:(fun B =>
            let H := fresh in
            pose proof B as H; unfold within in H; apply andb_prop in H; exact (proj1 H))
      end.
    + apply (within_upper (-0.01)). within_tac.
Qed.

Lemma generate_nominal (engineId : string) (e : CMAPSSEngine.t) (n : Z) (i j : nat)
    (rs : list CMAPSSSensorReading.t) :
  findEngine engineId = Some e ->
  generateCMAPSSSensorData random engineId n i = (Normal rs, j) ->
  Forall nominal rs.
Proof.
  intros He. pose proof (findEngine_sound _ _ He) as [Hin _].
  unfold generateCMAPSSSensorData. rewrite He. intros Hrun.
  eapply (cycleLoop_Forall_from random e _ engineId nominal 1);
    [| | exact Hrun | constructor]; [| lia].
  intros cycle i' j' r Hc Hr. exact (sensorReading_nominal e engineId _ _ _ _ Hin Hc Hr).
Qed.

End NominalFacts.

Lemma generate_all_nominal (random : nat -> number) (engineId : string) (n : Z)
    (i j : nat) (rs : list CMAPSSSensorReading.t) :
  unit_interval random ->
  generateCMAPSSSensorData random engineId n i = (Normal rs, j) ->
  Forall nominal rs.
Proof.
  intros Hrandom Hrun. destruct (findEngine engineId) as [e |] eqn:He.
  - exact (generate_nominal random Hrandom engineId e n i j rs He Hrun).
  - unfold generateCMAPSSSensorData in Hrun. rewrite He in Hrun.
    unfold ret in Hrun. injection Hrun as <- _. constructor.
Qed.

Lemma midpoint_unit_interval : unit_interval midpoint.
Proof. intros i. unfold midpoint. split; vm_compute; reflexivity. Qed.

(** What the thresholds of the consumers make of a nominal reading. *)
Lemma nominal_thresholds (r : CMAPSSSensorReading.t) :
  nominal r ->
  (600 <? CMAPSSSensorReading.EGT r) = false /\
  (1300 <? CMAPSSSensorReading.T30 r) = true /\
  (100 <? CMAPSSSensorReading.N1 r) = false /\
  (105 <? CMAPSSSensorReading.N2 r) = false /\
  (3500 <? CMAPSSSensorReading.fuelFlow r) = false /\
  (4 <? CMAPSSSensorReading.vibration r) = false.
Proof.
  intros (HT30 & HEGT & HN1 & HN2 & Hfuel & Hvib).
  split; [apply (within_not_above _ _ _ _ HEGT); vm_compute; reflexivity |].
  split; [apply (within_above _ _ _ _ HT30); vm_compute; reflexivity |].
  split; [apply (within_not_above _ _ _ _ HN1); vm_compute; reflexivity |].
  split; [apply (within_not_above _ _ _ _ HN2); vm_compute; reflexivity |].
  split; [destruct Hfuel as [-> | ->]; vm_compute; reflexivity |].
  apply (within_not_above _ _ _ _ Hvib); vm_compute; reflexivity.
Qed.

(** X18. Whatever the id, the number of cycles and the draws of
    [Math.random] (each in [0, 1)), every reading of a series that the
    generator returns has its gauges in fixed ranges: T30 in
    [1331, 1381], EGT in [484, 512], N1 in [59, 100], N2 in [58, 100],
    fuelFlow 4 or 5, vibration in [0, 0.98]. *)
Theorem series_gauges_nominal (random : nat -> number) (engineId : string) (n : Z)
    (i j : nat) (rs : list CMAPSSSensorReading.t) (r : CMAPSSSensorReading.t) :
  unit_interval random ->
  generateCMAPSSSensorData random engineId n i = (Normal rs, j) ->
  In r rs ->
  nominal r.
Proof.
  intros Hrandom Hrun Hin.
  pose proof (generate_all_nominal random engineId n i j rs Hrandom Hrun) as Hall.
  rewrite Forall_forall in Hall. exact (Hall r Hin).
Qed.

Lemma series_gauges_nominal_witness :
  exists rs r,
    generateCMAPSSSensorData midpoint "CMAPSS-FD004-002" 2 0%nat = (Normal rs, 36%nat) /\
    In r rs /\ nominal r.
Proof.
  eexists. eexists.
  split; [vm_compute; reflexivity |].
  split; [right; left; reflexivity |].
  exact (series_gauges_nominal midpoint "CMAPSS-FD004-002" 2 0%nat 36%nat _ _
           midpoint_unit_interval ltac:(vm_compute; reflexivity)
           ltac:(right; left; reflexivity)).
Defined.

(** X19. Whatever the id, the clock and the draws (each in [0, 1)), every
    typed reading that [generateSensorData] of mockData returns has the
    status 'normal': no threshold of the five readings is ever exceeded. *)
Theorem mock_sensor_statuses_normal (random : nat -> number) (clock : nat -> Z)
    (engineId : string) (st st' : nat * nat) (ss : list mockData.SensorReading.t) :
  unit_interval random ->
  mockData.generateSensorData random clock engineId st = (Normal ss, st') ->
  Forall (fun s => mockData.SensorReading.status s = normal) ss.
Proof.
  intros Hrandom. unfold mockData.generateSensorData, bindW, liftM.
  destruct (generateCMAPSSSensorData random engineId 1 (fst st)) as [[rs | x] j] eqn:Hrun;
    [| intros H; discriminate H].
  pose proof (generate_all_nominal random engineId 1 _ _ _ Hrandom Hrun) as Hall.
  destruct rs as [| r rs]; unfold retW.
  - intros H. injection H as <- _. constructor.
  - apply Forall_inv in Hall.
    destruct Hall as (_ & HEGT & HN1 & HN2 & Hfuel & Hvib).
    unfold mockData.Date_now. cbn [fst snd].
    intros H. injection H as <- _.
    repeat constructor; cbn [mockData.SensorReading.status];
      unfold mockData.threshold_status.
    + rewrite !(within_not_above _ _ _ _ HEGT) by (vm_compute; reflexivity).
      reflexivity.
    + rewrite !(within_not_above _ _ _ _ HN1) by (vm_compute; reflexivity).
      reflexivity.
    + rewrite !(within_not_above _ _ _ _ HN2) by (vm_compute; reflexivity).
      reflexivity.
    + destruct Hfuel as [-> | ->]; vm_compute; reflexivity.
    + rewrite !(within_not_above _ _ _ _ Hvib) by (vm_compute; reflexivity).
      reflexivity.
Qed.

Lemma mock_sensor_statuses_normal_witness :
  exists ss,
    mockData.generateSensorData midpoint (fun _ => 1704067200000%Z) "CMAPSS-FD002-001"
      (0, 0)%nat
    = (Normal ss, (18, 5)%nat) /\
    map mockData.SensorReading.status ss = repeat normal 5.
Proof.
  eexists. split; [vm_compute; reflexivity |].
  pose proof (mock_sensor_statuses_normal midpoint (fun _ => 1704067200000%Z)
                "CMAPSS-FD002-001" (0, 0)%nat (18, 5)%nat _ midpoint_unit_interval
                ltac:(vm_compute; reflexivity)) as Hall.
  repeat match goal with
         | H : Forall _ (_ :: _) |- _ =>
             let Hh := fresh "Hs" in
             pose proof (Forall_inv H) as Hh; apply Forall_inv_tail in H
         end.
  cbn [map repeat]. rewrite Hs, Hs0, Hs1, Hs2, Hs3. reflexivity.
Defined.

(** A number above zero is truthy. *)
Lemma truthy_above (x : number) : (0 <? x) = true -> truthy x = true.
Proof.
  intros H. unfold truthy. rewrite is_nan_spec, FloatAxioms.eqb_spec.
  rewrite FloatAxioms.ltb_spec in H. unfold SFltb in H. unfold SFeqb.
  rewrite (SFcompare_antisym (Prim2SF 0) (Prim2SF x)).
  destruct (SFcompare (Prim2SF 0) (Prim2SF x)) as [[| |] |] eqn:E; try discriminate H.
  cbn [option_map CompOpp].
  destruct (Prim2SF x); [reflexivity | reflexivity | | reflexivity].
  rewrite Prim2SF_zero in E. discriminate E.
Qed.

(** X20. For a registered id and draws in [0, 1), the viewer loads a
    reading whose EGT is below both of its thresholds, whose T30 is above
    its threshold and whose N1 and N2 are not zero: the combustor liner
    never glows, the EGT label never carries the fire mark, the blades of
    the first two turbine stages always get the coating effect, and the
    fan, the compressor and the turbine are turned in every frame in
    which they are mounted. *)
Theorem viewer_thresholds_of_registry (random : nat -> number)
    (engineId : string) (e : CMAPSSEngine.t) (st : ViewerState.t) (i : nat) :
  unit_interval random ->
  findEngine engineId = Some e ->
  let sensorData := ViewerState.sensorData (fst (loadEffect random engineId st i)) in
  combustorGlows sensorData = false /\
  egtFireMark sensorData = false /\
  (forall stage : Z, bladeGlows sensorData stage = (stage <? 2)%Z) /\
  (forall mounted : bool, fanTurns mounted sensorData = mounted) /\
  (forall mounted : bool, coreTurns mounted sensorData = mounted).
Proof.
  intros Hrandom He.
  destruct (generate_one_cycle random engineId e i He) as (r & Hr & _).
  destruct (registry_assessment engineId e He) as (h & Hh & _).
  pose proof (generate_all_nominal random engineId 1 _ _ _ Hrandom Hr) as Hall.
  apply Forall_inv in Hall. destruct Hall as (HT30 & HEGT & HN1 & HN2 & _).
  unfold loadEffect.
  destruct (String.eqb_spec engineId "") as [-> | _]; [discriminate He |].
  unfold loadData, bind, lift. rewrite Hr, Hh.
  cbn [fst ViewerState.sensorData hd_error ret].
  unfold combustorGlows, egtFireMark, bladeGlows, fanTurns, coreTurns.
  rewrite !(within_not_above _ _ _ _ HEGT) by (vm_compute; reflexivity).
  rewrite (within_above _ _ _ _ HT30) by (vm_compute; reflexivity).
  rewrite (truthy_above (CMAPSSSensorReading.N1 r))
    by (apply (within_above _ _ _ _ HN1); vm_compute; reflexivity).
  rewrite (truthy_above (CMAPSSSensorReading.N2 r))
    by (apply (within_above _ _ _ _ HN2); vm_compute; reflexivity).
  repeat split; intros mounted; apply andb_true_r.
Qed.

Lemma viewer_thresholds_of_registry_witness :
  exists e,
    findEngine "CMAPSS-FD004-002" = Some e /\
    combustorGlows
      (ViewerState.sensorData
         (fst (loadEffect midpoint "CMAPSS-FD004-002" initialViewerState 0%nat)))
    = false /\
    bladeGlows
      (ViewerState.sensorData
         (fst (loadEffect midpoint "CMAPSS-FD004-002" initialViewerState 0%nat))) 1
    = true /\
    fanTurns true
      (ViewerState.sensorData
         (fst (loadEffect midpoint "CMAPSS-FD004-002" initialViewerState 0%nat)))
    = true.
Proof.
  destruct (findEngine "CMAPSS-FD004-002") as [e |] eqn:He; [| discriminate He].
  destruct (viewer_thresholds_of_registry midpoint "CMAPSS-FD004-002" e
              initialViewerState 0%nat midpoint_unit_interval He)
    as (Hg & _ & Hb & Hf & _).
  exists e. split; [reflexivity |]. split; [exact Hg |].
  split; [exact (Hb 1%Z) | exact (Hf true)].
Defined.

(** X21. For every registered id and draws in [0, 1), the metrics object
    has the fuelEfficiency 1.998, whatever the draws, and a
    thermalEfficiency between 1.21 and 1.26: the baselines 2500 and 650
    are above every fuelFlow and EGT that the generator produces, so
    both efficiencies exceed 1 and the floors of [Math.max] never act. *)
Theorem metrics_efficiencies_of_registry (random : nat -> number)
    (engineId : string) (e : CMAPSSEngine.t) (i : nat) :
  unit_interval random ->
  findEngine engineId = Some e ->
  exists m,
    getCMAPSSPerformanceMetrics random engineId i = (Normal (Some m), (i + 180)%nat) /\
    PerformanceMetrics.fuelEfficiency m = 1.998 /\
    within 1.21 1.26 (PerformanceMetrics.thermalEfficiency m) = true.
Proof.
  intros Hrandom He.
  set (params := datasetParams (CMAPSSEngine.dataset e)).
  destruct (cycleLoop_dated random e params engineId 9 1%Z [] i)
    as (rs & Hrs & _); [lia | unfold lastDatedCycle; lia |].
  destruct (sensorReading_dated random e params engineId 10%Z (i + 18 * 9)%nat)
    as (r & Hr & _); [unfold lastDatedCycle; lia |].
  assert (Hrun : generateCMAPSSSensorData random engineId 10 i
                 = (Normal (rs ++ [r])%list, (i + 180)%nat)).
  { unfold generateCMAPSSSensorData. rewrite He. fold params.
    change (Z.to_nat 10) with 10%nat.
    rewrite cycleLoop_snoc, Hrs. change (1 + Z.of_nat 9)%Z with 10%Z.
    rewrite Hr. f_equal. lia. }
  pose proof (generate_all_nominal random engineId 10 _ _ _ Hrandom Hrun) as Hall.
  apply Forall_app in Hall. destruct Hall as [_ Hall]. apply Forall_inv in Hall.
  destruct Hall as (_ & HEGT & _ & _ & Hfuel & _).
  unfold getCMAPSSPerformanceMetrics, bind. rewrite He, Hrun, lastReading_snoc.
  unfold ret. eexists. split; [reflexivity |].
  cbn [PerformanceMetrics.fuelEfficiency PerformanceMetrics.thermalEfficiency].
  split.
  - destruct Hfuel as [-> | ->]; vm_compute; reflexivity.
  - within_tac.
Qed.

Lemma metrics_efficiencies_of_registry_witness :
  exists e m,
    findEngine "CMAPSS-FD001-003" = Some e /\
    getCMAPSSPerformanceMetrics midpoint "CMAPSS-FD001-003" 0%nat
    = (Normal (Some m), 180%nat) /\
    PerformanceMetrics.fuelEfficiency m = 1.998.
Proof.
  destruct (findEngine "CMAPSS-FD001-003") as [e |] eqn:He; [| discriminate He].
  destruct (metrics_efficiencies_of_registry midpoint "CMAPSS-FD001-003" e 0%nat
              midpoint_unit_interval He) as (m & Hm & Hf & _).
  exists e, m. split; [reflexivity |]. split; [exact Hm | exact Hf].
Defined.



Section QuotientFacts.
Local Open Scope Q_scope.

Lemma div_brackets (x y : float) :
  finite x = true -> finite y = true -> ~ value y == 0 ->
  brackets (value x / value y) (Prim2SF (x / y)).
Proof.
  intros Hfx Hfy Hy. rewrite div_spec. unfold finite, value in *.
  destruct (Prim2SF y) as [sy | sy | | sy my ey] eqn:Ey; try discriminate Hfy.
  - exfalso. apply Hy. reflexivity.
  - destruct (Prim2SF x) as [sx | sx | | sx mx ex] eqn:Ex; try discriminate Hfx.
    + apply SF64div_zero_brackets.
    + apply SF64div_brackets.
Qed.

(** The quotient of an index by a larger count is a number of [0, 1]. *)
Lemma ratio_within (k d : Z) :
  (0 <= k < d)%Z -> (d < 2 ^ 53)%Z ->
  within 0 1 (of_Z k / of_Z d)%float = true.
Proof.
  intros Hk Hd.
  destruct (of_Z_value k) as [Fk Vk]; [lia |].
  destruct (of_Z_value d) as [Fd Vd]; [lia |].
  assert (Hpos : 0 < inject_Z d).
  { change 0 with (inject_Z 0). rewrite <- Zlt_Qlt. lia. }
  assert (Hk0 : 0 <= inject_Z k).
  { change 0 with (inject_Z 0). rewrite <- Zle_Qle. lia. }
  assert (Hkd : inject_Z k <= inject_Z d).
  { rewrite <- Zle_Qle. lia. }
  assert (V0 : value 0%float == 0) by (vm_compute; reflexivity).
  assert (V1 : value 1%float == 1) by (vm_compute; reflexivity).
  apply (within_of_brackets (value (of_Z k) / value (of_Z d))).
  - apply div_brackets; try assumption. rewrite Vd. lra.
  - vm_compute. reflexivity.
  - vm_compute. reflexivity.
  - rewrite V0, Vk, Vd. apply Qle_shift_div_l; [exact Hpos | lra].
  - rewrite V1, Vk, Vd. apply Qle_shift_div_r; [exact Hpos | lra].
Qed.

End QuotientFacts.

Section LengthFacts.

Variable random : nat -> number.

Lemma cycleLoop_length (engine : CMAPSSEngine.t) (params : DatasetParams)
    (engineId : string) (trips : nat) :
  forall (cycle : Z) (readings rs : list CMAPSSSensorReading.t) (i j : nat),
    cycleLoop random engine params engineId trips cycle readings i = (Normal rs, j) ->
    List.length rs = (List.length readings + trips)%nat.
Proof.
  induction trips as [| trips IH]; intros cycle readings rs i j Hrun.
  - cbn [cycleLoop] in Hrun. unfold ret in Hrun. injection Hrun as <- _. lia.
  - rewrite cycleLoop_step in Hrun.
    destruct (sensorReading random engine params engineId cycle i)
      as [[r | e] k]; [| discriminate Hrun].
    rewrite (IH _ _ _ _ _ Hrun), length_app. cbn [List.length]. lia.
Qed.

(** A series that is returned has one reading per cycle asked for, and,
    unless it is empty, does not go past the last dated cycle. *)
Lemma generate_length (engineId : string) (n : Z) (i j : nat)
    (rs : list CMAPSSSensorReading.t) :
  generateCMAPSSSensorData random engineId n i = (Normal rs, j) ->
  rs = [] \/ (List.length rs = Z.to_nat n /\ (n <= lastDatedCycle)%Z).
Proof.
  intros Hrun. destruct (findEngine engineId) as [e |] eqn:He.
  - right. split.
    + unfold generateCMAPSSSensorData in Hrun. rewrite He in Hrun.
      rewrite (cycleLoop_length _ _ _ _ _ _ _ _ _ Hrun). reflexivity.
    + destruct (Z.ltb_spec lastDatedCycle n) as [Hpast | Hok]; [| exact Hok].
      rewrite (generate_undated random engineId e n i He Hpast) in Hrun.
      discriminate Hrun.
  - left. unfold generateCMAPSSSensorData in Hrun. rewrite He in Hrun.
    unfold ret in Hrun. injection Hrun as <- _. reflexivity.
Qed.

Hypothesis Hrandom : unit_interval random.

Lemma historyPoints_plausible (days : Z) (rs : list CMAPSSSensorReading.t) :
  (days < 2 ^ 53)%Z ->
  Forall nominal rs ->
  forall (index : Z) (j j' : nat) (ps : list HistoricalPoint.t),
    (0 <= index)%Z ->
    (index + Z.of_nat (List.length rs) <= days)%Z ->
    historyPoints random days index rs j = (Normal ps, j') ->
    Forall plausible ps.
Proof.
  intros Hdays Hall. induction Hall as [| r rs Hr Hrs IH];
    intros index j j' ps Hindex Hlen Hrun.
  - cbn [historyPoints] in Hrun. unfold ret in Hrun. injection Hrun as <- _.
    constructor.
  - cbn [historyPoints] in Hrun. unfold bind at 1 in Hrun.
    unfold Math_random at 1 in Hrun. unfold bind at 1 in Hrun.
    cbn [List.length] in Hlen.
    destruct (historyPoints random days (index + 1) rs (S j)) as [[ps' | x] k] eqn:Hrest;
      [| discriminate Hrun].
    unfold ret in Hrun. injection Hrun as <- _.
    constructor.
    + destruct Hr as (_ & HEGT & _ & _ & Hfuel & Hvib).
      pose proof (ratio_within index days ltac:(lia) Hdays) as Hratio.
      pose proof (unit_interval_within random j Hrandom) as Hj.
      unfold plausible.
      cbn [HistoricalPoint.healthScore HistoricalPoint.fuelEfficiency
           HistoricalPoint.temperature HistoricalPoint.vibration].
      split; [within_tac |].
      split; [destruct Hfuel as [-> | ->]; [left | right]; reflexivity |].
      split; assumption.
    + apply (IH (index + 1)%Z (S j) k ps'); [lia | lia | exact Hrest].
Qed.

End LengthFacts.

(** X23. Whatever the id, the number of days and the draws (each in
    [0, 1)), every point of a history that is returned has a health score
    that is a whole number between 85 and 100, a fuelEfficiency of 4/3000
    or 5/3000, a temperature in [484, 512] and a vibration in [0, 0.98]. *)
Theorem history_points_plausible (random : nat -> number)
    (engineId : string) (days : Z) (i j : nat)
    (ps : list HistoricalPoint.t) (p : HistoricalPoint.t) :
  unit_interval random ->
  generateHistoricalData random engineId days i = (Normal ps, j) ->
  In p ps ->
  plausible p.
Proof.
  intros Hrandom Hrun Hin.
  unfold generateHistoricalData, bind in Hrun.
  destruct (generateCMAPSSSensorData random engineId days i) as [[rs | x] k] eqn:Hgen;
    [| discriminate Hrun].
  pose proof (generate_all_nominal random engineId days i k rs Hrandom Hgen) as Hall.
  destruct (generate_length random engineId days i k rs Hgen) as [-> | [Hlen Hlast]].
  - cbn [historyPoints] in Hrun. unfold ret in Hrun. injection Hrun as <- _.
    contradiction.
  - destruct (Z.leb_spec days 0) as [Hneg | Hpos].
    + replace (Z.to_nat days) with 0%nat in Hlen by lia.
      destruct rs; [| discriminate Hlen].
      cbn [historyPoints] in Hrun. unfold ret in Hrun. injection Hrun as <- _.
      contradiction.
    + assert (Hps : Forall plausible ps).
      { apply (historyPoints_plausible random Hrandom days rs
                 ltac:(unfold lastDatedCycle in Hlast; lia) Hall 0%Z k j ps);
          [lia | lia | exact Hrun]. }
      rewrite Forall_forall in Hps. exact (Hps p Hin).
Qed.

Lemma history_points_plausible_witness :
  exists ps p,
    generateHistoricalData midpoint "CMAPSS-FD003-001" 2 0%nat = (Normal ps, 38%nat) /\
    In p ps /\ plausible p.
Proof.
  eexists. eexists.
  split; [vm_compute; reflexivity |].
  split; [left; reflexivity |].
  exact (history_points_plausible midpoint "CMAPSS-FD003-001" 2 0%nat 38%nat _ _
           midpoint_unit_interval ltac:(vm_compute; reflexivity)
           ltac:(left; reflexivity)).
Defined.

(* ================================================================== *)
(** ** The maintenance dates of the health card *)
(* ================================================================== *)

(** [Math.min] with a ceiling [c], on a number that is at least [l]:
    the result is between [l] and [c]. *)
Lemma Math_min_ceiling (l c z : number) :
  is_nan c = false -> is_nan z = false ->
  (l <=? c) = true -> (l <=? z) = true ->
  within l c (Math_min c z) = true.
Proof.
  intros Hc Hz Hlc Hlz. unfold Math_min. rewrite Hc, Hz. cbn [orb].
  assert (Hcc : (c <=? c) = true).
  { rewrite FloatAxioms.leb_spec. unfold SFleb.
    rewrite SFcompare_refl; [reflexivity |]. rewrite <- is_nan_spec. exact Hc. }
  assert (Hzc : (c <? z) = false -> (z <=? c) = true).
  { rewrite FloatAxioms.ltb_spec, FloatAxioms.leb_spec. unfold SFltb, SFleb.
    rewrite (SFcompare_antisym (Prim2SF c) (Prim2SF z)).
    rewrite !is_nan_spec in *.
    destruct (Prim2SF c) as [sc | sc | | sc mc ec] eqn:Ec; try discriminate Hc;
      destruct (Prim2SF z) as [sz | sz | | sz mz ez] eqn:Ez; try discriminate Hz;
      destruct (SFcompare _ _) as [[| |] |] eqn:E; cbn [option_map CompOpp];
      try reflexivity; try discriminate; cbn [SFcompare] in E; discriminate E. }
  destruct (c <? z) eqn:H1.
  - apply within_split; assumption.
  - specialize (Hzc eq_refl).
    destruct (z <? c); [apply within_split; assumption |].
    destruct (get_sign c); apply within_split; assumption.
Qed.

(** The maintenance dates of the registry, as [timelineWidth] reads
    them: the last one is a date, and the next one is another instant. *)
Lemma mockEngines_dates (engine : mockData.EngineStatus.t) :
  In engine mockData.mockEngines ->
  below 60 (getTime (mockData.EngineStatus.lastMaintenance engine)) = true /\
  nonzero (getTime (mockData.EngineStatus.nextMaintenance engine)
           - getTime (mockData.EngineStatus.lastMaintenance engine)) = true.
Proof.
  assert (Hall : forallb
            (fun engine =>
               below 60 (getTime (mockData.EngineStatus.lastMaintenance engine))
               && nonzero (getTime (mockData.EngineStatus.nextMaintenance engine)
                           - getTime (mockData.EngineStatus.lastMaintenance engine)))
            mockData.mockEngines = true) by (vm_compute; reflexivity).
  rewrite forallb_forall in Hall. intros Hin. specialize (Hall engine Hin).
  apply andb_prop in Hall. exact Hall.
Qed.

(** X24. For every engine of [mockEngines] and every instant [now] (any
    number other than NaN, even an infinite one), the width of the
    elapsed part of the maintenance timeline is a number between 0 and
    100. *)
Theorem timelineWidth_within_percent (now : number) (engine : mockData.EngineStatus.t) :
  is_nan now = false ->
  In engine mockData.mockEngines ->
  within 0 100 (timelineWidth now engine) = true.
Proof.
  intros Hnow Hin. destruct (mockEngines_dates engine Hin) as [Hlast Hspan].
  unfold timelineWidth.
  set (x := (now - getTime (mockData.EngineStatus.lastMaintenance engine))
            / (getTime (mockData.EngineStatus.nextMaintenance engine)
               - getTime (mockData.EngineStatus.lastMaintenance engine)) * 100).
  assert (Hx : is_nan x = false).
  { subst x. apply mul_not_nan; [| vm_compute; reflexivity].
    apply div_not_nan; [| exact Hspan].
    apply (sub_not_nan _ _ 60); assumption. }
  destruct (Math_max_floor 0 x) as [Hfloor Hmax];
    [vm_compute; reflexivity | exact Hx | vm_compute; reflexivity |].
  apply Math_min_ceiling; try assumption; vm_compute; reflexivity.
Qed.

Lemma timelineWidth_within_percent_witness :
  exists engine,
    hd_error mockData.mockEngines = Some engine /\
    within 0 100 (timelineWidth 1711929600000 engine) = true.
Proof.
  destruct (hd_error mockData.mockEngines) as [engine |] eqn:He; [| discriminate He].
  exists engine. split; [reflexivity |].
  apply (timelineWidth_within_percent 1711929600000 engine).
  - vm_compute. reflexivity.
  - unfold mockData.mockEngines, cmapssEngines in *. cbn [map hd_error] in He.
    injection He as <-. left. reflexivity.
Defined.

(** *** The days until the next maintenance *)

Section CeilingFacts.
Local Open Scope Q_scope.

(** Every dyadic number of at most 53 bits and a moderate exponent is a
    binary64 value. *)
Lemma dyadic_representable (n e : Z) :
  (Z.abs n < 2 ^ 53)%Z -> (-1000 <= e <= 900)%Z ->
  exists g, valid_binary g = true /\ SFfinite g = true /\ SFval g == dyadic n e.
Proof.
  intros Hn He. destruct (Z.eq_dec n 0) as [-> | Hne].
  - exists (S754_zero false). split; [reflexivity |]. split; [reflexivity |].
    rewrite dyadic_0. reflexivity.
  - set (p := Z.abs n). assert (Hp : (0 < p)%Z) by (subst p; lia).
    pose proof (Zdigits2_lt_pow2 p 53 Hp Hn) as Hd.
    pose proof (Zdigits2_pos p Hp) as Hd1.
    set (k := (53 - Zdigits2 p)%Z). assert (Hk : (0 <= k <= 52)%Z) by (subst k; lia).
    assert (Hpk : (0 < 2 ^ k)%Z) by (apply Z.pow_pos_nonneg; lia).
    set (m := (p * 2 ^ k)%Z). assert (Hm : (0 < m)%Z) by (subst m; lia).
    assert (Hdm : Zdigits2 m = 53%Z).
    { subst m. rewrite Zdigits2_mul_pow2 by lia. subst k. lia. }
    assert (Hmv : dyadic m (e - k) == dyadic p e).
    { subst m. rewrite dyadic_shift by lia. reflexivity. }
    destruct m as [| q | q] eqn:Em; try lia.
    exists (S754_finite (n <? 0)%Z q (e - k)).
    split; [| split; [reflexivity |]].
    + apply canonical_valid; [| lia]. split; [reflexivity |].
      rewrite Hdm. unfold fexp64. lia.
    + rewrite SFval_finite. subst p.
      destruct (Z.ltb_spec n 0) as [Hneg | Hpos]; rewrite Hmv.
      * rewrite Z.abs_neq by lia. rewrite dyadic_opp. ring.
      * rewrite Z.abs_eq by lia. reflexivity.
Qed.

Lemma sub_integers (x y : float) (a b : Z) :
  finite x = true -> finite y = true ->
  value x == inject_Z a -> value y == inject_Z b ->
  (Z.abs (a - b) < 2 ^ 53)%Z ->
  finite (x - y)%float = true /\ value (x - y)%float == inject_Z (a - b).
Proof.
  intros Hfx Hfy Hx Hy Hn. unfold finite, value. rewrite sub_spec.
  destruct (integer_representable (a - b) Hn) as (g & Hvg & Hfg & Hg).
  apply (brackets_value _ _ g); try assumption.
  eapply brackets_ext;
      [| apply SF64sub_brackets; try assumption; apply finite_valid].
    fold (value x) (value y). rewrite Hx, Hy.
    unfold Z.sub. rewrite inject_Z_plus, inject_Z_opp. ring.
Qed.

(** Two integers that are the ceiling of the same rational are equal. *)
Lemma ceiling_unique (k q : Z) (v : Q) :
  inject_Z k - 1 < v -> v <= inject_Z k ->
  inject_Z q - 1 < v -> v <= inject_Z q ->
  q = k.
Proof.
  intros H1 H2 H3 H4.
  assert (Hkq : inject_Z k < inject_Z (q + 1))
    by (rewrite inject_Z_plus; change (inject_Z 1) with 1; lra).
  assert (Hqk : inject_Z q < inject_Z (k + 1))
    by (rewrite inject_Z_plus; change (inject_Z 1) with 1; lra).
  rewrite <- Zlt_Qlt in Hkq, Hqk. lia.
Qed.

(** The integer that [Math_ceil] computes at a negative exponent is the
    ceiling of the value. *)
Lemma ceiling_bounds (M e : Z) :
  (e < 0)%Z ->
  let q := (- (- M / 2 ^ (- e)))%Z in
  inject_Z q - 1 < dyadic M e /\ dyadic M e <= inject_Z q.
Proof.
  intros He q.
  assert (Hp : (0 < 2 ^ (- e))%Z) by (apply Z.pow_pos_nonneg; lia).
  pose proof (Z.div_mod (- M) (2 ^ (- e)) ltac:(lia)) as Hdiv.
  pose proof (Z.mod_pos_bound (- M) (2 ^ (- e)) Hp) as Hmod.
  assert (Hq : forall k : Z, inject_Z k == dyadic (k * 2 ^ (- e)) e).
  { intros k. replace e with (0 - - e)%Z at 2 by lia.
    rewrite dyadic_shift by lia. unfold dyadic. change (2 ^ 0) with 1. ring. }
  split.
  - setoid_replace (inject_Z q - 1) with (inject_Z (q - 1))
      by (unfold Z.sub; rewrite inject_Z_plus; reflexivity).
    rewrite (Hq (q - 1)%Z). apply dyadic_lt. subst q. lia.
  - rewrite (Hq q). apply dyadic_le. subst q. lia.
Qed.

Lemma Math_ceil_between (x : float) (k : Z) :
  finite x = true -> (Z.abs k < 2 ^ 53)%Z ->
  inject_Z k - 1 < value x -> value x <= inject_Z k ->
  finite (Math_ceil x) = true /\ value (Math_ceil x) == inject_Z k.
Proof.
  intros Hfx Hk Hlo Hhi.
  assert (Hself : forall n : Z, value x == inject_Z n ->
                    finite x = true /\ value x == inject_Z k).
  { intros n Hn. split; [exact Hfx |]. rewrite Hn.
    rewrite (ceiling_unique k n (value x)); lra. }
  unfold Math_ceil. unfold finite, value in Hfx, Hlo, Hhi, Hself.
  destruct (Prim2SF x) as [s | s | | s m e] eqn:Ex; try discriminate Hfx.
  - unfold finite, value. rewrite Ex. apply (Hself 0%Z). reflexivity.
  - destruct (Z.leb_spec 0 e) as [Hpos | Hneg].
    + unfold finite, value. rewrite Ex.
      apply (Hself (cond_Zopp s (Zpos m) * 2 ^ e)%Z).
      unfold SFval, dyadic. rewrite inject_Z_mult, <- pow2_inject by lia. reflexivity.
    + set (q := (- (- cond_Zopp s (Zpos m) / 2 ^ (- e)))%Z).
      destruct (ceiling_bounds (cond_Zopp s (Zpos m)) e Hneg) as [Hq1 Hq2].
      fold q in Hq1, Hq2.
      assert (Hqk : q = k).
      { apply (ceiling_unique k q (SFval (S754_finite s m e))); assumption. }
      destruct (Z.eqb_spec q 0) as [Hz | Hnz].
      * destruct minus_zero_value as [F0 V0]. split; [exact F0 |].
        rewrite V0, <- Hqk, Hz. reflexivity.
      * rewrite Hqk. apply of_Z_value. exact Hk.
Qed.

(** The number of days that [daysUntilMaintenance] computes from a
    difference of [N] milliseconds, as long as it is below 2^26 days. *)
Lemma days_quotient (x : float) (N : Z) :
  finite x = true -> value x == inject_Z N ->
  (Z.abs N <= 2 ^ 26 * 86400000)%Z ->
  let k := (- (- N / 86400000))%Z in
  finite (x / 86400000)%float = true /\
  inject_Z k - 1 < value (x / 86400000)%float /\
  value (x / 86400000)%float <= inject_Z k.
Proof.
  intros Hfx Hx HN k.
  pose proof (Z.div_mod (- N) 86400000 ltac:(lia)) as Hdiv.
  pose proof (Z.mod_pos_bound (- N) 86400000 ltac:(lia)) as Hmod.
  set (r := ((- N) mod 86400000)%Z) in *.
  assert (HNk : N = (86400000 * k - r)%Z) by (subst k; lia).
  assert (Hkb : (Z.abs k <= 2 ^ 26)%Z) by (subst k; nia).
  assert (FD : finite 86400000%float = true) by (vm_compute; reflexivity).
  assert (VD : value 86400000%float == inject_Z 86400000) by (vm_compute; reflexivity).
  assert (HD : 0 < inject_Z 86400000) by reflexivity.
  set (v := inject_Z N / inject_Z 86400000).
  assert (Hb : brackets v (Prim2SF (x / 86400000)%float)).
  { apply (brackets_ext (value x / value 86400000%float)).
    - subst v. rewrite Hx, VD. reflexivity.
    - apply div_brackets; try assumption. rewrite VD. lra. }
  assert (Hv : v == inject_Z k - inject_Z r / inject_Z 86400000).
  { subst v. rewrite HNk. unfold Z.sub.
    rewrite inject_Z_plus, inject_Z_opp, inject_Z_mult. field; lra. }
  destruct (Z.eq_dec r 0) as [Hr0 | Hr1].
  - (* the quotient is the integer k *)
    destruct (integer_representable k ltac:(lia)) as (g & Hvg & Hfg & Hg).
    destruct (brackets_value v _ g Hb Hvg Hfg) as [Hf Hval].
    { rewrite Hg, Hv, Hr0. unfold Qdiv. change (inject_Z 0) with 0. ring. }
    unfold finite, value. split; [exact Hf |].
    rewrite Hval, Hv, Hr0. unfold Qdiv. change (inject_Z 0) with 0. lra.
  - (* the quotient is at least 1/86400000 away from k - 1 and from k *)
    assert (Hr : 1 <= inject_Z r <= inject_Z 86400000 - 1).
    { change 1 with (inject_Z 1).
      setoid_replace (inject_Z 86400000 - inject_Z 1) with (inject_Z (86400000 - 1))
        by (unfold Z.sub; rewrite inject_Z_plus; reflexivity).
      rewrite <- !Zle_Qle. lia. }
    assert (Hstep : 2 ^ (-27) * inject_Z 86400000 <= 1) by (vm_compute; discriminate).
    assert (Hfrac : 2 ^ (-27) <= inject_Z r / inject_Z 86400000
                    /\ inject_Z r / inject_Z 86400000 <= 1 - 2 ^ (-27)).
    { split.
      - apply Qle_shift_div_l; [exact HD | lra].
      - apply Qle_shift_div_r; [exact HD |].
        setoid_replace ((1 - 2 ^ (-27)) * inject_Z 86400000)
          with (inject_Z 86400000 - 2 ^ (-27) * inject_Z 86400000) by ring.
        lra. }
    assert (Hunit : dyadic 1 (-27) == 2 ^ (-27)) by (apply dyadic_1).
    assert (Hint : forall z : Z, inject_Z z == dyadic (z * 2 ^ 27) (-27)).
    { intros z. replace (-27)%Z with (0 - 27)%Z by lia.
      rewrite dyadic_shift by lia. unfold dyadic. change (2 ^ 0) with 1. ring. }
    destruct (dyadic_representable (k * 2 ^ 27 - 1) (-27)) as (gh & Hvh & Hfh & Hgh);
      [lia | lia |].
    destruct (dyadic_representable ((k - 1) * 2 ^ 27 + 1) (-27)) as (gl & Hvl & Hfl & Hgl);
      [lia | lia |].
    assert (Hgh' : SFval gh == inject_Z k - 2 ^ (-27)).
    { rewrite Hgh. unfold Z.sub at 1. rewrite dyadic_plus, <- Hint.
      change (- (1))%Z with (- 1)%Z. rewrite (dyadic_opp 1), Hunit. ring. }
    assert (Hgl' : SFval gl == inject_Z k - 1 + 2 ^ (-27)).
    { rewrite Hgl. rewrite dyadic_plus, <- Hint, Hunit.
      unfold Z.sub. rewrite inject_Z_plus. reflexivity. }
    destruct Hb as (Hnan & Hvalid & Hb).
    destruct (Hb gh Hvh Hfh) as [_ Hup]. destruct (Hb gl Hvl Hfl) as [Hdown _].
    assert (Hle1 : SFleb gl (Prim2SF (x / 86400000)%float) = true)
      by (apply Hdown; rewrite Hgl', Hv; lra).
    assert (Hle2 : SFleb (Prim2SF (x / 86400000)%float) gh = true)
      by (apply Hup; rewrite Hgh', Hv; lra).
    assert (Hf : SFfinite (Prim2SF (x / 86400000)%float) = true)
      by (apply (SFleb_finite gl _ gh); assumption).
    apply SFleb_val in Hle1; try assumption.
    apply SFleb_val in Hle2; try assumption.
    unfold finite, value. split; [exact Hf |].
    pose proof (pow2_pos (-27)) as Hpos. lra.
Qed.

End CeilingFacts.

(** The next maintenance of every engine of [mockEngines] is a date of
    this century. *)
Lemma mockEngines_next (engine : mockData.EngineStatus.t) :
  In engine mockData.mockEngines ->
  exists next,
    mockData.EngineStatus.nextMaintenance engine = Some next /\
    (0 <= next <= 4102444800000)%Z.
Proof.
  assert (Hall : forallb
            (fun engine =>
               match mockData.EngineStatus.nextMaintenance engine with
               | Some next => (0 <=? next)%Z && (next <=? 4102444800000)%Z
               | None => false
               end) mockData.mockEngines = true) by (vm_compute; reflexivity).
  rewrite forallb_forall in Hall. intros Hin. specialize (Hall engine Hin).
  destruct (mockData.EngineStatus.nextMaintenance engine) as [next |];
    [| discriminate Hall].
  exists next. split; [reflexivity |]. lia.
Qed.


(** X25. For every engine of [mockEngines] and every instant [t] of the
    clock up to 5e15 ms in magnitude, the number of days shown until the
    next maintenance is exactly the ceiling of (next - t) / 86,400,000:
    the binary64 division and [Math.ceil] lose nothing (the value is
    negative once the maintenance is overdue, and -0 during the last day
    before it is). *)
Theorem daysUntilMaintenance_ceiling (t : Z) (engine : mockData.EngineStatus.t) :
  In engine mockData.mockEngines ->
  (Z.abs t <= 5000000000000000)%Z ->
  exists next,
    mockData.EngineStatus.nextMaintenance engine = Some next /\
    finite (daysUntilMaintenance (of_Z t) engine) = true /\
    (value (daysUntilMaintenance (of_Z t) engine)
     == inject_Z (- ((t - next) / 86400000)))%Q.
Proof.
  intros Hin Ht. destruct (mockEngines_next engine Hin) as (next & Hnext & Hrange).
  exists next. split; [exact Hnext |].
  unfold daysUntilMaintenance. rewrite Hnext. cbn [getTime].
  replace (1000 * 60 * 60 * 24) with 86400000 by (vm_compute; reflexivity).
  destruct (of_Z_value next) as [Fn Vn]; [lia |].
  destruct (of_Z_value t) as [Ft Vt]; [lia |].
  destruct (sub_integers _ _ _ _ Fn Ft Vn Vt) as [Fx Vx]; [lia |].
  destruct (days_quotient _ _ Fx Vx) as (Fq & Hlo & Hhi); [lia |].
  replace (- (next - t))%Z with (t - next)%Z in Hlo, Hhi by lia.
  apply Math_ceil_between; try assumption.
  pose proof (Z.div_mod (t - next) 86400000 ltac:(lia)) as Hdiv.
  pose proof (Z.mod_pos_bound (t - next) 86400000 ltac:(lia)) as Hmod.
  lia.
Qed.

Lemma daysUntilMaintenance_ceiling_witness :
  exists engine,
    hd_error mockData.mockEngines = Some engine /\
    (value (daysUntilMaintenance (of_Z 1711929600001) engine) == inject_Z 105)%Q.
Proof.
  destruct (hd_error mockData.mockEngines) as [engine |] eqn:He; [| discriminate He].
  exists engine. split; [reflexivity |].
  destruct (daysUntilMaintenance_ceiling 1711929600001 engine) as (next & Hn & _ & Hv).
  - unfold mockData.mockEngines, cmapssEngines in *. cbn [map hd_error] in He.
    injection He as <-. left. reflexivity.
  - lia.
  - rewrite Hv. unfold mockData.mockEngines, cmapssEngines in He. cbn [map hd_error] in He.
    injection He as <-. vm_compute in Hn. injection Hn as <-. reflexivity.
Defined.

(* ================================================================== *)
(** ** The costs and the dates of the alerts *)
(* ================================================================== *)

Section DateFacts.
Local Open Scope Q_scope.

(** [new Date(x)] on a number that is an integer. *)
Lemma Date_of_number_integer (x : float) (N : Z) :
  finite x = true -> value x == inject_Z N ->
  Date_of_number x = Date_of_time N.
Proof.
  unfold finite, value, Date_of_number. intros Hf Hv.
  destruct (Prim2SF x) as [s | s | | s m e]; try discriminate Hf.
  - cbn [SFval] in Hv.
    assert (HN : N = 0%Z) by (apply inject_Z_injective; rewrite <- Hv; reflexivity).
    subst N. reflexivity.
  - rewrite SFval_finite in Hv. f_equal.
    assert (Hmag : dyadic (Zpos m) e == inject_Z (cond_Zopp s N)).
    { destruct s; cbn [cond_Zopp]; [rewrite inject_Z_opp |]; lra. }
    assert (Hgoal : (if (0 <=? e)%Z then Zpos m * 2 ^ e else Zpos m / 2 ^ (- e))%Z
                    = cond_Zopp s N).
    { destruct (Z.leb_spec 0 e) as [Hpos | Hneg].
      - apply inject_Z_injective. rewrite <- Hmag. unfold dyadic.
        rewrite inject_Z_mult, <- pow2_inject by lia. reflexivity.
      - assert (Hp : (0 < 2 ^ (- e))%Z) by (apply Z.pow_pos_nonneg; lia).
        assert (Hm : Zpos m = (cond_Zopp s N * 2 ^ (- e))%Z).
        { apply inject_Z_injective. rewrite inject_Z_mult, <- Hmag.
          rewrite <- pow2_inject by lia. unfold dyadic.
          rewrite <- Qmult_assoc, <- pow2_add.
          replace (e + - e)%Z with 0%Z by lia. change (2 ^ 0) with 1. ring. }
        rewrite Hm. apply Z.div_mul. lia. }
    rewrite Hgoal. destruct s; cbn [cond_Zopp]; lia.
Qed.

(** The instant [d] days after a reading [t] of the clock, as the alerts
    compute it. *)
Lemma date_after_days (t d : Z) :
  (Z.abs t <= 8640000000000000)%Z -> (0 <= d <= 1000000)%Z ->
  Date_of_number (of_Z t + of_Z d * 24 * 60 * 60 * 1000)%float
  = Date_of_time (t + d * 86400000).
Proof.
  intros Ht Hd.
  assert (Hlit : forall (c : float) (n : Z),
             c = of_Z n -> (Z.abs n < 2 ^ 53)%Z ->
             finite c = true /\ value c == inject_Z n).
  { intros c n -> Hn. apply of_Z_value. exact Hn. }
  destruct (of_Z_value t) as [Ft Vt]; [lia |].
  destruct (of_Z_value d) as [Fd Vd]; [lia |].
  destruct (Hlit 24%float 24%Z) as [F24 V24]; [vm_compute; reflexivity | lia |].
  destruct (Hlit 60%float 60%Z) as [F60 V60]; [vm_compute; reflexivity | lia |].
  destruct (Hlit 1000%float 1000%Z) as [F1000 V1000]; [vm_compute; reflexivity | lia |].
  destruct (mul_integers _ _ _ _ Fd F24 Vd V24) as [F1 V1]; [lia |].
  destruct (mul_integers _ _ _ _ F1 F60 V1 V60) as [F2 V2]; [lia |].
  destruct (mul_integers _ _ _ _ F2 F60 V2 V60) as [F3 V3]; [lia |].
  destruct (mul_integers _ _ _ _ F3 F1000 V3 V1000) as [F4 V4]; [lia |].
  destruct (add_integers _ _ _ _ Ft F4 Vt V4) as [F5 V5]; [lia |].
  rewrite (Date_of_number_integer _ _ F5 V5). f_equal. lia.
Qed.

End DateFacts.

Section AlertsSound.

Variable random : nat -> number.
Variable clock : nat -> Z.
Hypothesis Hrandom : unit_interval random.
Hypothesis Hclock : time_values clock.

Lemma componentAlerts_sound (engineId : string) (components : list string) :
  forall (alerts out : list mockData.MaintenanceAlert.t) (st st' : nat * nat),
    mockData.componentAlerts random clock engineId components alerts st
    = (Normal out, st') ->
    Forall (alert_sound clock) alerts -> Forall (alert_sound clock) out.
Proof.
  induction components as [| component rest IH]; intros alerts out st st' Hrun Hacc.
  - cbn [mockData.componentAlerts] in Hrun. unfold retW in Hrun.
    injection Hrun as <- _. exact Hacc.
  - cbn [mockData.componentAlerts] in Hrun. unfold bindW at 1 in Hrun.
    unfold mockData.Date_now at 1 in Hrun. cbn [fst snd] in Hrun.
    unfold bindW at 1 in Hrun. unfold mockData.Date_now at 1 in Hrun.
    cbn [fst snd] in Hrun.
    unfold bindW at 1 in Hrun. unfold liftM at 1 in Hrun. cbn [fst snd] in Hrun.
    unfold Math_random at 1 in Hrun.
    apply (IH _ _ _ _ Hrun).
    apply Forall_app. split; [exact Hacc |].
    constructor; [| constructor].
    unfold alert_sound.
    cbn [mockData.MaintenanceAlert.severity mockData.MaintenanceAlert.confidence
         mockData.MaintenanceAlert.estimatedCost
         mockData.MaintenanceAlert.predictedFailureDate].
    pose proof (unit_interval_within random (fst st) Hrandom) as Hu.
    split; [reflexivity |]. split; [within_tac |].
    exists (S (snd st)).
    replace 30%float with (of_Z 30) by (vm_compute; reflexivity).
    apply date_after_days; [apply Hclock | lia].
Qed.

Lemma engineAlerts_sound (engine : mockData.EngineStatus.t) (h : CMAPSSHealthData.t)
    (d : Z) :
  generateCMAPSSHealthData (mockData.EngineStatus.engineId engine) = Normal h ->
  CMAPSSHealthData.remainingUsefulLife h = of_Z d ->
  (0 <= d <= 1000000)%Z ->
  forall (alerts out : list mockData.MaintenanceAlert.t) (st st' : nat * nat),
    mockData.engineAlerts random clock engine alerts st = (Normal out, st') ->
    Forall (alert_sound clock) alerts -> Forall (alert_sound clock) out.
Proof.
  intros Hh Hrul Hd alerts out st st'.
  unfold mockData.engineAlerts. unfold bindW at 1.
  unfold liftM at 1, lift at 1. rewrite Hh. cbn [fst snd].
  destruct (CMAPSSHealthData.healthScore h <? 75) eqn:Hlow.
  - unfold bindW at 1. unfold bindW at 1.
    unfold mockData.Date_now at 1. cbn [fst snd].
    unfold bindW at 1. unfold mockData.Date_now at 1. cbn [fst snd].
    unfold bindW at 1. unfold liftM at 1. cbn [fst snd].
    unfold Math_random at 1. unfold retW at 1.
    intros Hrun Hacc. apply (componentAlerts_sound _ _ _ _ _ _ Hrun).
    apply Forall_app. split; [exact Hacc |].
    constructor; [| constructor].
    pose proof (unit_interval_within random (fst st) Hrandom) as Hu.
    assert (Hbody :
      mockData.MaintenanceAlert.confidence
        {| mockData.MaintenanceAlert.id := "";
           mockData.MaintenanceAlert.engineId := "";
           mockData.MaintenanceAlert.component := "";
           mockData.MaintenanceAlert.severity := mockData.high;
           mockData.MaintenanceAlert.predictedFailureDate := None;
           mockData.MaintenanceAlert.confidence := 0.85;
           mockData.MaintenanceAlert.recommendation := "";
           mockData.MaintenanceAlert.estimatedCost := 0 |} = 0.85) by reflexivity.
    clear Hbody.
    unfold alert_sound.
    cbn [mockData.MaintenanceAlert.severity mockData.MaintenanceAlert.confidence
         mockData.MaintenanceAlert.estimatedCost mockData.MaintenanceAlert.engineId
         mockData.MaintenanceAlert.predictedFailureDate].
    assert (Hgoal :
      0.85 = 0.85 /\
      within 15000 25000 (Math_round (15000 + random (fst st) * 10000)) = true /\
      exists k h0 d0,
        generateCMAPSSHealthData (mockData.EngineStatus.engineId engine) = Normal h0 /\
        CMAPSSHealthData.remainingUsefulLife h0 = of_Z d0 /\
        Date_of_number
          (of_Z (clock (S (snd st)))
           + CMAPSSHealthData.remainingUsefulLife h * 24 * 60 * 60 * 1000)
        = Date_of_time (clock k + d0 * 86400000)).
    { split; [reflexivity |]. split; [within_tac |].
      exists (S (snd st)), h, d. split; [exact Hh |]. split; [exact Hrul |].
      rewrite Hrul. apply date_after_days; [apply Hclock | exact Hd]. }
    destruct (CMAPSSHealthData.healthScore h <? 60); exact Hgoal.
  - unfold bindW at 1. unfold retW at 1.
    intros Hrun Hacc. exact (componentAlerts_sound _ _ _ _ _ _ Hrun Hacc).
Qed.

Lemma forEachEngine_sound (engines : list mockData.EngineStatus.t) :
  Forall (fun engine =>
            exists h d,
              generateCMAPSSHealthData (mockData.EngineStatus.engineId engine)
              = Normal h /\
              CMAPSSHealthData.remainingUsefulLife h = of_Z d /\
              (0 <= d <= 1000000)%Z) engines ->
  forall (alerts out : list mockData.MaintenanceAlert.t) (st st' : nat * nat),
    mockData.forEachEngine random clock engines alerts st = (Normal out, st') ->
    Forall (alert_sound clock) alerts -> Forall (alert_sound clock) out.
Proof.
  intros Hall. induction Hall as [| engine rest (h & d & Hh & Hrul & Hd) _ IH];
    intros alerts out st st' Hrun Hacc.
  - cbn [mockData.forEachEngine] in Hrun. unfold retW in Hrun.
    injection Hrun as <- _. exact Hacc.
  - cbn [mockData.forEachEngine] in Hrun. unfold bindW at 1 in Hrun.
    destruct (mockData.engineAlerts random clock engine alerts st)
      as [[mid | x] st1] eqn:Hone; [| discriminate Hrun].
    apply (IH _ _ _ _ Hrun).
    exact (engineAlerts_sound engine h d Hh Hrul Hd _ _ _ _ Hone Hacc).
Qed.

End AlertsSound.

(** Every engine of the registry has an assessment, with a whole number
    of cycles of remaining useful life. *)
Lemma mockEngines_assessed :
  Forall (fun engine =>
            exists h d,
              generateCMAPSSHealthData (mockData.EngineStatus.engineId engine)
              = Normal h /\
              CMAPSSHealthData.remainingUsefulLife h = of_Z d /\
              (0 <= d <= 1000000)%Z) mockData.mockEngines.
Proof.
  unfold mockData.mockEngines, cmapssEngines. cbn [map].
  repeat (apply Forall_cons;
    [match goal with
     | |- exists h d, generateCMAPSSHealthData ?id = Normal h /\ _ =>
         let r := eval vm_compute in (generateCMAPSSHealthData id) in
         lazymatch r with
         | Normal ?h =>
             let z := eval vm_compute in
                        (Date_of_number (CMAPSSHealthData.remainingUsefulLife h)) in
             lazymatch z with
             | Some ?d =>
                 exists h, d;
                 split; [vm_compute; reflexivity |];
                 split; [vm_compute; reflexivity | lia]
             end
         end
     end |]).
  apply Forall_nil.
Qed.

Lemma generateMaintenanceAlerts_eq (random : nat -> number) (clock : nat -> Z) :
  mockData.generateMaintenanceAlerts random clock
  = mockData.forEachEngine random clock mockData.mockEngines [].
Proof. reflexivity. Qed.

(** X26. Whatever the draws (each in [0, 1)) and the readings of the clock
    (each a time value), every alert that [generateMaintenanceAlerts]
    returns is sound: a component alert has confidence 0.75, a cost
    between 5000 and 13000 and a failure date exactly 30 days after a
    reading of the clock; an alert on the overall health has confidence
    0.85, a cost between 15000 and 25000 and a failure date as many days
    after a reading of the clock as its engine has cycles of remaining
    useful life. *)
Theorem alerts_costs_and_dates (random : nat -> number) (clock : nat -> Z)
    (st st' : nat * nat) (alerts : list mockData.MaintenanceAlert.t)
    (a : mockData.MaintenanceAlert.t) :
  unit_interval random ->
  time_values clock ->
  mockData.generateMaintenanceAlerts random clock st = (Normal alerts, st') ->
  In a alerts ->
  alert_sound clock a.
Proof.
  intros Hrandom Hclock Hrun Hin.
  assert (Hall : Forall (alert_sound clock) alerts).
  { rewrite generateMaintenanceAlerts_eq in Hrun.
    exact (forEachEngine_sound random clock Hrandom Hclock mockData.mockEngines
             mockEngines_assessed [] alerts st st' Hrun (Forall_nil _)). }
  rewrite Forall_forall in Hall. exact (Hall a Hin).
Qed.

Lemma alerts_costs_and_dates_witness :
  exists alerts a,
    mockData.generateMaintenanceAlerts midpoint (fun _ => 1704067200000%Z) (0, 0)%nat
    = (Normal alerts, (37, 74)%nat) /\
    hd_error alerts = Some a /\
    alert_sound (fun _ => 1704067200000%Z) a.
Proof.
  eexists. eexists.
  split; [vm_compute; reflexivity |].
  split; [reflexivity |].
  eapply (alerts_costs_and_dates midpoint (fun _ => 1704067200000%Z)
            (0, 0)%nat (37, 74)%nat _ _ midpoint_unit_interval).
  - intros k. lia.
  - vm_compute. reflexivity.
  - left. reflexivity.
Defined.
